(** * kerchunk.grib2: hierarchy builder, chunk index and idx cross-validation

    A shallow embedding of the pure parts of [kerchunk/grib2.py]:
    [build_path], [grib_tree], [extract_dataset_chunk_index],
    [parse_grib_idx] and the validation of [build_idx_grib_mapping].

    Python dictionaries whose iteration order is observed by the code are
    association lists (insertion order, first occurrence of a key is the
    binding); dictionaries that are only looked up are [gmap]s; Python sets
    are [gset]s.  Exceptions are values of [exn], carried by [res].

    The collaborators of the module are parameters: the JSON decoder, the
    aggregation [MultiZarrToZarr], the coding zarr uses for its own entries
    and the decoding of bytes.  The inputs are the values the functions
    receive: scanned messages for [grib_tree]; a dataset node with its
    dimensions, shapes and coordinate arrays and the manifest for
    [extract_dataset_chunk_index]; the column of text cells that [read_csv]
    makes of the idx file and the size of the grib file for
    [parse_grib_idx]; these and the frame of message rows for
    [build_idx_grib_mapping].

    Further down: [_split_file] over the bytes of a file, and the frames
    that [extract_datatree_chunk_index], [_extract_single_group] and
    [_map_grib_file_by_group] make of the messages of a file. *)

From Stdlib Require Import ZArith String Ascii List Lia.
From stdpp Require Import gmap strings list fin_maps pretty.

Open Scope string_scope.
Open Scope list_scope.

(** ** Exceptions *)

Inductive exn : Type :=
  | AssertionError
  | KeyError (key : string)
  | TypeError (what : string)
  | AttributeError (what : string)
  | JSONDecodeError
  | UnicodeDecodeError
  | RuntimeError_no_data_var (msg_ind : nat)
  | AggregationError (path : string)
  | ValueError_chunk_dim (dim : string)
  | ValueError_bad_value (chunk_key : string)
  | DynamicZarrStoreError (var_path coord : string) (coord_index : list nat)
  | ValueError_int (literal : string)
  | OverflowError
  | ValueError_columns
  | ValueError_not_unique
  | ValueError_offset_mapping (matched mismatched : nat)
  | ValueError_length_mapping (matched mismatched : nat).

Inductive res (A : Type) : Type :=
  | Ok (a : A)
  | Raise (e : exn).
Arguments Ok {A} a.
Arguments Raise {A} e.

#[global] Instance res_ret : MRet res := fun _ a => Ok a.
#[global] Instance res_bind : MBind res := fun _ _ f m =>
  match m with
  | Ok a => f a
  | Raise e => Raise e
  end.
#[global] Instance res_fmap : FMap res := fun _ _ f m =>
  match m with
  | Ok a => Ok (f a)
  | Raise e => Raise e
  end.

Definition raises {A} (m : res A) : Prop :=
  match m with
  | Ok _ => False
  | Raise _ => True
  end.

Definition or_raise {A} (o : option A) (e : exn) : res A :=
  match o with
  | Some a => Ok a
  | None => Raise e
  end.

(** ** Python string operations used by the module *)

Module PyStr.

(** [s.split(sep)] for a one-character separator: never the empty list. *)
Fixpoint split (sep : ascii) (s : string) : list string :=
  match s with
  | EmptyString => [EmptyString]
  | String c s' =>
      if decide (c = sep) then EmptyString :: split sep s'
      else match split sep s' with
           | h :: t => String c h :: t
           | [] => [String c EmptyString]
           end
  end.

(** [s.split(sep, maxsplit)]: at most [n] cuts, the rest is kept whole. *)
Fixpoint splitn (sep : ascii) (n : nat) (s : string) : list string :=
  match n with
  | O => [s]
  | S n' =>
      match s with
      | EmptyString => [EmptyString]
      | String c s' =>
          if decide (c = sep) then EmptyString :: splitn sep n' s'
          else match splitn sep n s' with
               | h :: t => String c h :: t
               | [] => [String c EmptyString]
               end
      end
  end.

(** [sep.join(parts)] *)
Fixpoint join (sep : string) (parts : list string) : string :=
  match parts with
  | [] => EmptyString
  | [p] => p
  | p :: rest => p +:+ sep +:+ join sep rest
  end.

(** [s.lstrip(c)] for a one-character strip set. *)
Fixpoint lstrip (c : ascii) (s : string) : string :=
  match s with
  | String c' s' => if decide (c' = c) then lstrip c s' else s
  | EmptyString => EmptyString
  end.

(** [s.endswith(c)] for a one-character suffix. *)
Fixpoint endswith (c : ascii) (s : string) : bool :=
  match s with
  | EmptyString => false
  | String c' EmptyString => bool_decide (c' = c)
  | String _ s' => endswith c s'
  end.

(** [xs[0]] and [xs[-1]] on the res of a split (never empty). *)
Definition first (xs : list string) : string := hd EmptyString xs.
Definition last (xs : list string) : string := List.last xs EmptyString.

(** [c * n] *)
Fixpoint replicate_char (n : nat) (c : ascii) : string :=
  match n with
  | O => EmptyString
  | S n' => String c (replicate_char n' c)
  end.

End PyStr.

(** ** [build_path] *)

(** [[val for val in [*path, suffix] if val is not None]] *)
Definition not_none_vals (path : list (option string)) (suffix : option string)
  : list string :=
  omap id (path ++ [suffix]).

Definition build_path (path : list (option string)) (suffix : option string)
  : string :=
  PyStr.lstrip "/" (PyStr.join "/" (not_none_vals path suffix)).

(** The claimed behaviour, in the words of the specification: the segments
    that are present, then the suffix when it is present. *)
Definition present_segments (path : list (option string)) : list string :=
  flat_map (fun seg => match seg with Some s => [s] | None => [] end) path.

Definition build_path_claimed (path : list (option string))
    (suffix : option string) : string :=
  let joined :=
    PyStr.join "/" (present_segments path ++
                    match suffix with Some s => [s] | None => [] end) in
  PyStr.lstrip "/" joined.

(** ** Python dictionaries with observable order

    A [dict] iterated by the code is a list of bindings in insertion order.
    [d[k] = v] overwrites in place when the key is there and appends
    otherwise; [d[k]] and [d.get(k)] read the first binding. *)

Module PyDict.

Fixpoint get {V} (k : string) (d : list (string * V)) : option V :=
  match d with
  | [] => None
  | (k', v) :: d' => if decide (k' = k) then Some v else get k d'
  end.

Fixpoint set {V} (k : string) (v : V) (d : list (string * V))
  : list (string * V) :=
  match d with
  | [] => [(k, v)]
  | (k', v') :: d' =>
      if decide (k' = k) then (k, v) :: d' else (k', v') :: set k v d'
  end.

Definition keys {V} (d : list (string * V)) : list string := map fst d.
Definition values {V} (d : list (string * V)) : list V := map snd d.

(** [d[k].append(x)] on a [defaultdict(list)] *)
Definition append_to {V} (k : string) (x : V) (d : list (string * list V))
  : list (string * list V) :=
  set k (default [] (get k d) ++ [x]) d.

End PyDict.

(** [xs.insert(i, x)]: before position [i], at the end when [i] is past it. *)
Definition list_insert_at {A} (i : nat) (x : A) (xs : list A) : list A :=
  take i xs ++ x :: drop i xs.

(** ** Reference fragments *)

(** An element of a byte-range entry [[uri, offset, length]]. *)
Inductive atom : Type :=
  | AStr (s : string)
  | AInt (z : Z).

(** A manifest entry: inline text, inline bytes, or a list (a byte range
    when it has three elements). *)
Inductive ref : Type :=
  | RStr (s : string)
  | RBytes (b : string)
  | RList (l : list atom).

#[global] Instance atom_eq_dec : EqDecision atom.
Proof. solve_decision. Defined.

#[global] Instance atom_countable : Countable atom.
Proof.
  refine (inj_countable'
            (fun a => match a with AStr s => inl s | AInt z => inr z end)
            (fun x => match x with inl s => AStr s | inr z => AInt z end) _).
  by intros [].
Defined.

#[global] Instance ref_eq_dec : EqDecision ref.
Proof. solve_decision. Defined.

#[global] Instance ref_countable : Countable ref.
Proof.
  refine (inj_countable'
            (fun r => match r with
                      | RStr s => inl (inl s)
                      | RBytes b => inl (inr b)
                      | RList l => inr l
                      end)
            (fun x => match x with
                      | inl (inl s) => RStr s
                      | inl (inr b) => RBytes b
                      | inr l => RList l
                      end) _).
  by intros [].
Defined.

(** One scanned message: [{"version": ..., "refs": {...}}]. *)
Record fragment : Type := {
  version : Z;
  refs : list (string * ref);
}.

(** A decoded JSON attribute value.  The attributes this module reads
    ([coordinates], [GRIB_stepType], [GRIB_typeOfLevel], [GRIB_name]) are
    text or null. *)
Inductive jval : Type :=
  | JNull
  | JStr (s : string).

#[global] Instance jval_eq_dec : EqDecision jval.
Proof. solve_decision. Defined.

(** The flat manifest returned by [grib_tree]. *)
Record manifest : Type := {
  m_refs : gmap string ref;
  m_version : Z;
}.

(** ** [grib_tree] *)

Section GribTree.

(** [ujson.loads] on a manifest entry holding attribute text. *)
Variable ujson_loads : ref -> res (gmap string jval).

(** [MultiZarrToZarr(members, remote_options=..., concat_dims=...,
    identical_dims=...).translate()["refs"]], the external aggregation. *)
Variable MultiZarrToZarr :
  list fragment -> list string -> list string -> res (list (string * ref)).

(** What zarr keeps in the dictionary behind [zroot]: the group marker it
    writes under [.zgroup], and its coding of attributes under [.zattrs]. *)
Variable zgroup_meta : ref.
Variable zattrs_encode : gmap string jval -> ref.
Variable zattrs_decode : ref -> gmap string jval.

(** [bytes.decode()] *)
Variable bytes_decode : string -> option string.

Definition filters : list string := ["stepType"; "typeOfLevel"].
Definition concat_dims : list string := ["time"; "step"].
Definition identical_dims : list string := ["longitude"; "latitude"].
Definition group_metadata : list string := [".zattrs"; ".zgroup"].

(** The variables of [grib_tree] that the message loop updates. *)
Record tree_state : Type := {
  zarr_store : gmap string ref;
  aggregations : list (string * list fragment);
  aggregation_dims : gmap string (gset ref);
  unknown_counter : nat;
}.

(** zarr groups over the dictionary store.  A group is named by its path
    (the empty path for the root); names are taken as single path segments. *)
Definition item_path (parent name : string) : string :=
  if decide (parent = EmptyString) then name else parent +:+ "/" +:+ name.

Definition require_group (path : string) (store : gmap string ref)
  : gmap string ref :=
  let key := item_path path ".zgroup" in
  match store !! key with
  | Some _ => store
  | None => <[key := zgroup_meta]> store
  end.

Definition group_attrs (path : string) (store : gmap string ref)
  : gmap string jval :=
  match store !! item_path path ".zattrs" with
  | Some text => zattrs_decode text
  | None => ∅
  end.

Definition set_group_attr (path key : string) (value : jval)
    (store : gmap string ref) : gmap string ref :=
  <[item_path path ".zattrs" :=
      zattrs_encode (<[key := value]> (group_attrs path store))]> store.

(** [zarr.open_group(store={})] *)
Definition open_group : gmap string ref := require_group EmptyString ∅.

(** The loop that looks for the data variable of a message. *)
Fixpoint find_data_var (items : list (string * ref)) (coordinates : list string)
  : option string :=
  match items with
  | [] => None
  | (key, _) :: rest =>
      let name := PyStr.first (PyStr.split "/" key) in
      if bool_decide (name ∉ group_metadata) && bool_decide (name ∉ coordinates)
      then Some name
      else find_data_var rest coordinates
  end.

(** [gfilters]: the filter attributes that are present, in filter order. *)
Definition grib_filters (dattrs : gmap string jval) : list (string * string) :=
  omap (fun key =>
          match dattrs !! ("GRIB_" +:+ key) with
          | Some (JStr attr_val) => Some (key, attr_val)
          | _ => None
          end) filters.

(** Descend into (and create) the group of every non-empty filter value. *)
Definition nest_groups (vname : string) (gfilters : list (string * string))
    (store : gmap string ref) : gmap string ref * string :=
  foldl (fun '(store, path) '(key, value) =>
           if decide (value = EmptyString) then (store, path)
           else
             let path' := item_path path value in
             (set_group_attr path' key (JStr value) (require_group path' store),
              path'))
        (store, vname) gfilters.

(** The level coordinate values of one message, added to the set of its
    group. *)
Definition level_values (gfilters : list (string * string))
    (items : list (string * ref)) (seen : gset ref) : gset ref :=
  foldl (fun seen '(key, entry) =>
           let name := PyStr.first (PyStr.split "/" key) in
           if bool_decide (Some name = PyDict.get "typeOfLevel" gfilters)
              && PyStr.endswith "0" key
           then {[entry]} ∪ seen
           else seen)
        seen items.

(** The header of a message: the version check and the coordinate names. *)
Definition message_coordinates (group : fragment) : res (list string) :=
  if negb (version group =? 1)%Z then Raise AssertionError
  else
    text ← or_raise (PyDict.get ".zattrs" (refs group)) (KeyError ".zattrs");
    gattrs ← ujson_loads text;
    match gattrs !! "coordinates" with
    | None => Raise (KeyError "coordinates")
    | Some JNull => Raise (AttributeError "split")
    | Some (JStr names) => Ok (PyStr.split " " names)
    end.

(** Placing a message whose data variable is known. *)
Definition place_message (st : tree_state) (group : fragment)
    (coordinates : list string) (vname : string) : res tree_state :=
  text ← or_raise (PyDict.get (vname +:+ "/.zattrs") (refs group))
                  (KeyError (vname +:+ "/.zattrs"));
  dattrs ← ujson_loads text;
  let gfilters := grib_filters dattrs in
  let store := require_group vname (zarr_store st) in
  let store :=
    if bool_decide (is_Some (group_attrs vname store !! "name")) then store
    else set_group_attr vname "name"
           (default JNull (dattrs !! "GRIB_name")) store in
  let '(store, path) := nest_groups vname gfilters store in
  let store :=
    set_group_attr path "coordinates" (JStr (PyStr.join " " coordinates))
      store in
  let seen := default ∅ (aggregation_dims st !! path) in
  let seen' := level_values gfilters (refs group) seen in
  Ok {| zarr_store := store;
        aggregations := PyDict.append_to path group (aggregations st);
        aggregation_dims :=
          if decide (seen' = ∅) then aggregation_dims st
          else <[path := seen']> (aggregation_dims st);
        unknown_counter := unknown_counter st |}.

(** One iteration of [for msg_ind, group in enumerate(message_groups)]. *)
Definition grib_tree_step (st : tree_state) (msg_ind : nat) (group : fragment)
  : res tree_state :=
  coordinates ← message_coordinates group;
  match find_data_var (refs group) coordinates with
  | None => Raise (RuntimeError_no_data_var msg_ind)
  | Some vname =>
      if decide (vname = "unknown")
      then Ok {| zarr_store := zarr_store st;
                 aggregations := aggregations st;
                 aggregation_dims := aggregation_dims st;
                 unknown_counter := unknown_counter st + 1 |}
      else place_message st group coordinates vname
  end.

Fixpoint grib_tree_messages (st : tree_state) (msg_ind : nat)
    (message_groups : list fragment) : res tree_state :=
  match message_groups with
  | [] => Ok st
  | group :: rest =>
      st' ← grib_tree_step st msg_ind group;
      grib_tree_messages st' (S msg_ind) rest
  end.

Definition initial_state : tree_state :=
  {| zarr_store := open_group;
     aggregations := [];
     aggregation_dims := ∅;
     unknown_counter := 0 |}.

(** The dimension lists handed to the aggregation for the node at [path]. *)
Definition node_dims (dims : gmap string (gset ref)) (path : string)
  : list string * list string :=
  let catdims := concat_dims in
  let idims := identical_dims in
  let level_dimension_value_count := size (default ∅ (dims !! path)) in
  let level_group_name := PyStr.last (PyStr.split "/" path) in
  if decide (level_dimension_value_count = 0) then (catdims, idims)
  else if decide (level_dimension_value_count = 1)
       then (catdims, idims ++ [level_group_name])
       else (list_insert_at 3 level_group_name catdims, idims).

(** The arguments of one aggregation call. *)
Record mzz_call : Type := {
  mzz_path : string;
  mzz_members : list fragment;
  mzz_concat_dims : list string;
  mzz_identical_dims : list string;
}.

Definition mzz_calls (st : tree_state) : list mzz_call :=
  map (fun path =>
         let '(catdims, idims) := node_dims (aggregation_dims st) path in
         {| mzz_path := path;
            mzz_members := default [] (PyDict.get path (aggregations st));
            mzz_concat_dims := catdims;
            mzz_identical_dims := idims |})
      (PyDict.keys (aggregations st)).

(** [zarr_store[f"{path}/{key}"] = value] for the merged entries of a node. *)
Definition store_group_refs (path : string) (group_refs : list (string * ref))
    (store : gmap string ref) : gmap string ref :=
  foldl (fun store '(key, value) =>
           if bool_decide (key ∈ group_metadata) then store
           else <[path +:+ "/" +:+ key := value]> store)
        store group_refs.

Fixpoint aggregate_nodes (calls : list mzz_call) (store : gmap string ref)
  : res (gmap string ref) :=
  match calls with
  | [] => Ok store
  | call :: rest =>
      group_refs ← MultiZarrToZarr (mzz_members call) (mzz_concat_dims call)
                                  (mzz_identical_dims call);
      aggregate_nodes rest (store_group_refs (mzz_path call) group_refs store)
  end.

Definition decode_ref (val : ref) : option ref :=
  match val with
  | RBytes b => RStr <$> bytes_decode b
  | _ => Some val
  end.

Definition decode_store (store : gmap string ref) : res (gmap string ref) :=
  if bool_decide (map_Forall (fun _ val => is_Some (decode_ref val)) store)
  then Ok (omap decode_ref store)
  else Raise UnicodeDecodeError.

Definition grib_tree (message_groups : list fragment) : res manifest :=
  st ← grib_tree_messages initial_state 0 message_groups;
  store ← aggregate_nodes (mzz_calls st) (zarr_store st);
  store ← decode_store store;
  Ok {| m_refs := store; m_version := 1 |}.

End GribTree.

(** Two states of the message loop that differ at most in the count of
    dropped messages. *)
Definition same_tree (st1 st2 : tree_state) : Prop :=
  zarr_store st1 = zarr_store st2
  ∧ aggregations st1 = aggregations st2
  ∧ aggregation_dims st1 = aggregation_dims st2.

(** Two runs of the message loop that end in such states, or both raise
    (the message number reported may differ). *)
Definition same_run (r1 r2 : res tree_state) : Prop :=
  match r1, r2 with
  | Ok st1, Ok st2 => same_tree st1 st2
  | Raise _, Raise _ => True
  | _, _ => False
  end.

(** The state after a message was dropped. *)
Definition count_unknown (st : tree_state) : tree_state :=
  {| zarr_store := zarr_store st;
     aggregations := aggregations st;
     aggregation_dims := aggregation_dims st;
     unknown_counter := unknown_counter st + 1 |}.

(** ** [extract_dataset_chunk_index] *)

(** A value held by a chunk index record.  [scalar] stands for the values
    the function only passes through: coordinate scalars and attribute
    values. *)
Inductive field (scalar : Type) : Type :=
  | FNone
  | FStr (s : string)
  | FBytes (b : string)
  | FInt (z : Z)
  | FScalar (x : scalar).
Arguments FNone {scalar}.
Arguments FStr {scalar} s.
Arguments FBytes {scalar} b.
Arguments FInt {scalar} z.
Arguments FScalar {scalar} x.

Definition field_of_atom {scalar} (a : atom) : field scalar :=
  match a with
  | AStr s => FStr s
  | AInt z => FInt z
  end.

(** Python [zip] of three sequences: as long as the shortest. *)
Fixpoint zip3 {A B C} (xs : list A) (ys : list B) (zs : list C)
  : list (A * B * C) :=
  match xs, ys, zs with
  | x :: xs', y :: ys', z :: zs' => (x, y, z) :: zip3 xs' ys' zs'
  | _, _, _ => []
  end.

(** [itertools.product] of the ranges [range(v)], [v] in [sizes]: the index
    tuples in lexicographic order. *)
Fixpoint product (sizes : list nat) : list (list nat) :=
  match sizes with
  | [] => [[]]
  | n :: rest => flat_map (fun i => map (cons i) (product rest)) (seq 0 n)
  end.

Definition grib_coordinate_names : list string :=
  ["valid_time"; "time"; "step"; "latitude"; "longitude"].

Section ChunkIndex.

Variable scalar : Type.

(** [ujson.loads(text)["chunks"]] of a [.zarray] entry. *)
Variable zarray_chunks : ref -> res (list Z).

(** A coordinate of a data variable: its dimensions and [to_numpy()[index]],
    [None] when reading raises. *)
Record coord_var : Type := {
  cv_dims : list string;
  cv_value : list nat -> option (field scalar);
}.

Record data_var : Type := {
  dv_dims : list string;
  dv_shape : list nat;
  dv_coords : list (string * coord_var);
}.

(** The node handed in.  [ds_tree] is [Some (path, attrs of the parent, of
    its parent, ..., of the root)] for a [DataTree] node and [None] for a
    plain dataset.  Every ancestor is visited: a node that has a child is
    true in the [while walk_group] test. *)
Record dataset : Type := {
  ds_attrs : gmap string (field scalar);
  ds_tree : option (string * list (gmap string (field scalar)));
  ds_data_vars : list (string * data_var);
}.

Definition ds_path (dset : dataset) : option string := fst <$> ds_tree dset.

(** [attributes] after the walk: [dict.update] lets the walked group's
    values replace the ones already there. *)
Definition walk_attributes (dset : dataset) : gmap string (field scalar) :=
  match ds_tree dset with
  | None => ds_attrs dset
  | Some (_, ancestors) =>
      foldl (fun attributes walk_group_attrs => walk_group_attrs ∪ attributes)
            (ds_attrs dset) ancestors
  end.

(** The loop over [zip(dvar.dims, dshape, dchunk)]. *)
Fixpoint index_dims_loop (zipped : list (string * nat * Z))
    (index_dims : list (string * nat)) : res (list (string * nat)) :=
  match zipped with
  | [] => Ok index_dims
  | (ddim_name, ddim_size, dchunk_size) :: rest =>
      if decide (dchunk_size = 1%Z)
      then index_dims_loop rest (PyDict.set ddim_name ddim_size index_dims)
      else if decide (dchunk_size ≠ Z.of_nat ddim_size)
           then Raise (ValueError_chunk_dim ddim_name)
           else index_dims_loop rest index_dims
  end.

Definition index_dims_of (dvar : data_var) (dchunk : list Z)
  : res (list (string * nat)) :=
  index_dims_loop (zip3 (dv_dims dvar) (dv_shape dvar) dchunk) [].

Definition coord_name (grib : bool) (cname : string) : string :=
  if grib
  then if bool_decide (cname ∈ grib_coordinate_names) then cname else "level"
  else cname.

(** The loop over [dvar.coords.items()] for one index combination. *)
Fixpoint coord_vals_loop (grib : bool) (dname : string)
    (dim_idx : list (string * nat)) (coords : list (string * coord_var))
    (coord_vals : gmap string (field scalar))
  : res (gmap string (field scalar)) :=
  match coords with
  | [] => Ok coord_vals
  | (cname, cvar) :: rest =>
      let cname := coord_name grib cname in
      match mapM (fun dim_name => PyDict.get dim_name dim_idx) (cv_dims cvar) with
      | None => coord_vals_loop grib dname dim_idx rest coord_vals
      | Some coord_index =>
          match cv_value cvar coord_index with
          | Some value =>
              coord_vals_loop grib dname dim_idx rest
                (<[cname := value]> coord_vals)
          | None => Raise (DynamicZarrStoreError dname cname coord_index)
          end
      end
  end.

(** The chunk location part of a record. *)
Definition byte_range_data (uri offset length : atom)
  : gmap string (field scalar) :=
  <["uri" := field_of_atom uri]>
    (<["offset" := field_of_atom offset]>
       (<["length" := field_of_atom length]>
          (<["inline_value" := FNone]> ∅))).

Definition inline_data (inline_value : field scalar)
  : gmap string (field scalar) :=
  <["inline_value" := inline_value]>
    (<["offset" := FInt (-1)]> (<["length" := FInt (-1)]> ∅)).

(** The branches on [chunk_ref]: [None] is the skipped chunk. *)
Definition chunk_data_of (chunk_key : string) (chunk_ref : option ref)
  : res (option (gmap string (field scalar))) :=
  match chunk_ref with
  | None => Ok None
  | Some (RList [uri; offset; length]) =>
      Ok (Some (byte_range_data uri offset length))
  | Some (RStr s) => Ok (Some (inline_data (FStr s)))
  | Some (RBytes b) => Ok (Some (inline_data (FBytes b)))
  | Some (RList _) => Raise (ValueError_bad_value chunk_key)
  end.

(** Keyword arguments unpacked from two dictionaries into one call: a
    keyword given twice is a [TypeError]. *)
Definition kwargs_join (a b : gmap string (field scalar))
  : res (gmap string (field scalar)) :=
  if decide (a ##ₘ b) then Ok (a ∪ b)
  else Raise (TypeError "multiple values for keyword argument").

(** The call [dict] with the keyword [varname] followed by the unpacked
    [attributes], [coord_vals] and [chunk_data]. *)
Definition make_record (dname : string)
    (attributes coord_vals chunk_data : gmap string (field scalar))
  : res (gmap string (field scalar)) :=
  r ← kwargs_join {["varname" := FStr dname]} attributes;
  r ← kwargs_join r coord_vals;
  kwargs_join r chunk_data.

(** What one index combination contributes. *)
Inductive chunk_outcome : Type :=
  | ChunkNotFound (chunk_key : string)
  | Indexed (record : gmap string (field scalar)).

Definition chunk_key_of (dset : dataset) (dname : string) (dvar : data_var)
    (dim_idx : list (string * nat)) (idx : list nat) : string :=
  let whole_dim_cnt := (length (dv_dims dvar) - length dim_idx)%nat in
  let chunk_idx := map pretty (idx ++ replicate whole_dim_cnt 0%nat) in
  build_path [ds_path dset; Some dname] (Some (PyStr.join "." chunk_idx)).

Definition index_chunk (dset : dataset) (ref_store : gmap string ref)
    (grib : bool) (attributes : gmap string (field scalar))
    (dname : string) (dvar : data_var) (index_dims : list (string * nat))
    (idx : list nat) : res chunk_outcome :=
  let dim_idx := zip (PyDict.keys index_dims) idx in
  coord_vals ← coord_vals_loop grib dname dim_idx (dv_coords dvar) ∅;
  let chunk_key := chunk_key_of dset dname dvar dim_idx idx in
  chunk_data ← chunk_data_of chunk_key (ref_store !! chunk_key);
  match chunk_data with
  | None => Ok (ChunkNotFound chunk_key)
  | Some chunk_data =>
      Indexed <$> make_record dname attributes coord_vals chunk_data
  end.

(** A loop body run over a list, stopping at the first exception. *)
Fixpoint for_each {A B} (body : A -> res B) (xs : list A)
  : res (list B) :=
  match xs with
  | [] => Ok []
  | x :: rest =>
      y ← body x;
      ys ← for_each body rest;
      Ok (y :: ys)
  end.

Definition index_data_var (dset : dataset) (ref_store : gmap string ref)
    (grib : bool) (attributes : gmap string (field scalar))
    (dname : string) (dvar : data_var) : res (list chunk_outcome) :=
  let zkey := build_path [ds_path dset; Some dname] (Some ".zarray") in
  text ← or_raise (ref_store !! zkey) (KeyError zkey);
  dchunk ← zarray_chunks text;
  index_dims ← index_dims_of dvar dchunk;
  for_each (index_chunk dset ref_store grib attributes dname dvar index_dims)
           (product (PyDict.values index_dims)).

(** The run of the function with the chunks it skipped kept in place. *)
Definition extract_outcomes (dset : dataset) (ref_store : gmap string ref)
    (grib : bool) : res (list chunk_outcome) :=
  let attributes := walk_attributes dset in
  @List.concat _ <$>
    for_each (fun '(dname, dvar) =>
                index_data_var dset ref_store grib attributes dname dvar)
             (ds_data_vars dset).

Definition records_of (outcomes : list chunk_outcome)
  : list (gmap string (field scalar)) :=
  omap (fun o => match o with
                 | Indexed r => Some r
                 | ChunkNotFound _ => None
                 end) outcomes.

Definition extract_dataset_chunk_index (dset : dataset)
    (ref_store : gmap string ref) (grib : bool)
  : res (list (gmap string (field scalar))) :=
  records_of <$> extract_outcomes dset ref_store grib.

End ChunkIndex.

Arguments Build_coord_var {scalar}.
Arguments cv_dims {scalar}.
Arguments cv_value {scalar}.
Arguments Build_data_var {scalar}.
Arguments dv_dims {scalar}.
Arguments dv_shape {scalar}.
Arguments dv_coords {scalar}.
Arguments Build_dataset {scalar}.
Arguments ds_attrs {scalar}.
Arguments ds_tree {scalar}.
Arguments ds_data_vars {scalar}.
Arguments ds_path {scalar}.
Arguments walk_attributes {scalar}.
Arguments index_dims_of {scalar}.
Arguments coord_vals_loop {scalar}.
Arguments byte_range_data {scalar}.
Arguments inline_data {scalar}.
Arguments chunk_data_of {scalar}.
Arguments kwargs_join {scalar}.
Arguments make_record {scalar}.
Arguments ChunkNotFound {scalar}.
Arguments Indexed {scalar}.
Arguments chunk_key_of {scalar}.
Arguments index_chunk {scalar}.
Arguments index_data_var {scalar}.
Arguments extract_outcomes {scalar}.
Arguments records_of {scalar}.
Arguments extract_dataset_chunk_index {scalar}.

(** The two forms of the chunk location of a record, with the manifest
    entry the record came from. *)
Definition byte_range_form {scalar} (ref_store : gmap string ref)
    (record : gmap string (field scalar)) : Prop :=
  ∃ chunk_key uri offset length,
    ref_store !! chunk_key = Some (RList [uri; offset; length])
    ∧ record !! "uri" = Some (field_of_atom uri)
    ∧ record !! "offset" = Some (field_of_atom offset)
    ∧ record !! "length" = Some (field_of_atom length)
    ∧ record !! "inline_value" = Some FNone.

Definition inline_form {scalar} (ref_store : gmap string ref)
    (record : gmap string (field scalar)) : Prop :=
  ∃ chunk_key inline,
    ((∃ s, ref_store !! chunk_key = Some (RStr s) ∧ inline = FStr s)
     ∨ (∃ b, ref_store !! chunk_key = Some (RBytes b) ∧ inline = FBytes b))
    ∧ record !! "inline_value" = Some inline
    ∧ record !! "offset" = Some (FInt (-1))
    ∧ record !! "length" = Some (FInt (-1)).

(** No keyword is given twice in the call that builds a record. *)
Definition keywords_distinct {scalar} (dname : string)
    (attributes coord_vals chunk_data : gmap string (field scalar)) : Prop :=
  attributes !! "varname" = None
  ∧ coord_vals !! "varname" = None
  ∧ chunk_data !! "varname" = None
  ∧ attributes ##ₘ coord_vals
  ∧ attributes ##ₘ chunk_data
  ∧ coord_vals ##ₘ chunk_data.

(** A dimension whose chunks neither hold one value nor span the extent. *)
Definition partial_chunking (dim : string * nat * Z) : Prop :=
  let '(_, ddim_size, dchunk_size) := dim in
  dchunk_size ≠ 1%Z ∧ dchunk_size ≠ Z.of_nat ddim_size.

(** ** [parse_grib_idx] *)

(** [int(text)] on decimal text: blanks around, a sign, digits with single
    underscores between them, and no more than 4300 digits (the default
    limit of the conversion).  The result is Python's unbounded integer.

    A text of the model is the UTF-8 encoding of the Python text.  As the
    interpreter does, the conversion first turns its code points into
    ASCII: a blank of Unicode becomes a space, a decimal digit of any
    script becomes the ASCII digit of its value, the other code points
    from 128 on become a question mark, and the code points below 128 stay
    as they are.  It then reads the ASCII text, around which it strips the
    code points 9 to 13 and 32.  The blanks and the digits are those of
    Unicode 14.0. *)
Module PyInt.

(** The six bits a continuation byte carries. *)
Definition continuation (c : ascii) : option N :=
  let n := N_of_ascii c in
  if ((128 <=? n) && (n <=? 191))%N then Some (n - 128)%N else None.

(** The code points of a text, [None] for bytes that are not UTF-8. *)
Fixpoint code_points (s : string) : option (list N) :=
  match s with
  | EmptyString => Some []
  | String c1 s1 =>
      let b1 := N_of_ascii c1 in
      if (b1 <? 128)%N then cons b1 <$> code_points s1
      else if ((194 <=? b1) && (b1 <=? 223))%N then
        match s1 with
        | String c2 s2 =>
            match continuation c2 with
            | Some b2 =>
                cons ((b1 - 192) * 64 + b2)%N <$> code_points s2
            | None => None
            end
        | EmptyString => None
        end
      else if ((224 <=? b1) && (b1 <=? 239))%N then
        match s1 with
        | String c2 (String c3 s3) =>
            match continuation c2, continuation c3 with
            | Some b2, Some b3 =>
                let cp := ((b1 - 224) * 4096 + b2 * 64 + b3)%N in
                if ((cp <? 2048) || (55296 <=? cp) && (cp <=? 57343))%N
                then None
                else cons cp <$> code_points s3
            | _, _ => None
            end
        | _ => None
        end
      else if ((240 <=? b1) && (b1 <=? 244))%N then
        match s1 with
        | String c2 (String c3 (String c4 s4)) =>
            match continuation c2, continuation c3, continuation c4 with
            | Some b2, Some b3, Some b4 =>
                let cp :=
                  ((b1 - 240) * 262144 + b2 * 4096 + b3 * 64 + b4)%N in
                if ((cp <? 65536) || (1114111 <? cp))%N then None
                else cons cp <$> code_points s4
            | _, _, _ => None
            end
        | _ => None
        end
      else None
  end.

(** The blanks from code point 128 on. *)
Definition unicode_space (cp : N) : bool :=
  ((cp =? 133) || (cp =? 160) || (cp =? 5760)
   || (8192 <=? cp) && (cp <=? 8202)
   || (cp =? 8232) || (cp =? 8233) || (cp =? 8239) || (cp =? 8287)
   || (cp =? 12288))%N.

(** The code points of the digit zero of the scripts that have decimal
    digits; the nine code points after each are its digits 1 to 9. *)
Definition decimal_zeros : list N :=
  [1632; 1776; 1984; 2406; 2534; 2662; 2790; 2918;
   3046; 3174; 3302; 3430; 3558; 3664; 3792; 3872;
   4160; 4240; 6112; 6160; 6470; 6608; 6784; 6800;
   6992; 7088; 7232; 7248; 42528; 43216; 43264; 43472;
   43504; 43600; 44016; 65296; 66720; 68912; 69734; 69872;
   69942; 70096; 70384; 70736; 70864; 71248; 71360; 71472;
   71904; 72016; 72784; 73040; 73120; 92768; 92864; 93008;
   120782; 120792; 120802; 120812; 120822; 123200; 123632; 125264;
   130032]%N.

Definition unicode_decimal (cp : N) : option N :=
  head (omap (fun zero =>
                if ((zero <=? cp) && (cp <=? zero + 9))%N
                then Some (cp - zero)%N
                else None)
             decimal_zeros).

(** What the conversion reads in place of a code point. *)
Definition to_ascii (cp : N) : ascii :=
  if (cp <? 128)%N then ascii_of_N cp
  else if unicode_space cp then " "%char
  else match unicode_decimal cp with
       | Some d => ascii_of_N (48 + d)
       | None => "?"%char
       end.

Definition is_space (c : ascii) : bool :=
  let n := nat_of_ascii c in
  ((9 <=? n) && (n <=? 13) || (n =? 32))%nat.

Definition digit_of (c : ascii) : option Z :=
  let n := nat_of_ascii c in
  if ((48 <=? n) && (n <=? 57))%nat then Some (Z.of_nat n - 48)%Z else None.

Fixpoint lstrip (s : string) : string :=
  match s with
  | String c s' => if is_space c then lstrip s' else s
  | EmptyString => EmptyString
  end.

Fixpoint rstrip (s : string) : string :=
  match s with
  | EmptyString => EmptyString
  | String c s' =>
      match rstrip s' with
      | EmptyString => if is_space c then EmptyString else String c EmptyString
      | r => String c r
      end
  end.

Fixpoint digits (s : string) (acc : Z) (after_digit : bool) : option Z :=
  match s with
  | EmptyString => if after_digit then Some acc else None
  | String c s' =>
      if decide (c = "_"%char)
      then if after_digit then digits s' acc false else None
      else match digit_of c with
           | Some d => digits s' (10 * acc + d)%Z true
           | None => None
           end
  end.

(** [sys.get_int_max_str_digits()] *)
Definition max_str_digits : nat := 4300.

(** The number of digits of a text: signs, blanks and underscores do not
    count. *)
Fixpoint digit_count (s : string) : nat :=
  match s with
  | EmptyString => 0
  | String c s' =>
      match digit_of c with
      | Some _ => S (digit_count s')
      | None => digit_count s'
      end
  end.

(** The ASCII text of decimal digits, signs, blanks and underscores. *)
Definition parse_ascii (text : string) : option Z :=
  if (max_str_digits <? digit_count text)%nat then None
  else
    match rstrip (lstrip text) with
    | String "+" s => digits s 0%Z false
    | String "-" s => Z.opp <$> digits s 0%Z false
    | s => digits s 0%Z false
    end.

Definition parse (text : string) : option Z :=
  cps ← code_points text;
  parse_ascii (string_of_list_ascii (map to_ascii cps)).

End PyInt.

(** The columns [idx], [offset] and [length] hold signed 64-bit integers. *)
Definition int64_min : Z := (- 2 ^ 63)%Z.
Definition int64_max : Z := (2 ^ 63 - 1)%Z.

Definition in_int64 (z : Z) : bool :=
  ((int64_min <=? z) && (z <=? int64_max))%Z.

(** The value a 64-bit operation keeps of the exact result. *)
Definition wrap64 (z : Z) : Z := ((z + 2 ^ 63) mod 2 ^ 64 - 2 ^ 63)%Z.

(** One row of the frame returned by [parse_grib_idx]. *)
Record idx_row : Type := {
  row_idx : Z;
  row_offset : Z;
  row_date : option string;
  row_attrs : option string;
  row_length : Z;
  row_idx_uri : string;
  row_grib_uri : string;
}.

(** [column.astype(int)]: [None] (a field the cell did not have) is a
    [TypeError], other text goes through [int], and an integer that does
    not fit the 64-bit column is an [OverflowError]. *)
Definition astype_int (cell : option string) : res Z :=
  match cell with
  | None => Raise (TypeError "int() argument")
  | Some text =>
      z ← or_raise (PyInt.parse text) (ValueError_int text);
      if in_int64 z then Ok z else Raise OverflowError
  end.

(** [Series.shift(periods=-1, fill_value=fill)] *)
Definition shift_back {A} (fill : A) (xs : list A) : list A :=
  match xs with
  | [] => []
  | _ :: rest => rest ++ [fill]
  end.

(** [Series.is_unique] *)
Definition is_unique {A} `{EqDecision A} (column : list A) : bool :=
  bool_decide (NoDup column).

(** [raw_data.str.split(":", expand=True, n=3)]: the fields of every cell
    and the number of columns of the expanded frame. *)
Definition split_fields (raw_data : list string) : list (list string) :=
  map (PyStr.splitn ":" 3) raw_data.

Definition expanded_columns (fields : list (list string)) : nat :=
  foldr (fun row width => Nat.max (List.length row) width) 0%nat fields.

(** The frame before [validate] is looked at.

    [raw_data] is the column [read_csv] returns, a column of text cells.
    How [read_csv] makes cells of the lines of the file (it skips blank
    lines and cuts a line at commas and quotes) is not modelled: a cell is
    a line of the file only where [read_csv] leaves the line whole.

    [size] is [fs.info(basename)["size"]], the size of the file as the file
    system gives it, taken to fit the 64-bit column it fills: the theorems
    on the lengths assume it.  The subtraction is the one of the 64-bit
    columns and wraps around. *)
Definition idx_frame (basename suffix : string) (size : Z)
    (raw_data : list string) : res (list idx_row) :=
  let fname := basename +:+ "." +:+ suffix in
  let fields := split_fields raw_data in
  if negb (expanded_columns fields =? 4)%nat then Raise ValueError_columns
  else
    offsets ← for_each (fun row => astype_int (row !! 1%nat)) fields;
    idxs ← for_each (fun row => astype_int (row !! 0%nat)) fields;
    let lengths :=
      zip_with (fun next offset => wrap64 (next - offset))
               (shift_back size offsets) offsets in
    Ok (zip_with (fun '(row, idx) '(offset, length) =>
                    {| row_idx := idx;
                       row_offset := offset;
                       row_date := row !! 2%nat;
                       row_attrs := row !! 3%nat;
                       row_length := length;
                       row_idx_uri := fname;
                       row_grib_uri := basename |})
                 (zip fields idxs) (zip offsets lengths)).

Definition parse_grib_idx (basename suffix : string) (size : Z)
    (raw_data : list string) (validate : bool) : res (list idx_row) :=
  result ← idx_frame basename suffix size raw_data;
  if validate && negb (is_unique (map row_attrs result))
  then Raise ValueError_not_unique
  else Ok result.

(** ** [build_idx_grib_mapping] *)

Section IdxMapping.

(** The type of the [level] and [valid_time] cells. *)
Context {scalar : Type} `{EqDecision scalar}.

(** One row of [grib_file_index], the frame of [_map_grib_file_by_group]:
    the columns the validation reads, all of them present in the frame.
    [None] is a missing cell (NaN, or [None] in [inline_value]).  Cells are
    compared as the integers they hold. *)
Record grib_row : Type := {
  g_idx : Z;
  g_varname : option string;
  g_typeOfLevel : option string;
  g_stepType : option string;
  g_level : option scalar;
  g_valid_time : option scalar;
  g_offset : option Z;
  g_length : option Z;
  g_inline_value : option string;
}.

(** A row of the left merge on [idx]: the idx row and the message row it
    met, if any. *)
Record joined_row : Type := {
  j_left : idx_row;
  j_right : option grib_row;
}.

(** [idx_file_index.merge(grib_file_index, on="idx", how="left", ...)] *)
Definition merge_left (idx_file_index : list idx_row)
    (grib_file_index : list grib_row) : list joined_row :=
  flat_map (fun l =>
              match filter (fun g => g_idx g = row_idx l) grib_file_index with
              | [] => [{| j_left := l; j_right := None |}]
              | matches =>
                  map (fun g => {| j_left := l; j_right := Some g |}) matches
              end)
           idx_file_index.

Definition offset_idx (j : joined_row) : Z := row_offset (j_left j).
Definition length_idx (j : joined_row) : Z := row_length (j_left j).
Definition offset_grib (j : joined_row) : option Z := j_right j ≫= g_offset.
Definition length_grib (j : joined_row) : option Z := j_right j ≫= g_length.
Definition inline_value (j : joined_row) : option string :=
  j_right j ≫= g_inline_value.
Definition varname (j : joined_row) : option string := j_right j ≫= g_varname.

(** [pd.isna] *)
Definition isna {A} (cell : option A) : bool :=
  match cell with
  | None => true
  | Some _ => false
  end.

Definition all_match_offset (j : joined_row) : bool :=
  bool_decide (offset_grib j = Some (offset_idx j))
  || isna (offset_grib j) || negb (isna (inline_value j)).

Definition all_match_length (j : joined_row) : bool :=
  bool_decide (length_grib j = Some (length_idx j))
  || isna (length_grib j) || negb (isna (inline_value j)).

(** [Series.value_counts()]: only the values that occur. *)
Definition value_counts (column : list bool) : gmap bool nat :=
  foldr (fun b vcs => <[b := S (default 0%nat (vcs !! b))]> vcs) ∅ column.

(** [vcs[True]] and [vcs[False]] *)
Definition vcs_item (vcs : gmap bool nat) (b : bool) : res nat :=
  or_raise (vcs !! b) (KeyError (if b then "True" else "False")).

(** The composite key of [r_index]. *)
Definition hierarchy_key (j : joined_row)
  : option string * option string * option string
    * option scalar * option scalar :=
  (varname j, j_right j ≫= g_typeOfLevel, j_right j ≫= g_stepType,
   j_right j ≫= g_level, j_right j ≫= g_valid_time).

(** [column.duplicated(keep=False)] *)
Definition duplicated {A} `{EqDecision A} (column : list A) : list bool :=
  map (fun x => bool_decide (1 < List.length (filter (fun y => y = x) column))%nat)
      column.

(** The rows [frame.loc[mask, :]] *)
Definition loc_rows {A} (mask : list bool) (rows : list A) : list A :=
  omap (fun '(keep, row) => if keep : bool then Some row else None)
       (zip mask rows).

Inductive warning : Type :=
  | AttrsNotUnique (count : nat) (varnames : list (option string))
  | HierarchyNotUnique (count : nat) (varnames : list (option string)).

(** The body of [if validate:], with the warnings it logs. *)
Definition validate_mapping (result : list joined_row) : res (list warning) :=
  let match_offset := map all_match_offset result in
  let match_length := map all_match_length result in
  if negb (forallb id match_offset)
  then
    let vcs := value_counts match_offset in
    matched ← vcs_item vcs true;
    mismatched ← vcs_item vcs false;
    Raise (ValueError_offset_mapping matched mismatched)
  else if negb (forallb id match_length)
  then
    let vcs := value_counts match_length in
    matched ← vcs_item vcs true;
    mismatched ← vcs_item vcs false;
    Raise (ValueError_length_mapping matched mismatched)
  else
    let attrs := map (fun j => row_attrs (j_left j)) result in
    let w1 :=
      if negb (is_unique attrs)
      then
        let dups := loc_rows (duplicated attrs) result in
        [AttrsNotUnique (List.length dups) (map varname dups)]
      else [] in
    let keys := map hierarchy_key result in
    let w2 :=
      if negb (is_unique keys)
      then
        let dups := loc_rows (duplicated keys) result in
        [HierarchyNotUnique (List.length dups) (map varname dups)]
      else [] in
    Ok (w1 ++ w2).

(** [grib_file_index] is the frame of [_map_grib_file_by_group(basename)];
    [size] and [raw_data] are what [parse_grib_idx] reads. *)
Definition build_idx_grib_mapping (basename suffix : string) (size : Z)
    (raw_data : list string) (grib_file_index : list grib_row)
    (validate : bool) : res (list joined_row * list warning) :=
  idx_file_index ← parse_grib_idx basename suffix size raw_data false;
  let result := merge_left idx_file_index grib_file_index in
  if validate
  then
    warnings ← validate_mapping result;
    Ok (result, warnings)
  else Ok (result, []).

End IdxMapping.

(** How often a value occurs in a column. *)
Definition occurrences (b : bool) (column : list bool) : nat :=
  List.length (filter (fun x => x = b) column).

(** ** Sample inputs

    Small instances of the collaborators and of the inputs, used to run the
    definitions above. *)

Module Samples.

(** A stand-in for [ujson.loads]: the attribute texts of the sample
    messages, by name. *)
Definition loads (text : ref) : res (gmap string jval) :=
  match text with
  | RStr s =>
      if decide (s = "group")
      then Ok {["coordinates" :=
                  JStr "isobaricInhPa latitude longitude step time valid_time"]}
      else if decide (s = "t")
      then Ok (<["GRIB_name" := JStr "Temperature"]>
                 (<["GRIB_stepType" := JStr "instant"]>
                    {["GRIB_typeOfLevel" := JStr "isobaricInhPa"]}))
      else if decide (s = "bare")
      then Ok {["coordinates" := JStr "t latitude longitude"]}
      else Raise JSONDecodeError
  | _ => Raise JSONDecodeError
  end.

(** A stand-in for the aggregation: one entry that counts the members. *)
Definition mzz (members : list fragment) (catdims idims : list string)
  : res (list (string * ref)) :=
  Ok [(".zgroup", RStr "zgroup");
      ("members", RList [AInt (Z.of_nat (List.length members))])].

(** A stand-in for zarr's attribute coding: a list of keys and values. *)
Definition zattrs_encode (attrs : gmap string jval) : ref :=
  RList (flat_map (fun '(k, v) =>
                     [AStr k; match v with JStr s => AStr s | JNull => AInt 0 end])
                  (map_to_list attrs)).

Fixpoint zattrs_pairs (l : list atom) : gmap string jval :=
  match l with
  | AStr k :: AStr s :: rest => <[k := JStr s]> (zattrs_pairs rest)
  | AStr k :: AInt _ :: rest => <[k := JNull]> (zattrs_pairs rest)
  | _ => ∅
  end.

Definition zattrs_decode (text : ref) : gmap string jval :=
  match text with
  | RList l => zattrs_pairs l
  | _ => ∅
  end.

(** A message of variable [vname] on the pressure level [level]. *)
Definition message (vname level : string) (offset : Z) : fragment :=
  {| version := 1;
     refs := [(".zgroup", RStr "zgroup");
              (".zattrs", RStr "group");
              (vname +:+ "/.zarray", RStr "zarray");
              (vname +:+ "/.zattrs", RStr "t");
              (vname +:+ "/0.0", RList [AStr "f.grib2"; AInt offset; AInt 100]);
              ("isobaricInhPa/.zattrs", RStr "coord");
              ("isobaricInhPa/0", RStr level);
              ("time/0", RStr "1970") ] |}.

(** A message every top-level name of which is a coordinate. *)
Definition bare_message : fragment :=
  {| version := 1;
     refs := [(".zgroup", RStr "zgroup");
              (".zattrs", RStr "bare");
              ("t/0.0", RStr "x");
              ("latitude/0", RStr "y")] |}.

Definition two_levels : list fragment :=
  [message "t" "500" 0; message "unknown" "700" 100; message "t" "850" 200].


(** The message loop on the sample collaborators. *)
Definition run_messages (message_groups : list fragment) : res tree_state :=
  grib_tree_messages loads (RBytes "zgroup") zattrs_encode zattrs_decode
    (initial_state (RBytes "zgroup")) 0 message_groups.

(** The state the loop reaches on [two_levels], without the zarr entries. *)
Definition two_level_state : tree_state :=
  {| zarr_store := ∅;
     aggregations :=
       [("t/instant/isobaricInhPa", [message "t" "500" 0; message "t" "850" 200])];
     aggregation_dims :=
       {["t/instant/isobaricInhPa" := {[RStr "500"; RStr "850"]}]};
     unknown_counter := 1 |}.

(** A stand-in for the decoding of [.zarray] texts: the chunk shapes of
    the sample stores, by text. *)
Definition chunks_of (text : ref) : res (list Z) :=
  match text with
  | RStr s =>
      if decide (s = "[1, 4]") then Ok [1; 4]%Z
      else if decide (s = "[2, 4]") then Ok [2; 4]%Z
      else if decide (s = "[1]") then Ok [1]%Z
      else Raise JSONDecodeError
  | _ => Raise JSONDecodeError
  end.

Definition time_coord : coord_var Z :=
  {| cv_dims := ["time"];
     cv_value := fun index =>
       match index with
       | [i] => Some (FScalar (3600 * Z.of_nat i)%Z)
       | _ => None
       end |}.

Definition level_coord : coord_var Z :=
  {| cv_dims := [];
     cv_value := fun index =>
       match index with
       | [] => Some (FScalar 500%Z)
       | _ => None
       end |}.

Definition longitude_coord : coord_var Z :=
  {| cv_dims := ["x"]; cv_value := fun _ => Some (FScalar 0%Z) |}.

(** A variable of two time steps over a row of four points. *)
Definition t_var : data_var Z :=
  {| dv_dims := ["time"; "x"];
     dv_shape := [2; 4]%nat;
     dv_coords := [("time", time_coord);
                   ("isobaricInhPa", level_coord);
                   ("longitude", longitude_coord)] |}.

(** The node [/t/instant/isobaricInhPa] of a tree; the node and the group
    of the variable both carry an attribute [name]. *)
Definition level_node : dataset Z :=
  {| ds_attrs := <["name" := FStr "level node"]>
                   {["typeOfLevel" := FStr "isobaricInhPa"]};
     ds_tree := Some ("/t/instant/isobaricInhPa",
                      [ {["stepType" := FStr "instant"]};
                        {["name" := FStr "Temperature"]};
                        ∅ ]);
     ds_data_vars := [("t", t_var)] |}.

(** A manifest with one chunk as a byte range and one inline. *)
Definition level_store : gmap string ref :=
  <["t/instant/isobaricInhPa/t/.zarray" := RStr "[1, 4]"]>
    (<["t/instant/isobaricInhPa/t/0.0" :=
         RList [AStr "f.grib2"; AInt 0; AInt 100]]>
       {["t/instant/isobaricInhPa/t/1.0" := RStr "inline text"]}).

(** The same manifest with its second chunk missing. *)
Definition sparse_store : gmap string ref :=
  delete "t/instant/isobaricInhPa/t/1.0" level_store.

(** The same manifest with a whole-file entry for its second chunk. *)
Definition whole_file_store : gmap string ref :=
  <["t/instant/isobaricInhPa/t/1.0" := RList [AStr "f.grib2"]]> level_store.

(** The same manifest with two time steps in every chunk. *)
Definition coarse_store : gmap string ref :=
  <["t/instant/isobaricInhPa/t/.zarray" := RStr "[2, 4]"]> level_store.

(** The same variable with three time steps, for the chunking [[2, 4]]. *)
Definition long_var : data_var Z :=
  {| dv_dims := ["time"; "x"];
     dv_shape := [3; 4]%nat;
     dv_coords := dv_coords t_var |}.

Definition long_node : dataset Z :=
  {| ds_attrs := ds_attrs level_node;
     ds_tree := ds_tree level_node;
     ds_data_vars := [("t", long_var)] |}.

(** The column read from a listing of three messages in a file of 450
    bytes. *)
Definition listing : list string :=
  ["0:0:d1:A"; "1:120:d2:B"; "2:300:d3:C"].

Definition repeated_listing : list string :=
  ["1:0:d=2020010100:TMP:500 mb:anl:";
   "2:120:d=2020010100:TMP:500 mb:anl:"].

(** The message rows of a file with one message, at offset 7. *)
Definition message_row (idx offset length : Z) : @grib_row Z :=
  {| g_idx := idx;
     g_varname := Some "t";
     g_typeOfLevel := Some "isobaricInhPa";
     g_stepType := Some "instant";
     g_level := Some 500%Z;
     g_valid_time := Some 0%Z;
     g_offset := Some offset;
     g_length := Some length;
     g_inline_value := None |}.

End Samples.

From Stdlib Require Import Sorted.

(** ** [_split_file]

    The file is the list of its bytes and the position of the reader is a
    number; the generator is run for a number of iterations of its loop and
    gives the parts it yielded with the way the run ended. *)

Module SplitFile.

(** [b"GRIB"] *)
Definition marker : list ascii := ["G"; "R"; "I"; "B"]%char.

(** [head.index(pat)]: the first position at which [pat] occurs, [None]
    when [pat not in head]. *)
Fixpoint index (pat head : list ascii) : option nat :=
  if bool_decide (take (List.length pat) head = pat) then Some 0%nat
  else match head with
       | [] => None
       | _ :: rest => S <$> index pat rest
       end.

(** [int.from_bytes(bs, "big")] *)
Definition from_bytes (bs : list ascii) : nat :=
  foldl (fun acc b => (256 * acc + nat_of_ascii b)%nat) 0%nat bs.

(** [xs[i:j]] for positions within or past the end. *)
Definition slice {A} (i j : nat) (xs : list A) : list A :=
  take (j - i) (drop i xs).

(** The number of bytes read to look for the marker: [f.read(1024)]. *)
Definition head_size : nat := 1024.

(** How a run of the generator ends: the loop test failed or [skip] parts
    were given; it was still running when the steps allowed ran out; or a
    seek went before the start of the file. *)
Inductive ending : Type :=
  | Exhausted
  | Running
  | SeekBeforeStart.

(** The [while] loop, for at most [steps] iterations, from position [pos]
    with [part] parts given so far. *)
Fixpoint split_loop (steps : nat) (data : list ascii) (skip part pos : nat)
  : list (nat * nat * list ascii) * ending :=
  match steps with
  | O => ([], Running)
  | S steps' =>
      let size := List.length data in
      if negb (pos <? size)%nat then ([], Exhausted)
      else
        let head := slice pos (pos + head_size) data in
        let tell := (pos + List.length head)%nat in
        match index marker head with
        | None =>
            if (tell <? 4)%nat then ([], SeekBeforeStart)
            else split_loop steps' data skip part (tell - 4)
        | Some ind =>
            let start := (tell - List.length head + ind)%nat in
            let part_size := from_bytes (slice (ind + 12) (ind + 16) head) in
            let message := slice start (start + part_size) data in
            let part' := S part in
            if negb (skip =? 0)%nat && (skip <=? part')%nat
            then ([(start, part_size, message)], Exhausted)
            else
              let '(parts, e) :=
                split_loop steps' data skip part' (start + List.length message) in
              ((start, part_size, message) :: parts, e)
        end
  end.

(** [_split_file(f, skip)] on a file just opened. *)
Definition _split_file (steps : nat) (data : list ascii) (skip : nat)
  : list (nat * nat * list ascii) * ending :=
  split_loop steps data skip 0 0.


(** A message as the generator expects it: the marker first, and its
    length in bytes 12 to 15. *)
Definition well_formed (m : list ascii) : Prop :=
  take 4 m = marker
  ∧ (16 ≤ List.length m)%nat
  ∧ from_bytes (slice 12 16 m) = List.length m.

(** The parts of a run of messages that starts at offset [off]. *)
Fixpoint parts_at (off : nat) (ms : list (list ascii))
  : list (nat * nat * list ascii) :=
  match ms with
  | [] => []
  | m :: rest => (off, List.length m, m) :: parts_at (off + List.length m) rest
  end.

End SplitFile.

(** ** [grib_tree]: the node of a message *)

(** Outcomes are compared: equality of exceptions and of results is
    decidable. *)
#[global] Instance exn_eq_dec : EqDecision exn.
Proof. solve_decision. Defined.

#[global] Instance res_eq_dec {A} `{EqDecision A} : EqDecision (res A).
Proof. solve_decision. Defined.

Section GribTreeNodes.

Variable ujson_loads : ref -> res (gmap string jval).

(** The filter attributes of the data variable [vname] of a message. *)
Definition message_filters (group : fragment) (vname : string)
  : res (list (string * string)) :=
  text ← or_raise (PyDict.get (vname +:+ "/.zattrs") (refs group))
                  (KeyError (vname +:+ "/.zattrs"));
  dattrs ← ujson_loads text;
  Ok (grib_filters dattrs).

(** The path of the group a data variable with these filter values is put
    in: [zgroup.path] after the loop over [gfilters]. *)
Definition node_path (vname : string) (gfilters : list (string * string))
  : string :=
  foldl (fun path '(_, value) =>
           if decide (value = EmptyString) then path else item_path path value)
        vname gfilters.

(** Where the loop of [grib_tree] puts a message, read off the message
    alone: [None] for a message it drops, the path of its node and its
    filter values otherwise.  The function raises where the loop does; the
    error of a message without a data variable names the number of the
    message in the loop, which is not known here, and 0 stands for it. *)
Definition message_node (group : fragment)
  : res (option (string * list (string * string))) :=
  coordinates ← message_coordinates ujson_loads group;
  match find_data_var (refs group) coordinates with
  | None => Raise (RuntimeError_no_data_var 0)
  | Some vname =>
      if decide (vname = "unknown") then Ok None
      else
        gfilters ← message_filters group vname;
        Ok (Some (node_path vname gfilters, gfilters))
  end.

(** The path alone. *)
Definition message_path (group : fragment) : res (option string) :=
  match message_node group with
  | Ok (Some (path, _)) => Ok (Some path)
  | Ok None => Ok None
  | Raise e => Raise e
  end.

(** The messages of a list that are put in the node at [path]. *)
Definition members_of (path : string) (message_groups : list fragment)
  : list fragment :=
  filter (fun group => message_path group = Ok (Some path)) message_groups.

(** The messages of a list that are dropped. *)
Definition dropped_of (message_groups : list fragment) : list fragment :=
  filter (fun group => message_path group = Ok None) message_groups.

End GribTreeNodes.

(** ** [parse_grib_idx]: the cells of a row *)

(** The cells of a row that are present. *)
Definition present_cells (row : idx_row) : list string :=
  option_list (row_date row) ++ option_list (row_attrs row).

(** Whether a text holds a character. *)
Fixpoint has_char (c : ascii) (s : string) : bool :=
  match s with
  | EmptyString => false
  | String c' s' => bool_decide (c' = c) || has_char c s'
  end.

(** The sum of a column of integers. *)
Definition column_sum (column : list Z) : Z := foldr Z.add 0%Z column.

(** ** [extract_dataset_chunk_index]: the index combinations *)

(** The keys of the chunk location of a record. *)
Definition location_keys : list string :=
  ["uri"; "offset"; "length"; "inline_value"].

(** The product of the extents of a list of dimensions. *)
Definition extent_product (sizes : list nat) : nat := foldr Nat.mul 1%nat sizes.

(** The chunk entries that were not found. *)
Definition not_found_of {scalar} (outcomes : list (chunk_outcome scalar))
  : list string :=
  omap (fun o => match o with
                 | ChunkNotFound chunk_key => Some chunk_key
                 | Indexed _ => None
                 end) outcomes.

Section ChunkCount.

Variable scalar : Type.
Variable zarray_chunks : ref -> res (list Z).

(** The number of index combinations of a data variable: the product of
    the extents of its index dimensions. *)
Definition index_combinations (dset : dataset scalar)
    (ref_store : gmap string ref) (dname : string) (dvar : data_var scalar)
  : res nat :=
  let zkey := build_path [ds_path dset; Some dname] (Some ".zarray") in
  text ← or_raise (ref_store !! zkey) (KeyError zkey);
  dchunk ← zarray_chunks text;
  index_dims ← index_dims_of dvar dchunk;
  Ok (extent_product (PyDict.values index_dims)).

End ChunkCount.

(** ** [extract_datatree_chunk_index], [_extract_single_group] and
    [_map_grib_file_by_group] *)

(** What [pd.concat] makes of the frames of the messages: it raises
    [ValueError] ("No objects to concatenate") on an empty list. *)
Inductive concatenated (row : Type) : Type :=
  | ValueError_no_objects
  | Frame (rows : list row).
Arguments ValueError_no_objects {row}.
Arguments Frame {row} rows.

Section MessageFrames.

Variable scalar : Type.
Variable ujson_loads : ref -> res (gmap string jval).
Variable MultiZarrToZarr :
  list fragment -> list string -> list string -> res (list (string * ref)).
Variable zgroup_meta : ref.
Variable zattrs_encode : gmap string jval -> ref.
Variable zattrs_decode : ref -> gmap string jval.
Variable bytes_decode : string -> option string.
Variable zarray_chunks : ref -> res (list Z).

(** A node of [dtree.subtree]. *)
Record tree_node : Type := {
  has_data : bool;
  node_dataset : dataset scalar;
}.

(** [datatree.open_datatree] on the reference file system of a manifest:
    the nodes of the tree in the order of [subtree]. *)
Variable open_datatree : manifest -> res (list tree_node).

(** [scan_grib(fname)] *)
Variable scan_grib : string -> res (list fragment).

(** The loop over [dtree.subtree]; the frame made of the records is the
    list of its rows. *)
Definition extract_datatree_chunk_index (dtree : list tree_node)
    (kerchunk_store : manifest) (grib : bool)
  : res (list (gmap string (field scalar))) :=
  @List.concat _ <$>
    for_each (fun node =>
                if has_data node
                then extract_dataset_chunk_index zarray_chunks
                       (node_dataset node) (m_refs kerchunk_store) grib
                else Ok [])
             dtree.

(** [None] is the message without a row.  [k_ind.empty] is the frame
    without rows (a record always has its variable name), and the
    assignment to the column [idx] sets the key in every row. *)
Definition _extract_single_group (grib_group : fragment) (idx : nat)
  : res (option (list (gmap string (field scalar)))) :=
  grib_tree_store ←
    grib_tree ujson_loads MultiZarrToZarr zgroup_meta zattrs_encode
      zattrs_decode bytes_decode [grib_group];
  if bool_decide (size (m_refs grib_tree_store) ≤ 1)%nat then Ok None
  else
    dt ← open_datatree grib_tree_store;
    k_ind ← extract_datatree_chunk_index dt grib_tree_store true;
    match k_ind with
    | [] => Ok None
    | _ =>
        if negb (List.length k_ind =? 1)%nat then Raise AssertionError
        else Ok (Some (map (fun r => <["idx" := FInt (Z.of_nat idx)]> r)
                           k_ind))
    end.

(** [mapper] is [None] or the function applied to every message.  The
    messages are numbered from one; the frames that are not [None] are
    concatenated, and the index column [idx] stays a key of the rows. *)
Definition _map_grib_file_by_group (fname : string)
    (mapper : option (fragment -> res fragment))
  : res (concatenated (gmap string (field scalar))) :=
  let mapper :=
    match mapper with
    | None => fun x => Ok x
    | Some f => f
    end in
  references ← scan_grib fname;
  items ← for_each (fun '(i, group) =>
                      mapped ← mapper group;
                      _extract_single_group mapped i)
                   (zip (seq 1 (List.length references)) references);
  match omap id items with
  | [] => Ok ValueError_no_objects
  | frames => Ok (Frame (List.concat frames))
  end.

End MessageFrames.

Arguments has_data {scalar}.
Arguments node_dataset {scalar}.
Arguments Build_tree_node {scalar}.

(** ** More sample inputs *)

Module MoreSamples.

(** A message of the marker, eight bytes, the length in four bytes and a
    payload. *)
Definition grib_bytes (payload : list ascii) : list ascii :=
  SplitFile.marker ++ replicate 8 zero
    ++ [zero; zero; zero; ascii_of_nat (16 + List.length payload)]
    ++ payload.

Definition two_messages : list (list ascii) :=
  [grib_bytes ["a"; "b"; "c"; "d"]%char; grib_bytes ["e"; "f"]%char].

(** A message of an older version of the references. *)
Definition old_message : fragment := {| version := 0; refs := [] |}.

(** A stand-in for the aggregation of the messages of a node: the entries
    of its first member. *)
Definition mzz_first (members : list fragment) (catdims idims : list string)
  : res (list (string * ref)) :=
  match members with
  | group :: _ => Ok (refs group)
  | [] => Raise (AggregationError "")
  end.

(** The whole array in one chunk, whatever the text. *)
Definition whole_chunks (text : ref) : res (list Z) := Ok [4; 4]%Z.

(** A variable over a grid of four rows of four points. *)
Definition grid_var : data_var Z :=
  {| dv_dims := ["y"; "x"]; dv_shape := [4; 4]%nat; dv_coords := [] |}.

(** A stand-in for [open_datatree]: the root without data and the node of
    the variable [t]. *)
Definition open_tree (store : manifest) : res (list (@tree_node Z)) :=
  Ok [ {| has_data := false;
          node_dataset := {| ds_attrs := ∅; ds_tree := Some ("/", []);
                             ds_data_vars := [] |} |};
       {| has_data := true;
          node_dataset :=
            {| ds_attrs := {["typeOfLevel" := FStr "isobaricInhPa"]};
               ds_tree := Some ("/t/instant/isobaricInhPa", [∅; ∅; ∅]);
               ds_data_vars := [("t", grid_var)] |} |} ].

(** A stand-in for [scan_grib]: a file of dropped messages and a file of
    three messages. *)
Definition scan (fname : string) : res (list fragment) :=
  if decide (fname = "unknown.grib2")
  then Ok [Samples.message "unknown" "500" 0; Samples.message "unknown" "700" 100]
  else Ok Samples.two_levels.

(** The frame of a file on the sample collaborators. *)
Definition map_file (fname : string)
  : res (concatenated (gmap string (field Z))) :=
  _map_grib_file_by_group Z Samples.loads mzz_first (RBytes "zgroup")
    Samples.zattrs_encode Samples.zattrs_decode (fun b => Some b)
    whole_chunks open_tree scan fname None.

(** The tree of a list of messages on the sample collaborators. *)
Definition tree (message_groups : list fragment) : res manifest :=
  grib_tree Samples.loads Samples.mzz (RBytes "zgroup") Samples.zattrs_encode
    Samples.zattrs_decode (fun b => Some b) message_groups.

(** A listing of two messages and the rows computed for them. *)
Definition two_lines : list string :=
  ["1:0:d=2020010100:TMP:500 mb:anl:"; "2:120:d=2020010100:TMP:850 mb:anl:"].

Definition two_rows : list (@grib_row Z) :=
  [Samples.message_row 1 0 120; Samples.message_row 2 120 330].

End MoreSamples.


(** * Properties *)

(** ** The exception monad and the loop combinator *)

(** An exception of the first computation is the exception of the whole. *)
Lemma raises_bind {A B} (m : res A) (f : A → res B) :
  raises m → raises (m ≫= f).
Proof. by destruct m. Qed.

(** A computation that does not raise has a value. *)
Lemma not_raises_Ok {A} (m : res A) : ¬ raises m → ∃ a, m = Ok a.
Proof. destruct m as [a|e]; [by exists a|]. intros H. by destruct H. Qed.


(** Mapping over a result neither adds nor removes an exception. *)
Lemma raises_fmap {A B} (m : res A) (f : A → B) :
  raises (f <$> m) ↔ raises m.
Proof. by destruct m. Qed.

(** A loop that ends normally ran its body normally on every element. *)
Lemma for_each_Forall2 {A B} (body : A → res B) xs ys :
  for_each body xs = Ok ys → Forall2 (fun x y => body x = Ok y) xs ys.
Proof.
  revert ys. induction xs as [|x xs IH]; intros ys; simpl.
  - intros [= <-]. constructor.
  - destruct (body x) as [y|] eqn:Hx; simpl; [|done].
    destruct (for_each body xs) as [ys'|]; simpl; [|done].
    intros [= <-]. constructor; [done|by apply IH].
Qed.

(** Every value of a loop that ends normally comes from an element. *)
Lemma for_each_elem {A B} (body : A → res B) xs ys y :
  for_each body xs = Ok ys → y ∈ ys → ∃ x, x ∈ xs ∧ body x = Ok y.
Proof.
  intros Hall%for_each_Forall2 Hy.
  apply list_elem_of_lookup in Hy as [i Hi].
  destruct (Forall2_lookup_r _ _ _ _ _ Hall Hi) as (x & Hx & Hbody).
  exists x. split; [|done]. apply list_elem_of_lookup. eauto.
Qed.

(** A loop over a list with an element that raises does raise. *)
Lemma for_each_raises {A B} (body : A → res B) xs x :
  x ∈ xs → raises (body x) → raises (for_each body xs).
Proof.
  induction xs as [|x' xs IH]; [by intros ?%elem_of_nil|].
  intros [->|Hin]%elem_of_cons Hx; simpl.
  - by apply raises_bind.
  - destruct (body x'); simpl; [|done].
    apply raises_bind. by apply IH.
Qed.


(** ** [build_path] *)

(** The comprehension keeps exactly the segments that are present. *)
Lemma present_segments_omap path : omap id path = present_segments path.
Proof.
  induction path as [|[s|] path IH]; [done| |]; cbn; rewrite IH; reflexivity.
Qed.

(** The suffix, when present, comes last. *)
Lemma not_none_vals_split path suffix :
  not_none_vals path suffix =
  present_segments path ++ match suffix with Some s => [s] | None => [] end.
Proof.
  unfold not_none_vals. rewrite omap_app, present_segments_omap.
  by destruct suffix.
Qed.

(** What [lstrip] returns does not begin with the stripped character. *)
Lemma lstrip_head c s rest : PyStr.lstrip c s ≠ String c rest.
Proof.
  induction s as [|c' s IH]; simpl; [done|].
  destruct (decide (c' = c)) as [->|Hne]; [done|].
  intros [= -> _]. done.
Qed.

(** [lstrip] removes a run of the stripped character and nothing else. *)
Lemma lstrip_prefix c s :
  ∃ n, s = PyStr.replicate_char n c +:+ PyStr.lstrip c s.
Proof.
  induction s as [|c' s [n IH]]; simpl.
  - by exists 0%nat.
  - destruct (decide (c' = c)) as [->|Hne].
    + exists (S n). rewrite IH at 1. reflexivity.
    + by exists 0%nat.
Qed.

(** C10.  [build_path] returns the segments that are present, followed by
    the suffix when it is present, joined with "/", and with every leading
    "/" of the joined text removed: the result is the claimed one, the
    joined text is the result behind a run of "/", the result never begins
    with "/", and a missing segment leaves nothing behind (no empty
    separator). *)
Theorem build_path_joins_present path suffix :
  build_path path suffix = build_path_claimed path suffix
  ∧ (∃ n, PyStr.join "/" (not_none_vals path suffix)
          = PyStr.replicate_char n "/" +:+ build_path path suffix)
  ∧ (∀ rest, build_path path suffix ≠ String "/" rest)
  ∧ (∀ after,
        build_path (path ++ None :: after) suffix
        = build_path (path ++ after) suffix)
  ∧ build_path [Some "a"; None; Some "b"] None = "a/b".
Proof.
  split; [|split; [|split; [|split]]].
  - unfold build_path, build_path_claimed. by rewrite not_none_vals_split.
  - apply lstrip_prefix.
  - intros rest. apply lstrip_head.
  - intros after. unfold build_path. do 2 f_equal.
    rewrite !not_none_vals_split. f_equal.
    unfold present_segments. by rewrite !flat_map_app.
  - reflexivity.
Qed.


(** ** [grib_tree]: the dimensions of a node *)

(** The dimension lists of a call are those of [node_dims] at its path. *)
Lemma mzz_calls_elem st call :
  call ∈ mzz_calls st →
  (mzz_concat_dims call, mzz_identical_dims call)
  = node_dims (aggregation_dims st) (mzz_path call).
Proof.
  unfold mzz_calls. rewrite list_elem_of_In, in_map_iff.
  intros (path & Hc & _). subst call.
  destruct (node_dims (aggregation_dims st) path) as [catdims idims] eqn:E.
  simpl. by rewrite E.
Qed.

(** C1, as amended.  For every node that [grib_tree] hands to the
    aggregation, the dimension lists depend only on the number of distinct
    level values collected for the path of the node: with none the defaults
    [time, step] and [longitude, latitude] are used unchanged; with exactly
    one the level group name (the last path segment) is appended to the
    identical dimensions and the concat dimensions stay the defaults; with
    two or more the name is put after the two default concat dimensions,
    at index 2 (index 3 is past the end of the list), and the identical
    dimensions stay the defaults. *)
Theorem node_dims_follow_level_count (st : tree_state) (call : mzz_call) :
  call ∈ mzz_calls st →
  let count := size (default ∅ (aggregation_dims st !! mzz_path call)) in
  let level_group_name := PyStr.last (PyStr.split "/" (mzz_path call)) in
  (count = 0%nat →
     mzz_concat_dims call = ["time"; "step"]
     ∧ mzz_identical_dims call = ["longitude"; "latitude"])
  ∧ (count = 1%nat →
     mzz_concat_dims call = ["time"; "step"]
     ∧ mzz_identical_dims call = ["longitude"; "latitude"; level_group_name])
  ∧ ((2 ≤ count)%nat →
     mzz_concat_dims call = ["time"; "step"; level_group_name]
     ∧ mzz_concat_dims call !! 2%nat = Some level_group_name
     ∧ mzz_concat_dims call !! 3%nat = None
     ∧ mzz_identical_dims call = ["longitude"; "latitude"]).
Proof.
  intros Hcall count level_group_name.
  apply mzz_calls_elem in Hcall. unfold node_dims in Hcall.
  fold count level_group_name in Hcall.
  split; [|split]; intros Hcount;
    repeat case_decide; try lia; injection Hcall as -> ->; done.
Qed.

(** The node of the sample messages on two pressure levels. *)
Lemma node_dims_witness :
  ∃ call, call ∈ mzz_calls Samples.two_level_state
          ∧ mzz_concat_dims call = ["time"; "step"; "isobaricInhPa"].
Proof.
  eexists. split.
  - apply list_elem_of_In. simpl. left. reflexivity.
  - match goal with
    | |- mzz_concat_dims ?c = _ =>
        destruct (node_dims_follow_level_count Samples.two_level_state c)
          as (_ & _ & Hmany)
    end.
    + apply list_elem_of_In. simpl. left. reflexivity.
    + destruct Hmany as (Hcat & _).
      * vm_compute. lia.
      * exact Hcat.
Defined.

(** C1, as stated, fails: on the sample messages the node has two distinct
    level values, and index 3 of its concat dimensions does not hold the
    level group name. *)
Lemma level_name_not_at_index_3 :
  ∃ st call,
    Samples.run_messages Samples.two_levels = Ok st
    ∧ call ∈ mzz_calls st
    ∧ (2 ≤ size (default ∅ (aggregation_dims st !! mzz_path call)))%nat
    ∧ mzz_concat_dims call !! 3%nat
      ≠ Some (PyStr.last (PyStr.split "/" (mzz_path call))).
Proof.
  assert ((fun st =>
             map (fun call =>
                    (size (default ∅ (aggregation_dims st !! mzz_path call)),
                     mzz_concat_dims call !! 3%nat,
                     PyStr.last (PyStr.split "/" (mzz_path call))))
                 (mzz_calls st))
          <$> Samples.run_messages Samples.two_levels
          = Ok [(2%nat, None, "isobaricInhPa")]) as Hseen
    by (vm_compute; reflexivity).
  destruct (Samples.run_messages Samples.two_levels) as [st|e]; [|done].
  simpl in Hseen. injection Hseen as Hseen.
  destruct (mzz_calls st) as [|call calls] eqn:Hcalls; [done|].
  injection Hseen as Hsize Hthird Hname _.
  exists st, call. split; [done|]. split; [rewrite Hcalls; left|].
  rewrite Hsize, Hthird, Hname. split; [lia|done].
Qed.


(** ** [grib_tree]: the data variable of a message *)

Section GribTreeFacts.

Variable ujson_loads : ref -> res (gmap string jval).
Variable MultiZarrToZarr :
  list fragment -> list string -> list string -> res (list (string * ref)).
Variable zgroup_meta : ref.
Variable zattrs_encode : gmap string jval -> ref.
Variable zattrs_decode : ref -> gmap string jval.
Variable bytes_decode : string -> option string.

Local Abbreviation step := (grib_tree_step ujson_loads zgroup_meta zattrs_encode zattrs_decode).
Local Abbreviation messages := (grib_tree_messages ujson_loads zgroup_meta zattrs_encode zattrs_decode).
Local Abbreviation place := (place_message ujson_loads zgroup_meta zattrs_encode zattrs_decode).
Local Abbreviation tree := (grib_tree ujson_loads MultiZarrToZarr zgroup_meta zattrs_encode zattrs_decode bytes_decode).

(** The name found is a top-level name that passes both tests. *)
Lemma find_data_var_sound items coordinates vname :
  find_data_var items coordinates = Some vname →
  (∃ key entry, ((key, entry) ∈ items)
                ∧ vname = PyStr.first (PyStr.split "/" key))
  ∧ (vname ∉ group_metadata) ∧ (vname ∉ coordinates).
Proof.
  induction items as [|[key entry] items IH]; simpl; [done|].
  destruct (bool_decide _ && bool_decide _) eqn:Htest.
  - intros [= <-]. apply andb_true_iff in Htest as [H1 H2].
    apply bool_decide_eq_true in H1, H2.
    split; [|done]. exists key, entry. split; [left|done].
  - intros H. destruct (IH H) as ((k & e & Hin & Hk) & ?).
    split; [|done]. exists k, e. split; [by right|done].
Qed.

(** No name is found exactly when every top-level name fails a test. *)
Lemma find_data_var_none items coordinates :
  find_data_var items coordinates = None ↔
  ∀ key entry, (key, entry) ∈ items →
    let name := PyStr.first (PyStr.split "/" key) in
    name ∈ group_metadata ∨ name ∈ coordinates.
Proof.
  induction items as [|[key entry] items IH]; simpl.
  - split; [|done]. intros _ k e Hin. inversion Hin.
  - destruct (bool_decide _ && bool_decide _) eqn:Htest.
    + split; [done|]. intros Hall.
      apply andb_true_iff in Htest as [H1 H2].
      apply bool_decide_eq_true in H1, H2.
      destruct (Hall key entry (list_elem_of_here _ _)) as [?|?]; done.
    + rewrite IH. split.
      * intros Hall k e Hin.
        apply elem_of_cons in Hin as [[= -> ->]|Hin]; [|by eapply Hall].
        apply andb_false_iff in Htest as [H1|H1];
          apply bool_decide_eq_false in H1.
        -- left. by destruct (decide (PyStr.first (PyStr.split "/" key) ∈ group_metadata)).
        -- right. by destruct (decide (PyStr.first (PyStr.split "/" key) ∈ coordinates)).
      * intros Hall k e Hin. apply (Hall k e). by right.
Qed.

(** Placing a message does not read the counter of dropped messages. *)
Lemma place_same_tree st1 st2 group coordinates vname :
  same_tree st1 st2 →
  same_run (place st1 group coordinates vname) (place st2 group coordinates vname).
Proof.
  intros (Hs & Ha & Hd). unfold place_message.
  rewrite Hs, Ha, Hd.
  destruct (or_raise _ _) as [text|]; simpl; [|done].
  destruct (ujson_loads text) as [dattrs|]; simpl; [|done].
  destruct (nest_groups _ _ _ _ _ _) as [store path]. simpl.
  done.
Qed.

(** Neither does a step, whatever the message number. *)
Lemma step_same_tree st1 st2 i j group :
  same_tree st1 st2 →
  same_run (step st1 i group) (step st2 j group).
Proof.
  intros Hsame. unfold grib_tree_step.
  destruct (message_coordinates _ _) as [coordinates|]; simpl; [|done].
  destruct (find_data_var _ _) as [vname|]; [|done].
  case_decide; [|by apply place_same_tree].
  simpl. destruct Hsame as (? & ? & ?). done.
Qed.

(** Nor does the loop. *)
Lemma messages_same_tree message_groups st1 st2 i j :
  same_tree st1 st2 →
  same_run (messages st1 i message_groups) (messages st2 j message_groups).
Proof.
  revert st1 st2 i j.
  induction message_groups as [|group rest IH]; intros st1 st2 i j Hsame; simpl.
  - done.
  - pose proof (step_same_tree st1 st2 i j group Hsame) as Hstep.
    destruct (step st1 i group), (step st2 j group); simpl in *; try done.
    by apply IH.
Qed.

(** The loop over a concatenation. *)
Lemma messages_app before after st i :
  messages st i (before ++ after)
  = messages st i before ≫= fun st' => messages st' (i + List.length before) after.
Proof.
  revert st i. induction before as [|g before IH]; intros st i; simpl.
  - by rewrite Nat.add_0_r.
  - destruct (step st i g) as [st'|]; simpl; [|done].
    rewrite IH. by rewrite Nat.add_succ_r.
Qed.

(** The aggregation calls do not depend on the counter. *)
Lemma mzz_calls_same_tree st1 st2 :
  same_tree st1 st2 → mzz_calls st1 = mzz_calls st2.
Proof. intros (_ & Ha & Hd). unfold mzz_calls. by rewrite Ha, Hd. Qed.

(** Runs of the loop that agree give the same manifest. *)
Lemma tree_of_same_run l1 l2 :
  same_run (messages (initial_state zgroup_meta) 0 l1)
           (messages (initial_state zgroup_meta) 0 l2) →
  ∀ m, tree l1 = Ok m ↔ tree l2 = Ok m.
Proof.
  intros Hrun m. unfold grib_tree.
  destruct (messages _ 0 l1) as [st1|], (messages _ 0 l2) as [st2|];
    simpl in *; try done.
  rewrite (mzz_calls_same_tree st1 st2 Hrun).
  destruct Hrun as (-> & _ & _). done.
Qed.

(** C8.  For a message whose header is read, the data variable found by
    [grib_tree] is the top-level name of an entry, is neither [.zattrs] nor
    [.zgroup], and is not one of the coordinates of the message.  When
    every top-level name is metadata or a coordinate the step raises the
    error that reports the message number, and so does [grib_tree].  When
    the name is "unknown" the step only adds one to the counter of dropped
    messages, and [grib_tree] returns the manifest it returns without that
    message. *)
Theorem grib_tree_primary_variable (st : tree_state) (msg_ind : nat)
    (group : fragment) (coordinates : list string) :
  message_coordinates ujson_loads group = Ok coordinates →
  (∀ vname, find_data_var (refs group) coordinates = Some vname →
     (∃ key entry, ((key, entry) ∈ refs group)
                   ∧ vname = PyStr.first (PyStr.split "/" key))
     ∧ (vname ∉ [".zattrs"; ".zgroup"]) ∧ (vname ∉ coordinates))
  ∧ ((∀ key entry, (key, entry) ∈ refs group →
        let name := PyStr.first (PyStr.split "/" key) in
        name ∈ [".zattrs"; ".zgroup"] ∨ name ∈ coordinates) →
     step st msg_ind group = Raise (RuntimeError_no_data_var msg_ind)
     ∧ ∀ before after,
         msg_ind = List.length before →
         messages (initial_state zgroup_meta) 0 before = Ok st →
         raises (tree (before ++ group :: after)))
  ∧ (find_data_var (refs group) coordinates = Some "unknown" →
     step st msg_ind group
     = Ok {| zarr_store := zarr_store st;
             aggregations := aggregations st;
             aggregation_dims := aggregation_dims st;
             unknown_counter := unknown_counter st + 1 |}
     ∧ ∀ before after m,
         tree (before ++ group :: after) = Ok m ↔ tree (before ++ after) = Ok m).
Proof.
  intros Hcoords. split; [|split].
  - intros vname Hfind. by apply find_data_var_sound.
  - intros Hnone. apply find_data_var_none in Hnone.
    assert (step st msg_ind group = Raise (RuntimeError_no_data_var msg_ind))
      as Hstep.
    { unfold grib_tree_step. rewrite Hcoords. simpl. by rewrite Hnone. }
    split; [done|].
    intros before after -> Hbefore. unfold grib_tree.
    apply raises_bind. rewrite messages_app, Hbefore. simpl.
    by rewrite Hstep.
  - intros Hunknown.
    assert (∀ st' i, step st' i group = Ok (count_unknown st')) as Hstep.
    { intros st' i. unfold grib_tree_step. rewrite Hcoords. simpl.
      rewrite Hunknown. by case_decide. }
    split; [apply Hstep|].
    intros before after m. apply tree_of_same_run.
    rewrite !messages_app.
    destruct (messages _ 0 before) as [st'|]; simpl; [|done].
    rewrite Hstep. simpl. apply messages_same_tree. by repeat split.
Qed.

End GribTreeFacts.

(** The header of a sample message named "unknown" is read, and the
    message is dropped. *)
Lemma grib_tree_primary_variable_witness :
  ∃ coordinates,
    message_coordinates Samples.loads (Samples.message "unknown" "700" 100)
    = Ok coordinates
    ∧ (unknown_counter <$>
         Samples.run_messages [Samples.message "unknown" "700" 100]) = Ok 1%nat.
Proof.
  eexists. split; [vm_compute; reflexivity|].
  unfold Samples.run_messages. simpl.
  destruct (grib_tree_primary_variable Samples.loads Samples.mzz
              (RBytes "zgroup") Samples.zattrs_encode Samples.zattrs_decode
              (fun b => Some b) (initial_state (RBytes "zgroup")) 0
              (Samples.message "unknown" "700" 100)
              (PyStr.split " "
                 "isobaricInhPa latitude longitude step time valid_time"))
    as (_ & _ & Hunknown).
  - vm_compute. reflexivity.
  - destruct Hunknown as [-> _]; [vm_compute; reflexivity|].
    reflexivity.
Defined.


(** ** [extract_dataset_chunk_index] *)

Section ChunkIndexFacts.

Variable scalar : Type.
Variable zarray_chunks : ref -> res (list Z).

Local Abbreviation record := (gmap string (field scalar)).

(** Joining keyword arguments succeeds exactly on disjoint dictionaries. *)
Lemma kwargs_join_Ok (a b r : record) :
  kwargs_join a b = Ok r ↔ a ##ₘ b ∧ r = a ∪ b.
Proof.
  unfold kwargs_join. case_decide; split.
  - by intros [= <-].
  - by intros [_ ->].
  - done.
  - by intros [? _].
Qed.

(** A record is built exactly when no keyword is given twice, and is then
    the union of its four parts. *)
Lemma make_record_Ok dname (attributes coord_vals chunk_data r : record) :
  make_record dname attributes coord_vals chunk_data = Ok r ↔
  keywords_distinct dname attributes coord_vals chunk_data
  ∧ r = {["varname" := FStr dname]} ∪ attributes ∪ coord_vals ∪ chunk_data.
Proof.
  unfold make_record, keywords_distinct. split.
  - intros H.
    destruct (kwargs_join {["varname" := FStr dname]} attributes) as [r1|] eqn:H1;
      simpl in H; [|done].
    destruct (kwargs_join r1 coord_vals) as [r2|] eqn:H2; simpl in H; [|done].
    apply kwargs_join_Ok in H1 as [D1 ->], H2 as [D2 ->], H as [D3 ->].
    apply map_disjoint_union_l in D3 as [D3 D5].
    apply map_disjoint_union_l in D3 as [D3 D4].
    apply map_disjoint_union_l in D2 as [D2 D6].
    apply map_disjoint_singleton_l in D1, D2, D3.
    done.
  - intros ((D1 & D2 & D3 & D4 & D5 & D6) & ->).
    apply (map_disjoint_singleton_l_2 _ _ (FStr dname)) in D1, D2, D3.
    rewrite (proj2 (kwargs_join_Ok _ _ _) (conj D1 eq_refl)). simpl.
    assert (({["varname" := FStr dname]} : record) ∪ attributes ##ₘ coord_vals) as D7
      by by apply map_disjoint_union_l.
    rewrite (proj2 (kwargs_join_Ok _ _ _) (conj D7 eq_refl)). simpl.
    apply kwargs_join_Ok. split; [|done].
    apply map_disjoint_union_l. split; [|done].
    by apply map_disjoint_union_l.
Qed.

(** A record holds the fields of its chunk data. *)
Lemma make_record_chunk_data dname (attributes coord_vals chunk_data r : record) k v :
  make_record dname attributes coord_vals chunk_data = Ok r →
  chunk_data !! k = Some v → r !! k = Some v.
Proof.
  intros [(D1 & D2 & D3 & D4 & D5 & D6) ->]%make_record_Ok Hk.
  apply lookup_union_Some_raw. right. split; [|done].
  apply lookup_union_None. split; [apply lookup_union_None; split|].
  - destruct (decide (k = "varname")) as [->|Hne]; [congruence|].
    by apply lookup_singleton_ne.
  - by eapply map_disjoint_Some_r.
  - by eapply map_disjoint_Some_r.
Qed.

(** A record holds the walked attributes. *)
Lemma make_record_attributes dname (attributes coord_vals chunk_data r : record) k v :
  make_record dname attributes coord_vals chunk_data = Ok r →
  attributes !! k = Some v → r !! k = Some v.
Proof.
  intros [(D1 & D2 & D3 & D4 & D5 & D6) ->]%make_record_Ok Hk.
  apply lookup_union_Some_l, lookup_union_Some_l.
  apply lookup_union_Some_raw. right. split; [|done].
  destruct (decide (k = "varname")) as [->|Hne]; [congruence|].
  by apply lookup_singleton_ne.
Qed.

(** Every record of the result was built from the walked attributes and
    from the chunk data of an entry of the manifest. *)
Lemma extract_record_inv dset ref_store grib records (r : record) :
  extract_dataset_chunk_index zarray_chunks dset ref_store grib = Ok records →
  r ∈ records →
  ∃ dname coord_vals chunk_key chunk_data,
    chunk_data_of chunk_key (ref_store !! chunk_key) = Ok (Some chunk_data)
    ∧ make_record dname (walk_attributes dset) coord_vals chunk_data = Ok r.
Proof.
  unfold extract_dataset_chunk_index, extract_outcomes.
  destruct (for_each _ (ds_data_vars dset)) as [per_var|] eqn:Hvars;
    simpl; [|done].
  intros [= <-] Hr.
  unfold records_of in Hr. apply list_elem_of_omap in Hr as (o & Ho & Hrec).
  destruct o as [|r']; [done|]. injection Hrec as ->.
  apply list_elem_of_In, in_concat in Ho as (outcomes & Hin & Ho).
  apply list_elem_of_In in Hin, Ho.
  destruct (for_each_elem _ _ _ _ Hvars Hin) as ([dname dvar] & _ & Hvar).
  unfold index_data_var in Hvar.
  destruct (or_raise _ _) as [text|]; simpl in Hvar; [|done].
  destruct (zarray_chunks text) as [dchunk|]; simpl in Hvar; [|done].
  destruct (index_dims_of dvar dchunk) as [index_dims|]; simpl in Hvar; [|done].
  destruct (for_each_elem _ _ _ _ Hvar Ho) as (idx & _ & Hchunk).
  unfold index_chunk in Hchunk.
  destruct (coord_vals_loop _ _ _ _ _) as [coord_vals|]; simpl in Hchunk; [|done].
  set (chunk_key := chunk_key_of _ _ _ _ _) in Hchunk.
  destruct (chunk_data_of chunk_key _) as [[chunk_data|]|] eqn:Hdata;
    simpl in Hchunk; [|done|done].
  destruct (make_record _ _ _ _) as [r'|] eqn:Hmake; simpl in Hchunk; [|done].
  injection Hchunk as <-. eauto 10.
Qed.


(** The entries that give chunk data. *)
Lemma chunk_data_of_cases chunk_key (chunk_ref : option ref) (chunk_data : record) :
  chunk_data_of chunk_key chunk_ref = Ok (Some chunk_data) →
  (∃ uri offset length,
      chunk_ref = Some (RList [uri; offset; length])
      ∧ chunk_data = byte_range_data uri offset length)
  ∨ (∃ s, chunk_ref = Some (RStr s) ∧ chunk_data = inline_data (FStr s))
  ∨ (∃ b, chunk_ref = Some (RBytes b) ∧ chunk_data = inline_data (FBytes b)).
Proof.
  destruct chunk_ref as [[s|b|l]|]; simpl; [| | |done].
  - intros [= <-]. right. left. eauto.
  - intros [= <-]. right. right. eauto.
  - destruct l as [|uri [|offset [|length [|]]]]; try done.
    intros [= <-]. left. eauto.
Qed.

(** C3.  Every record of [extract_dataset_chunk_index] has exactly one of
    the two location forms: it came from a three-element entry and has
    [uri], [offset] and [length] from it with [inline_value] equal to
    [None], or it came from a text or bytes entry and has that entry as
    [inline_value] with [offset] and [length] equal to -1.  No record has
    [inline_value] set and [offset] different from -1. *)
Theorem record_has_one_location_form dset ref_store grib records (r : record) :
  extract_dataset_chunk_index zarray_chunks dset ref_store grib = Ok records →
  r ∈ records →
  (byte_range_form ref_store r ∨ inline_form ref_store r)
  ∧ ¬ (byte_range_form ref_store r ∧ inline_form ref_store r)
  ∧ (∀ inline, r !! "inline_value" = Some inline → inline ≠ FNone →
       r !! "offset" = Some (FInt (-1)) ∧ r !! "length" = Some (FInt (-1))).
Proof.
  intros Hrun Hr.
  destruct (extract_record_inv _ _ _ _ _ Hrun Hr)
    as (dname & coord_vals & chunk_key & chunk_data & Hdata & Hmake).
  pose proof (fun k v => make_record_chunk_data _ _ _ _ _ k v Hmake) as Hfield.
  apply chunk_data_of_cases in Hdata
    as [(uri & offset & length & Href & ->)|[(s & Href & ->)|(b & Href & ->)]].
  - assert (r !! "inline_value" = Some FNone) as Hnone by by apply Hfield.
    split; [|split].
    + left. exists chunk_key, uri, offset, length.
      repeat split; try done; by apply Hfield.
    + intros [_ (? & inline & Hfrom & Hinline & _)].
      rewrite Hnone in Hinline. injection Hinline as <-.
      by destruct Hfrom as [(? & _ & ?)|(? & _ & ?)].
    + intros inline Hinline. rewrite Hnone in Hinline. by injection Hinline as <-.
  - assert (r !! "inline_value" = Some (FStr s)) as Hinline by by apply Hfield.
    split; [|split].
    + right. exists chunk_key, (FStr s).
      repeat split; try done; [left; eauto|by apply Hfield..].
    + intros [(? & ? & ? & ? & _ & _ & _ & _ & Hnone) _]. congruence.
    + intros _ _ _. split; by apply Hfield.
  - assert (r !! "inline_value" = Some (FBytes b)) as Hinline by by apply Hfield.
    split; [|split].
    + right. exists chunk_key, (FBytes b).
      repeat split; try done; [right; eauto|by apply Hfield..].
    + intros [(? & ? & ? & ? & _ & _ & _ & _ & Hnone) _]. congruence.
    + intros _ _ _. split; by apply Hfield.
Qed.

(** Ancestors that do not set an attribute leave it as it is. *)
Lemma walk_keeps_absent (ancestors : list record) (attributes : record) k :
  (∀ a, a ∈ ancestors → a !! k = None) →
  foldl (fun attributes walk_group_attrs => walk_group_attrs ∪ attributes)
        attributes ancestors !! k = attributes !! k.
Proof.
  revert attributes. induction ancestors as [|a rest IH]; intros attributes Hnone;
    simpl; [done|].
  rewrite IH by (intros b Hb; apply Hnone; by right).
  apply lookup_union_r, Hnone. left.
Qed.

(** C2, as amended.  Every record of [extract_dataset_chunk_index] carries
    the attributes accumulated by the walk from the node of the variable up
    through its ancestors.  For an attribute set by several of these nodes
    the value of the ancestor farthest from the variable is the one kept;
    the value of the node itself is kept only when no ancestor sets the
    attribute. *)
Theorem record_attributes_farthest_wins dset ref_store grib records (r : record) :
  extract_dataset_chunk_index zarray_chunks dset ref_store grib = Ok records →
  r ∈ records →
  (∀ k v, walk_attributes dset !! k = Some v → r !! k = Some v)
  ∧ (∀ path ancestors k,
       ds_tree dset = Some (path, ancestors) →
       (∀ before a after v,
          ancestors = before ++ a :: after →
          a !! k = Some v →
          (∀ b, b ∈ after → b !! k = None) →
          walk_attributes dset !! k = Some v)
       ∧ ((∀ a, a ∈ ancestors → a !! k = None) →
          walk_attributes dset !! k = ds_attrs dset !! k))
  ∧ (ds_tree dset = None → walk_attributes dset = ds_attrs dset).
Proof.
  intros Hrun Hr.
  destruct (extract_record_inv _ _ _ _ _ Hrun Hr)
    as (dname & coord_vals & chunk_key & chunk_data & _ & Hmake).
  split; [|split].
  - intros k v. by apply (make_record_attributes _ _ _ _ _ k v Hmake).
  - intros path ancestors k Htree. unfold walk_attributes. rewrite Htree.
    split.
    + intros before a after v -> Ha Hafter.
      rewrite foldl_app. simpl. rewrite walk_keeps_absent by done.
      by apply lookup_union_Some_l.
    + apply walk_keeps_absent.
  - intros Htree. unfold walk_attributes. by rewrite Htree.
Qed.


(** The keys after an assignment. *)
Lemma dict_keys_set {V} k k' (v : V) d :
  k ∈ PyDict.keys (PyDict.set k' v d) ↔ k = k' ∨ k ∈ PyDict.keys d.
Proof.
  unfold PyDict.keys. induction d as [|[k0 v0] d IH]; simpl.
  - rewrite list_elem_of_singleton. split; [by left|]. intros [?|H]; [done|].
    by apply elem_of_nil in H.
  - case_decide as Hk; simpl; rewrite !elem_of_cons; [subst; tauto|].
    rewrite IH. tauto.
Qed.

(** Reading after an assignment. *)
Lemma dict_get_set {V} k k' (v : V) d :
  PyDict.get k (PyDict.set k' v d)
  = if decide (k' = k) then Some v else PyDict.get k d.
Proof.
  induction d as [|[k0 v0] d IH]; simpl.
  - done.
  - destruct (decide (k0 = k')) as [->|Hne]; simpl.
    + destruct (decide (k' = k)); done.
    + destruct (decide (k0 = k)) as [->|]; [|done].
      by destruct (decide (k' = k)); [congruence|].
Qed.

(** Without partial chunking the loop ends normally, and the index
    dimensions are those it started from and those of chunk size 1. *)
Lemma index_dims_loop_whole (zipped : list (string * nat * Z)) acc :
  (∀ dim, dim ∈ zipped → ¬ partial_chunking dim) →
  ∃ index_dims,
    index_dims_loop zipped acc = Ok index_dims
    ∧ (∀ name, name ∈ PyDict.keys index_dims ↔
         name ∈ PyDict.keys acc ∨ ∃ size, (name, size, 1%Z) ∈ zipped)
    ∧ (∀ name size, PyDict.get name index_dims = Some size →
         PyDict.get name acc = Some size ∨ (name, size, 1%Z) ∈ zipped).
Proof.
  revert acc. induction zipped as [|[[name size] chunk] rest IH]; intros acc Hok.
  - exists acc. split; [done|]. split.
    + intros name. split; [by left|]. intros [?|[? H]]; [done|].
      by apply elem_of_nil in H.
    + intros; by left.
  - simpl. assert (∀ dim, dim ∈ rest → ¬ partial_chunking dim) as Hrest
      by (intros dim Hdim; apply Hok; by right).
    destruct (decide (chunk = 1%Z)) as [->|Hne1].
    + destruct (IH (PyDict.set name size acc) Hrest) as (ix & -> & Hkeys & Hget).
      exists ix. split; [done|]. split.
      * intros n. rewrite Hkeys, dict_keys_set. split.
        -- intros [[->|?]|[sz Hsz]]; [right; exists size; left|by left|].
           right. exists sz. by right.
        -- intros [?|[sz [[= -> ->]|Hsz]%elem_of_cons]]; [by left; right| |].
           ++ left. by left.
           ++ right. by exists sz.
      * intros n sz Hn. destruct (Hget n sz Hn) as [Hacc|?]; [|by right; right].
        rewrite dict_get_set in Hacc. case_decide; [|by left].
        injection Hacc as ->. subst. right. left.
    + destruct (decide (chunk ≠ Z.of_nat size)) as [Hne|Heq].
      { exfalso. apply (Hok (name, size, chunk)); [left|done]. }
      destruct (IH acc Hrest) as (ix & -> & Hkeys & Hget).
      exists ix. split; [done|]. split.
      * intros n. rewrite Hkeys. split.
        -- intros [?|[sz Hsz]]; [by left|]. right. exists sz. by right.
        -- intros [?|[sz [[= -> -> <-]|Hsz]%elem_of_cons]]; [by left|done|].
           right. by exists sz.
      * intros n sz Hn. destruct (Hget n sz Hn) as [?|?]; [by left|by right; right].
Qed.

(** With partial chunking the loop raises, naming such a dimension. *)
Lemma index_dims_loop_partial (zipped : list (string * nat * Z)) acc :
  (∃ dim, dim ∈ zipped ∧ partial_chunking dim) →
  ∃ name size chunk,
    (name, size, chunk) ∈ zipped
    ∧ partial_chunking (name, size, chunk)
    ∧ index_dims_loop zipped acc = Raise (ValueError_chunk_dim name).
Proof.
  revert acc. induction zipped as [|[[name size] chunk] rest IH];
    intros acc (dim & Hin & Hbad).
  - by apply elem_of_nil in Hin.
  - simpl. destruct (decide (chunk = 1%Z)) as [->|Hne1];
      [|destruct (decide (chunk ≠ Z.of_nat size)) as [Hne|Heq]].
    + apply elem_of_cons in Hin as [->|Hin]; [by destruct Hbad|].
      destruct (IH (PyDict.set name size acc)) as (n & s & c & ? & ? & ?);
        [by exists dim|].
      exists n, s, c. split; [by right|done].
    + exists name, size, chunk. split; [left|done].
    + apply elem_of_cons in Hin as [->|Hin]; [by destruct Hbad|].
      destruct (IH acc) as (n & s & c & ? & ? & ?); [by exists dim|].
      exists n, s, c. split; [by right|done].
Qed.

(** C6.  A data variable with a dimension whose chunk size is neither 1
    nor the extent of the dimension makes [extract_dataset_chunk_index]
    raise; the error of the variable names such a dimension.  Otherwise
    the dimensions of chunk size 1 are the index dimensions, with their
    extents, and the other dimensions, whose chunk spans the extent, are
    left out without error. *)
Theorem chunk_sizes_unit_or_whole (dvar : data_var scalar) (dchunk : list Z) :
  let zipped := zip3 (dv_dims dvar) (dv_shape dvar) dchunk in
  ((∃ dim, dim ∈ zipped ∧ partial_chunking dim) →
     ∃ name size chunk,
       (name, size, chunk) ∈ zipped
       ∧ partial_chunking (name, size, chunk)
       ∧ index_dims_of dvar dchunk = Raise (ValueError_chunk_dim name)
       ∧ ∀ dset ref_store grib dname text,
           ref_store !! build_path [ds_path dset; Some dname] (Some ".zarray")
           = Some text →
           zarray_chunks text = Ok dchunk →
           ((dname, dvar) ∈ ds_data_vars dset →
            raises (extract_dataset_chunk_index zarray_chunks dset ref_store
                      grib))
           ∧ (∀ rest, ds_data_vars dset = (dname, dvar) :: rest →
              extract_dataset_chunk_index zarray_chunks dset ref_store grib
              = Raise (ValueError_chunk_dim name)))
  ∧ ((∀ dim, dim ∈ zipped → ¬ partial_chunking dim) →
     ∃ index_dims,
       index_dims_of dvar dchunk = Ok index_dims
       ∧ (∀ name, name ∈ PyDict.keys index_dims ↔
            ∃ size, (name, size, 1%Z) ∈ zipped)
       ∧ (∀ name size, PyDict.get name index_dims = Some size →
            (name, size, 1%Z) ∈ zipped)).
Proof.
  intros zipped. split.
  - intros Hbad.
    destruct (index_dims_loop_partial zipped [] Hbad)
      as (name & size & chunk & Hin & Hpartial & Hraise).
    exists name, size, chunk. do 3 (split; [done|]).
    intros dset ref_store grib dname text Hstore Hchunks.
    assert (index_data_var zarray_chunks dset ref_store grib
              (walk_attributes dset) dname dvar
            = Raise (ValueError_chunk_dim name)) as Hvar.
    { unfold index_data_var. rewrite Hstore. simpl. rewrite Hchunks. simpl.
      unfold index_dims_of. fold zipped. by rewrite Hraise. }
    split.
    + intros Hmember.
      unfold extract_dataset_chunk_index, extract_outcomes.
      apply raises_fmap, raises_fmap.
      apply (for_each_raises _ _ (dname, dvar)); [done|]. by rewrite Hvar.
    + intros rest Hfirst.
      unfold extract_dataset_chunk_index, extract_outcomes.
      rewrite Hfirst. simpl. by rewrite Hvar.
  - intros Hok.
    destruct (index_dims_loop_whole zipped [] Hok) as (ix & Hrun & Hkeys & Hget).
    exists ix. split; [done|]. split.
    + intros name. rewrite Hkeys. split; [|by right].
      intros [H|?]; [by apply elem_of_nil in H|done].
    + intros name size Hn. by destruct (Hget name size Hn).
Qed.


End ChunkIndexFacts.

(** The records of the sample node: a byte range and an inline value. *)
Lemma record_has_one_location_form_witness :
  ∃ records,
    extract_dataset_chunk_index Samples.chunks_of Samples.level_node
      Samples.level_store true = Ok records
    ∧ ∀ r, r ∈ records →
        byte_range_form Samples.level_store r
        ∨ inline_form Samples.level_store r.
Proof.
  destruct (extract_dataset_chunk_index Samples.chunks_of Samples.level_node
              Samples.level_store true) as [records|e] eqn:Hrun.
  - exists records. split; [reflexivity|]. intros r Hr.
    exact (proj1 (record_has_one_location_form Z Samples.chunks_of
                    Samples.level_node Samples.level_store true records r
                    Hrun Hr)).
  - exfalso.
    assert (¬ raises (extract_dataset_chunk_index Samples.chunks_of
                        Samples.level_node Samples.level_store true)) as Hok
      by (vm_compute; exact (fun x => x)).
    apply Hok. by rewrite Hrun.
Defined.

(** The records of the sample node carry the step type of its parent. *)
Lemma record_attributes_witness :
  ∃ records,
    extract_dataset_chunk_index Samples.chunks_of Samples.level_node
      Samples.level_store true = Ok records
    ∧ ∀ r, r ∈ records → r !! "stepType" = Some (FStr "instant").
Proof.
  destruct (extract_dataset_chunk_index Samples.chunks_of Samples.level_node
              Samples.level_store true) as [records|e] eqn:Hrun.
  - exists records. split; [reflexivity|]. intros r Hr.
    refine (proj1 (record_attributes_farthest_wins Z Samples.chunks_of
                     Samples.level_node Samples.level_store true records r
                     Hrun Hr)
              "stepType" (FStr "instant") _).
    vm_compute. reflexivity.
  - exfalso.
    assert (¬ raises (extract_dataset_chunk_index Samples.chunks_of
                        Samples.level_node Samples.level_store true)) as Hok
      by (vm_compute; exact (fun x => x)).
    apply Hok. by rewrite Hrun.
Defined.

(** Three time steps in chunks of two: the variable is refused. *)
Lemma chunk_sizes_unit_or_whole_witness :
  (∃ dim, dim ∈ zip3 (dv_dims Samples.long_var) (dv_shape Samples.long_var)
                     [2; 4]%Z
          ∧ partial_chunking dim)
  ∧ index_dims_of Samples.long_var [2; 4]%Z = Raise (ValueError_chunk_dim "time")
  ∧ extract_dataset_chunk_index Samples.chunks_of Samples.long_node
      Samples.coarse_store true = Raise (ValueError_chunk_dim "time").
Proof.
  assert (∃ dim, dim ∈ zip3 (dv_dims Samples.long_var)
                           (dv_shape Samples.long_var) [2; 4]%Z
                 ∧ partial_chunking dim) as Hbad.
  { exists ("time", 3%nat, 2%Z). split; [left|]. split; simpl; lia. }
  split; [exact Hbad|].
  destruct (proj1 (chunk_sizes_unit_or_whole Z Samples.chunks_of
                     Samples.long_var [2; 4]%Z) Hbad)
    as (name & size & chunk & Hin & Hpartial & Hraise & Hextract).
  assert (name = "time") as ->.
  { vm_compute in Hraise. by injection Hraise. }
  split; [exact Hraise|].
  destruct (Hextract Samples.long_node Samples.coarse_store true "t"
              (RStr "[2, 4]")) as [_ Hfirst].
  - vm_compute. reflexivity.
  - reflexivity.
  - by apply (Hfirst []).
Defined.


(** C2, as stated, fails: the sample node sets [name], so does an
    ancestor, and the records carry the value of the ancestor. *)
Lemma own_attribute_overridden :
  ∃ records r,
    extract_dataset_chunk_index Samples.chunks_of Samples.level_node
      Samples.level_store true = Ok records
    ∧ r ∈ records
    ∧ ds_attrs Samples.level_node !! "name" = Some (FStr "level node")
    ∧ r !! "name" = Some (FStr "Temperature").
Proof.
  assert ((fun records => (fun r : gmap string (field Z) => r !! "name")
                            <$> head records)
          <$> extract_dataset_chunk_index Samples.chunks_of Samples.level_node
                Samples.level_store true
          = Ok (Some (Some (FStr "Temperature")))) as Hname
    by (vm_compute; reflexivity).
  destruct (extract_dataset_chunk_index Samples.chunks_of Samples.level_node
              Samples.level_store true) as [[|r records]|e]; try done.
  injection Hname as Hname.
  exists (r :: records), r. split; [done|]. split; [left|].
  split; [vm_compute; reflexivity|done].
Qed.


(** ** [parse_grib_idx] *)

(** Shifting keeps the number of rows. *)
Lemma shift_back_length {A} (fill : A) xs :
  List.length (shift_back fill xs) = List.length xs.
Proof. destruct xs; simpl; [done|]. rewrite length_app. simpl. lia. Qed.

(** The shifted column holds the next value, or the fill value at the end. *)
Lemma shift_back_lookup {A} (fill : A) xs i x :
  xs !! i = Some x →
  shift_back fill xs !! i = Some (default fill (xs !! S i)).
Proof.
  destruct xs as [|x0 rest]; [done|]. simpl. intros Hi.
  destruct (rest !! i) as [y|] eqn:Hy; simpl.
  - by rewrite lookup_app_l_Some with (x := y).
  - apply lookup_ge_None in Hy. apply lookup_lt_Some in Hi. simpl in Hi.
    assert (i = List.length rest) as -> by lia.
    rewrite lookup_app_r by lia. by rewrite Nat.sub_diag.
Qed.

(** A value within the 64-bit range is kept as it is. *)
Lemma wrap64_in_range z : in_int64 z = true → wrap64 z = z.
Proof.
  unfold in_int64, wrap64, int64_min, int64_max.
  change (2 ^ 63)%Z with 9223372036854775808%Z.
  change (2 ^ 64)%Z with 18446744073709551616%Z.
  intros [?%Z.leb_le ?%Z.leb_le]%andb_true_iff.
  rewrite Z.mod_small; lia.
Qed.

(** The difference of two values that are not negative is within range. *)
Lemma in_int64_difference a b :
  in_int64 a = true → in_int64 b = true → (0 ≤ a)%Z → (0 ≤ b)%Z →
  in_int64 (b - a) = true.
Proof.
  unfold in_int64, int64_min, int64_max.
  change (2 ^ 63)%Z with 9223372036854775808%Z.
  intros [_ ?%Z.leb_le]%andb_true_iff [_ ?%Z.leb_le]%andb_true_iff ? ?.
  apply andb_true_iff. split; apply Z.leb_le; lia.
Qed.

(** What the conversion returns fits the column. *)
Lemma astype_int_in_range cell z : astype_int cell = Ok z → in_int64 z = true.
Proof.
  unfold astype_int. destruct cell as [text|]; [|done].
  destruct (PyInt.parse text) as [z'|]; simpl; [|done].
  destruct (in_int64 z') eqn:Hrange; [|done]. by intros [= <-].
Qed.

(** The rows of the frame, by position: as many as the cells, with offsets
    and indices that fit the columns, and the forward differences of the
    64-bit column. *)
Lemma idx_frame_rows basename suffix size raw_data rows :
  idx_frame basename suffix size raw_data = Ok rows →
  List.length rows = List.length raw_data
  ∧ ∀ i row, rows !! i = Some row →
      in_int64 (row_idx row) = true
      ∧ in_int64 (row_offset row) = true
      ∧ row_length row
        = wrap64 (default size (row_offset <$> rows !! S i) - row_offset row).
Proof.
  unfold idx_frame. case_match; [done|].
  destruct (for_each (λ row, astype_int (row !! 1%nat)) _) as [offsets|]
    eqn:Hoffsets; simpl; [|done].
  destruct (for_each (λ row, astype_int (row !! 0%nat)) _) as [idxs|] eqn:Hidxs;
    simpl; [|done].
  apply for_each_Forall2 in Hoffsets, Hidxs.
  pose proof (Forall2_length _ _ _ Hoffsets) as Hlo.
  pose proof (Forall2_length _ _ _ Hidxs) as Hli.
  unfold split_fields in *. rewrite length_map in Hlo, Hli.
  set (lengths := zip_with (λ next offset, wrap64 (next - offset))
                    (shift_back size offsets) offsets).
  assert (List.length lengths = List.length offsets) as Hlengths.
  { unfold lengths. rewrite length_zip_with, shift_back_length. lia. }
  intros [= <-].
  assert (∀ i row,
            zip_with
              (λ '(row, idx) '(offset, length),
                 {| row_idx := idx; row_offset := offset;
                    row_date := row !! 2%nat; row_attrs := row !! 3%nat;
                    row_length := length;
                    row_idx_uri := basename +:+ "." +:+ suffix;
                    row_grib_uri := basename |})
              (zip (map (PyStr.splitn ":" 3) raw_data) idxs)
              (zip offsets lengths) !! i = Some row →
            idxs !! i = Some (row_idx row)
            ∧ offsets !! i = Some (row_offset row)
            ∧ lengths !! i = Some (row_length row)) as Hrow.
  { intros i row Hi.
    apply lookup_zip_with_Some in Hi
      as ([fields idx] & [offset length] & -> & Hl & Hr).
    apply lookup_zip_Some in Hl as [_ Hidx].
    by apply lookup_zip_Some in Hr. }
  split.
  - rewrite length_zip_with, !length_zip, length_map. lia.
  - intros i row Hi. destruct (Hrow i row Hi) as (Hidx & Hoff & Hlen).
    split; [|split].
    + destruct (Forall2_lookup_r _ _ _ _ _ Hidxs Hidx) as (cell & _ & Hcell).
      by apply astype_int_in_range in Hcell.
    + destruct (Forall2_lookup_r _ _ _ _ _ Hoffsets Hoff) as (cell & _ & Hcell).
      by apply astype_int_in_range in Hcell.
    + unfold lengths in Hlen. rewrite lookup_zip_with in Hlen.
      rewrite (shift_back_lookup _ _ _ _ Hoff), Hoff in Hlen. simpl in Hlen.
      injection Hlen as <-. do 2 f_equal.
      destruct (zip_with _ _ _ !! S i) as [next|] eqn:Hnext; simpl.
      * destruct (Hrow (S i) next Hnext) as (_ & -> & _). done.
      * apply lookup_ge_None in Hnext.
        rewrite length_zip_with, !length_zip, length_map in Hnext.
        by rewrite (proj2 (lookup_ge_None offsets (S i))) by lia.
Qed.

(** C4, as amended.  For a file size that fits the 64-bit column,
    [parse_grib_idx] returns one row for every cell of the column it read,
    and the length of a row is the offset of the next row less its own
    offset, with the size of the file in place of the next offset for the
    last row, computed in the 64-bit column: it is the exact difference
    whenever that fits 64 bits, as it does when neither offset is negative,
    and the difference wrapped around otherwise.  For the cells [0:0:d1:A],
    [1:120:d2:B], [2:300:d3:C] and a file of 450 bytes the lengths are 120,
    180 and 150. *)
Theorem parse_grib_idx_forward_differences basename suffix size raw_data
    validate rows :
  in_int64 size = true →
  parse_grib_idx basename suffix size raw_data validate = Ok rows →
  List.length rows = List.length raw_data
  ∧ (∀ i row, rows !! i = Some row →
       let next := match rows !! S i with
                   | Some next => row_offset next
                   | None => size
                   end in
       row_length row = wrap64 (next - row_offset row)
       ∧ (in_int64 (next - row_offset row) = true →
          row_length row = (next - row_offset row)%Z)
       ∧ ((0 ≤ row_offset row)%Z → (0 ≤ next)%Z →
          row_length row = (next - row_offset row)%Z))
  ∧ (raw_data = ["0:0:d1:A"; "1:120:d2:B"; "2:300:d3:C"] → size = 450%Z →
     map row_offset rows = [0; 120; 300]%Z
     ∧ map row_length rows = [120; 180; 150]%Z).
Proof.
  unfold parse_grib_idx. intros Hsize Hparse.
  destruct (idx_frame basename suffix size raw_data) as [frame|] eqn:Hframe;
    simpl in Hparse; [|done].
  case_match; [done|]. injection Hparse as <-.
  destruct (idx_frame_rows _ _ _ _ _ Hframe) as [Hlen Hrows].
  split; [done|]. split.
  - intros i row Hi. destruct (Hrows i row Hi) as (_ & Hoffset & Hlength).
    assert (in_int64 (match frame !! S i with
                      | Some next => row_offset next
                      | None => size
                      end) = true) as Hnext.
    { destruct (frame !! S i) as [next|] eqn:Hn; [|done].
      by destruct (Hrows (S i) next Hn) as (_ & ? & _). }
    assert (default size (row_offset <$> frame !! S i)
            = match frame !! S i with
              | Some next => row_offset next
              | None => size
              end) as Heq by by destruct (frame !! S i).
    rewrite Heq in Hlength. cbv zeta. split; [done|]. split.
    + intros Hfits. by rewrite Hlength, wrap64_in_range.
    + intros Hrow Hnonneg. rewrite Hlength, wrap64_in_range; [done|].
      by apply in_int64_difference.
  - intros -> ->. vm_compute in Hframe. injection Hframe as <-. done.
Qed.

(** The column of three cells of a file of 450 bytes. *)
Lemma parse_grib_idx_forward_differences_witness :
  ∃ rows,
    parse_grib_idx "f.grib2" "idx" 450 Samples.listing false = Ok rows
    ∧ map row_length rows = [120; 180; 150]%Z.
Proof.
  eexists. split; [vm_compute; reflexivity|].
  refine (proj2 (proj2 (proj2 (parse_grib_idx_forward_differences
                                 "f.grib2" "idx" 450 Samples.listing false _
                                 _ _))
                   _ _)).
  - reflexivity.
  - vm_compute. reflexivity.
  - reflexivity.
  - reflexivity.
Defined.

(** C4, as stated, fails: with the offsets -1 and 2^63 - 1 the next offset
    less the own offset of the first row is 2^63, which the 64-bit column
    does not hold, and the length of the row is -2^63. *)
Lemma forward_difference_wraps :
  ∃ rows,
    parse_grib_idx "f.grib2" "idx" 0
      ["1:-1:d1:A"; "2:9223372036854775807:d2:B"] false = Ok rows
    ∧ map row_offset rows = [-1; 9223372036854775807]%Z
    ∧ map row_length rows
      = [-9223372036854775808; -9223372036854775807]%Z
    ∧ (9223372036854775807 - -1)%Z ≠ (-9223372036854775808)%Z.
Proof.
  eexists. split; [vm_compute; reflexivity|].
  split; [reflexivity|]. split; [reflexivity|]. discriminate.
Qed.

(** C9, as amended.  When [parse_grib_idx] returns a frame without
    [validate], it raises with [validate] exactly when the column of
    attribute descriptors of that frame repeats a value, the error is then
    the one for a mapping that is not unique, and otherwise it returns the
    same frame; when it raises without [validate] (the column does not
    parse), it raises the same error with [validate].  So it raises exactly
    when it raises without [validate] or [validate] is true and a
    descriptor is repeated. *)
Theorem parse_grib_idx_raises_iff basename suffix size raw_data :
  let parsed := parse_grib_idx basename suffix size raw_data in
  (∀ frame, parsed false = Ok frame →
     (raises (parsed true) ↔ ¬ NoDup (map row_attrs frame))
     ∧ (¬ NoDup (map row_attrs frame) → parsed true = Raise ValueError_not_unique)
     ∧ (NoDup (map row_attrs frame) → parsed true = Ok frame))
  ∧ (raises (parsed false) → parsed true = parsed false)
  ∧ (∀ validate,
       raises (parsed validate)
       ↔ raises (parsed false)
         ∨ (validate = true
            ∧ ∃ frame, parsed false = Ok frame
                       ∧ ¬ NoDup (map row_attrs frame))).
Proof.
  intros parsed. subst parsed. unfold parse_grib_idx.
  destruct (idx_frame basename suffix size raw_data) as [frame|e]; simpl.
  - assert (raises (if negb (is_unique (map row_attrs frame))
                    then Raise ValueError_not_unique else Ok frame)
            ↔ ¬ NoDup (map row_attrs frame)) as Hvalid.
    { unfold is_unique.
      destruct (decide (NoDup (map row_attrs frame))) as [Hu|Hd].
      - rewrite bool_decide_eq_true_2 by done. simpl. tauto.
      - rewrite bool_decide_eq_false_2 by done. simpl. tauto. }
    split; [|split].
    + intros ? [= <-]. split; [done|]. unfold is_unique. split.
      * intros Hd. by rewrite bool_decide_eq_false_2.
      * intros Hu. by rewrite bool_decide_eq_true_2.
    + done.
    + intros [|]; simpl.
      * rewrite Hvalid. split.
        -- intros Hd. right. split; [done|]. by exists frame.
        -- intros [[]|[_ (? & [= <-] & Hd)]]. done.
      * split; [done|]. by intros [[]|[? _]].
  - split; [done|]. split; [done|]. intros [|]; simpl; tauto.
Qed.

(** A column that repeats a descriptor is refused under [validate]. *)
Lemma parse_grib_idx_raises_iff_witness :
  ∃ frame,
    parse_grib_idx "f.grib2" "idx" 450 Samples.repeated_listing false
    = Ok frame
    ∧ parse_grib_idx "f.grib2" "idx" 450 Samples.repeated_listing true
      = Raise ValueError_not_unique.
Proof.
  eexists. split; [vm_compute; reflexivity|].
  refine (proj1 (proj2 (proj1 (parse_grib_idx_raises_iff
                                 "f.grib2" "idx" 450 Samples.repeated_listing)
                          _ _))
            _).
  - vm_compute. reflexivity.
  - simpl. intros Hnodup. apply NoDup_cons in Hnodup as [Hnotin _].
    apply Hnotin. left.
Defined.

(** C9, as stated, fails: a cell with three fields, and a cell whose
    offset is not a number, make [parse_grib_idx] raise without
    [validate]. *)
Lemma parse_grib_idx_raises_without_validate :
  parse_grib_idx "f.grib2" "idx" 450 ["1:0:d=2020010100"] false
  = Raise ValueError_columns
  ∧ parse_grib_idx "f.grib2" "idx" 450 ["1:x:d=2020010100:TMP"] false
    = Raise (ValueError_int "x").
Proof. split; vm_compute; reflexivity. Qed.

(** ** [build_idx_grib_mapping] *)

Section IdxMappingFacts.

Context {scalar : Type} `{EqDecision scalar}.

(** The counts hold a value exactly when it occurs. *)
Lemma value_counts_lookup column b :
  value_counts column !! b
  = if decide (occurrences b column = 0%nat) then None
    else Some (occurrences b column).
Proof.
  unfold occurrences. induction column as [|x column IH]; simpl; [done|].
  rewrite filter_cons. destruct (decide (x = b)) as [->|Hne].
  - rewrite lookup_insert_eq, IH. simpl.
    repeat case_decide; simpl; try lia; try done. f_equal. lia.
  - by rewrite lookup_insert_ne.
Qed.

(** All rows match exactly when no mismatch occurs. *)
Lemma forallb_id_occurrences column :
  forallb id column = true ↔ occurrences false column = 0%nat.
Proof.
  unfold occurrences. induction column as [|[] column IH]; [done|..].
  - by rewrite filter_cons_False.
  - rewrite filter_cons_True by done. simpl. split; [done|lia].
Qed.

(** An offset mismatch is reported with the counts as soon as one row
    matches. *)
Lemma validate_mapping_offsets (result : list (@joined_row scalar)) :
  let column := map all_match_offset result in
  occurrences false column ≠ 0%nat →
  validate_mapping result
  = if decide (occurrences true column = 0%nat) then Raise (KeyError "True")
    else Raise (ValueError_offset_mapping (occurrences true column)
                                          (occurrences false column)).
Proof.
  intros column Hmismatch. unfold validate_mapping. fold column.
  destruct (forallb id column) eqn:Hall.
  { by apply forallb_id_occurrences in Hall. }
  simpl. unfold vcs_item. rewrite !value_counts_lookup.
  case_decide; [done|]. simpl. by case_decide.
Qed.

(** The same for a length mismatch, once the offsets match. *)
Lemma validate_mapping_lengths (result : list (@joined_row scalar)) :
  let column := map all_match_length result in
  occurrences false (map all_match_offset result) = 0%nat →
  occurrences false column ≠ 0%nat →
  validate_mapping result
  = if decide (occurrences true column = 0%nat) then Raise (KeyError "True")
    else Raise (ValueError_length_mapping (occurrences true column)
                                          (occurrences false column)).
Proof.
  intros column Hoffsets Hmismatch. unfold validate_mapping. fold column.
  apply forallb_id_occurrences in Hoffsets. rewrite Hoffsets. simpl.
  destruct (forallb id column) eqn:Hall.
  { by apply forallb_id_occurrences in Hall. }
  simpl. unfold vcs_item. rewrite !value_counts_lookup.
  case_decide; [done|]. simpl. by case_decide.
Qed.

(** When offsets and lengths match the validation ends normally: repeated
    descriptors and repeated keys only add warnings. *)
Lemma validate_mapping_duplicates_warn (result : list (@joined_row scalar)) :
  occurrences false (map all_match_offset result) = 0%nat →
  occurrences false (map all_match_length result) = 0%nat →
  ∃ warnings, validate_mapping result = Ok warnings.
Proof.
  intros Hoffsets%forallb_id_occurrences Hlengths%forallb_id_occurrences.
  unfold validate_mapping. rewrite Hoffsets, Hlengths. simpl. eauto.
Qed.

End IdxMappingFacts.

(** C5.  On a file of one message whose computed offset (7) differs from
    the offset of the listing (0), no row matches: the count of matched
    rows is looked up in counts that have no entry for it, and the
    validation raises that lookup error in place of the error that reports
    the counts.  With a second message that matches, the error reports one
    matched and one mismatched row. *)
Theorem no_row_matching_raises_KeyError :
  let validated := build_idx_grib_mapping "f.grib2" "idx" 450 in
  validated ["1:0:d=2020010100:TMP:500 mb:anl:"]
            [Samples.message_row 1 7 450] true
  = Raise (KeyError "True")
  ∧ value_counts [false] !! true = None
  ∧ validated ["1:0:d=2020010100:TMP:500 mb:anl:";
               "2:120:d=2020010100:TMP:850 mb:anl:"]
              [Samples.message_row 1 7 120; Samples.message_row 2 120 330] true
    = Raise (ValueError_offset_mapping 1 1).
Proof.
  split; [|split].
  - vm_compute. reflexivity.
  - reflexivity.
  - vm_compute. reflexivity.
Qed.

(** ** [_split_file] *)

Section SplitFileFacts.

Import SplitFile.

Lemma index_Some pat head i :
  index pat head = Some i → take (List.length pat) (drop i head) = pat.
Proof.
  revert i. induction head as [|b head IH]; intros i; simpl.
  - case_bool_decide as Hpat; [|done]. intros [= <-]. by rewrite drop_0.
  - case_bool_decide as Hpat.
    + intros [= <-]. by rewrite drop_0.
    + destruct (index pat head) as [j|] eqn:Hj; [|done].
      intros [= <-]. simpl. by apply IH.
Qed.

Lemma index_None pat head i :
  index pat head = None → take (List.length pat) (drop i head) ≠ pat ∨ pat = [].
Proof.
  revert i. induction head as [|b head IH]; intros i; simpl.
  - case_bool_decide as Hpat; [done|]. intros _. left.
    by rewrite drop_nil.
  - case_bool_decide as Hpat; [done|].
    destruct (index pat head) as [j|] eqn:Hj; [done|]. intros _.
    destruct i as [|i]; [left; by rewrite drop_0|].
    simpl. by apply IH.
Qed.

Lemma index_here pat head : take (List.length pat) head = pat → index pat head = Some 0.
Proof. intros H. destruct head; simpl; by rewrite bool_decide_eq_true_2. Qed.

Lemma index_absent pat head :
  pat ≠ [] → (∀ i, take (List.length pat) (drop i head) ≠ pat) → index pat head = None.
Proof.
  intros Hpat. induction head as [|b head IH]; intros Hno; simpl.
  - rewrite bool_decide_eq_false_2; [done|]. apply (Hno 0).
  - rewrite bool_decide_eq_false_2 by apply (Hno 0).
    rewrite IH; [done|]. intros i. apply (Hno (S i)).
Qed.

Lemma slice_app_l {A} (pre xs post : list A) i j :
  (j ≤ List.length xs)%nat →
  slice (List.length pre + i) (List.length pre + j) (pre ++ xs ++ post)
  = slice i j xs.
Proof.
  intros Hj. unfold slice.
  rewrite drop_app, drop_ge, app_nil_l by lia.
  replace (List.length pre + i - List.length pre)%nat with i by lia.
  replace (List.length pre + j - (List.length pre + i))%nat with (j - i)%nat by lia.
  rewrite drop_app, take_app, length_drop.
  replace (j - i - (List.length xs - i))%nat with 0%nat by lia.
  by rewrite take_0, app_nil_r.
Qed.

Lemma slice_app_pre {A} (pre xs : list A) i j :
  slice (List.length pre + i) (List.length pre + j) (pre ++ xs) = slice i j xs.
Proof.
  unfold slice. rewrite drop_app, drop_ge, app_nil_l by lia.
  by replace (List.length pre + i - List.length pre)%nat with i by lia;
    replace (List.length pre + j - (List.length pre + i))%nat with (j - i)%nat by lia.
Qed.

Lemma slice_app_short {A} (xs post : list A) i j :
  (j ≤ List.length xs)%nat → slice i j (xs ++ post) = slice i j xs.
Proof. intros Hj. by apply (slice_app_l [] xs post i j). Qed.

Lemma slice_take {A} (xs : list A) i j n :
  (j ≤ n)%nat → slice i j (take n xs) = slice i j xs.
Proof.
  intros Hj. unfold slice. rewrite skipn_firstn_comm, take_take.
  f_equal. lia.
Qed.

Lemma slice_all {A} (xs : list A) : slice 0 (List.length xs) xs = xs.
Proof. unfold slice. rewrite drop_0, Nat.sub_0_r. apply firstn_all. Qed.

Lemma head_size_ge : (16 ≤ head_size)%nat.
Proof. unfold head_size. lia. Qed.

#[local] Opaque head_size.

Lemma split_loop_step_message steps pre m post skip part :
  well_formed m →
  split_loop (S steps) (pre ++ m ++ post) skip part (List.length pre)
  = if negb (skip =? 0)%nat && (skip <=? S part)%nat
    then ([(List.length pre, List.length m, m)], Exhausted)
    else
      let '(parts, e) :=
        split_loop steps (pre ++ m ++ post) skip (S part)
          (List.length pre + List.length m) in
      ((List.length pre, List.length m, m) :: parts, e).
Proof.
  intros (Hmarker & Hlen & Hsize). pose proof head_size_ge as Hhead.
  set (data := pre ++ m ++ post).
  assert (slice (List.length pre) (List.length pre + head_size) data
          = take head_size (m ++ post)) as Hwindow.
  { unfold data.
    replace (List.length pre) with (List.length pre + 0)%nat at 1 by lia.
    rewrite slice_app_pre. unfold slice. by rewrite drop_0, Nat.sub_0_r. }
  assert (index marker (take head_size (m ++ post)) = Some 0%nat) as Hindex.
  { apply index_here. rewrite take_take.
    replace (List.length marker `min` head_size)%nat with 4%nat
      by (change (List.length marker) with 4%nat; lia).
    by rewrite take_app_le by lia. }
  assert (slice 12 16 (take head_size (m ++ post)) = slice 12 16 m) as Hfield.
  { rewrite slice_take by lia. by apply slice_app_short. }
  assert (slice (List.length pre) (List.length pre + List.length m) data = m)
    as Hmessage.
  { unfold data.
    replace (List.length pre) with (List.length pre + 0)%nat at 1 by lia.
    rewrite slice_app_pre, slice_app_short by lia. apply slice_all. }
  assert ((List.length pre <? List.length data)%nat = true) as Hlt.
  { apply Nat.ltb_lt. unfold data. rewrite !length_app. lia. }
  cbn [split_loop]. rewrite Hlt. cbn [negb]. rewrite Hwindow, Hindex.
  cbn [Nat.add]. rewrite Hfield, Hsize.
  replace (List.length pre + List.length (take head_size (m ++ post))
           - List.length (take head_size (m ++ post)) + 0)%nat
    with (List.length pre) by lia.
  by rewrite Hmessage.
Qed.

Lemma parts_at_length off ms : List.length (parts_at off ms) = List.length ms.
Proof. revert off. induction ms as [|m ms IH]; intros off; simpl; [done|]. by rewrite IH. Qed.

(** The loop over a run of well-formed messages, without [skip]: their
    parts, then the loop from the end of the run. *)
Lemma split_loop_messages ms : 
  Forall well_formed ms →
  ∀ steps pre post part,
    split_loop (List.length ms + steps) (pre ++ concat ms ++ post) 0 part
      (List.length pre)
    = let '(parts, e) :=
        split_loop steps (pre ++ concat ms ++ post) 0
          (part + List.length ms) (List.length pre + List.length (concat ms)) in
      (parts_at (List.length pre) ms ++ parts, e).
Proof.
  induction 1 as [|m ms Hm Hms IH]; intros steps pre post part.
  - cbn [concat List.length Nat.add parts_at app]. rewrite !Nat.add_0_r.
    by destruct (split_loop _ _ _ _ _).
  - cbn [concat List.length Nat.add parts_at].
    rewrite <- (app_assoc m), (split_loop_step_message _ pre m _ 0 part Hm).
    cbn [Nat.eqb negb andb].
    rewrite (app_assoc pre m), <- length_app.
    rewrite (IH steps (pre ++ m) post (S part)).
    rewrite !length_app, !Nat.add_assoc, Nat.add_succ_r. cbn [Nat.add].
    replace (part + S (List.length ms))%nat with (S (part + List.length ms)) by lia.
    by destruct (split_loop _ _ _ _ _).
Qed.

(** X1.  On a file that is a run of messages, each beginning with the
    marker, at least 16 bytes long and holding its own length in bytes 12
    to 15, [_split_file] gives one part for every message, in the order of
    the file, with the offset of the message, its length and its bytes, and
    then ends. *)
Theorem split_file_gives_messages (ms : list (list ascii)) (steps : nat) :
  Forall well_formed ms →
  (List.length ms < steps)%nat →
  _split_file steps (concat ms) 0 = (parts_at 0 ms, Exhausted).
Proof.
  intros Hms Hsteps. unfold _split_file.
  replace steps with (List.length ms + S (steps - S (List.length ms)))%nat by lia.
  pose proof (split_loop_messages ms Hms (S (steps - S (List.length ms))) [] [] 0)
    as Hrun.
  rewrite app_nil_r in Hrun. cbn [app List.length Nat.add] in Hrun.
  rewrite Hrun. cbn [split_loop].
  rewrite Nat.ltb_irrefl. cbn [negb]. by rewrite app_nil_r.
Qed.

(** An occurrence of the marker in the bytes read is one in the file. *)
Lemma window_occurrence (data : list ascii) pos n j :
  take 4 (drop j (slice pos (pos + n) data)) = marker →
  slice (pos + j) (pos + j + 4) data = marker.
Proof.
  unfold slice.
  replace (pos + n - pos)%nat with n by lia.
  replace (pos + j + 4 - (pos + j))%nat with 4%nat by lia.
  rewrite skipn_firstn_comm, take_take, drop_drop. intros Hocc.
  assert (4 ≤ n - j)%nat as Hroom.
  { apply (f_equal List.length) in Hocc. rewrite length_take in Hocc.
    change (List.length marker) with 4%nat in Hocc. lia. }
  by replace (4 `min` (n - j))%nat with 4%nat in Hocc by lia.
Qed.

Lemma split_loop_parts steps data skip :
  ∀ part pos parts e,
    split_loop steps data skip part pos = (parts, e) →
    ∀ start part_size message,
      (start, part_size, message) ∈ parts →
      slice start (start + 4) data = marker
      ∧ message = slice start (start + part_size) data.
Proof.
  induction steps as [|steps IH]; intros part pos parts e; cbn [split_loop].
  - intros [= <- _] ??? Hin. by apply elem_of_nil in Hin.
  - destruct (negb _); [intros [= <- _] ??? Hin; by apply elem_of_nil in Hin|].
    set (head := slice pos (pos + head_size) data).
    destruct (index marker head) as [ind|] eqn:Hind.
    + apply index_Some, window_occurrence in Hind.
      replace (pos + List.length head - List.length head + ind)%nat
        with (pos + ind)%nat by lia.
      set (first_part := (_, _, _)).
      assert (∀ start part_size message,
                (start, part_size, message) = first_part →
                slice start (start + 4) data = marker
                ∧ message = slice start (start + part_size) data) as Hfirst.
      { by intros start part_size message [= -> -> ->]. }
      destruct (_ && _).
      * intros [= <- _] start part_size message Hin.
        apply list_elem_of_singleton in Hin. by apply Hfirst.
      * destruct (split_loop steps data skip (S part) _) as [rest e'] eqn:Hrest.
        intros [= <- _] start part_size message [Hin|Hin]%elem_of_cons;
          [by apply Hfirst|].
        by apply (IH _ _ _ _ Hrest).
    + destruct (_ <? 4)%nat;
        [intros [= <- _] ??? Hin; by apply elem_of_nil in Hin|].
      intros Hrun start part_size message Hin.
      by apply (IH _ _ _ _ Hrun).
Qed.

(** X2.  Every part given by [_split_file] begins where the file holds
    the marker, and its bytes are those of the file from its offset on, as
    many as its size says or fewer when the file ends before. *)
Theorem split_file_parts_are_marked steps data skip parts e :
  _split_file steps data skip = (parts, e) →
  ∀ start part_size message,
    (start, part_size, message) ∈ parts →
    slice start (start + 4) data = marker
    ∧ (start + 4 ≤ List.length data)%nat
    ∧ message = slice start (start + part_size) data
    ∧ (List.length message ≤ part_size)%nat.
Proof.
  intros Hrun start part_size message Hin.
  destruct (split_loop_parts _ _ _ _ _ _ _ Hrun _ _ _ Hin) as [Hmark ->].
  split; [done|]. split; [|split; [done|]].
  - apply (f_equal List.length) in Hmark. unfold slice in Hmark.
    rewrite length_take, length_drop in Hmark.
    change (List.length marker) with 4%nat in Hmark. lia.
  - unfold slice. rewrite length_take. lia.
Qed.

(** With [skip], the run gives the parts of the run without it, up to the
    number asked for. *)
Lemma split_loop_skip steps data k :
  ∀ part pos,
    (part ≤ k)%nat →
    fst (split_loop steps data (S k) part pos)
    = take (S k - part) (fst (split_loop steps data 0 part pos)).
Proof.
  induction steps as [|steps IH]; intros part pos Hpart; cbn [split_loop].
  - cbn [fst]; by rewrite take_nil.
  - destruct (negb _); [cbn [fst]; by rewrite take_nil|].
    destruct (index marker _) as [ind|].
    + cbn [Nat.eqb negb andb].
      destruct (S k <=? S part)%nat eqn:Hstop.
      * apply Nat.leb_le in Hstop. assert (part = k) as -> by lia.
        destruct (split_loop steps data 0 _ _) as [rest e]. cbn [fst].
        by replace (S k - k)%nat with 1%nat by lia.
      * apply Nat.leb_gt in Hstop.
        match goal with
        | |- context [split_loop steps data (S k) (S part) ?p] =>
            specialize (IH (S part) p ltac:(lia))
        end.
        destruct (split_loop steps data (S k) _ _) as [rest e].
        destruct (split_loop steps data 0 _ _) as [rest0 e0].
        cbn [fst] in *. rewrite IH.
        by replace (S k - part)%nat with (S (S k - S part)) by lia.
    + destruct (_ <? 4)%nat; [cbn [fst]; by rewrite take_nil|]. by apply IH.
Qed.

(** X3.  With a positive [skip] the generator gives the first [skip]
    parts of the run without [skip], and never more. *)
Theorem split_file_skip steps data k :
  fst (_split_file steps data (S k)) = take (S k) (fst (_split_file steps data 0))
  ∧ (List.length (fst (_split_file steps data (S k))) ≤ S k)%nat.
Proof.
  unfold _split_file.
  rewrite (split_loop_skip steps data k 0 0) by lia.
  rewrite Nat.sub_0_r. split; [done|]. rewrite length_take. lia.
Qed.

(** Bytes without a marker after the position of the loop, down to the
    last four bytes of the file: the loop gives nothing and does not end. *)
Lemma split_loop_no_marker steps data skip part :
  (4 ≤ List.length data)%nat →
  ∀ pos,
    (pos < List.length data)%nat →
    (∀ i, (pos `min` (List.length data - 4) ≤ i)%nat →
          slice i (i + 4) data ≠ marker) →
    split_loop steps data skip part pos = ([], Running).
Proof.
  intros Hsize. induction steps as [|steps IH]; intros pos Hpos Hnone;
    cbn [split_loop]; [done|].
  replace (pos <? List.length data)%nat with true
    by (symmetry; by apply Nat.ltb_lt).
  cbn [negb]. set (head := slice pos (pos + head_size) data).
  assert (List.length head = (head_size `min` (List.length data - pos))%nat)
    as Hhead.
  { unfold head, slice. rewrite length_take, length_drop. lia. }
  pose proof head_size_ge as Hwide.
  rewrite index_absent; [|done|].
  - replace (pos + List.length head <? 4)%nat with false
      by (symmetry; apply Nat.ltb_ge; lia).
    apply IH; [lia|]. intros i Hi. apply Hnone. lia.
  - intros j Hocc. apply window_occurrence in Hocc.
    apply (Hnone (pos + j)%nat); [lia|done].
Qed.

(** X4.  When bytes without a marker follow the last message, the
    generator gives every message and then does not end: whatever the number
    of iterations allowed, the loop is still running, four bytes before the
    end of the file. *)
Theorem split_file_trailing_bytes (ms : list (list ascii)) (junk : list ascii)
    (steps : nat) :
  let data := concat ms ++ junk in
  Forall well_formed ms →
  junk ≠ [] →
  (4 ≤ List.length data)%nat →
  (∀ i, (List.length (concat ms) `min` (List.length data - 4) ≤ i)%nat →
        slice i (i + 4) data ≠ marker) →
  (List.length ms ≤ steps)%nat →
  _split_file steps data 0 = (parts_at 0 ms, Running).
Proof.
  intros data Hms Hjunk Hsize Hnone Hsteps. unfold _split_file, data.
  replace steps with (List.length ms + (steps - List.length ms))%nat by lia.
  pose proof (split_loop_messages ms Hms (steps - List.length ms) [] junk 0)
    as Hrun.
  cbn [app List.length Nat.add] in Hrun. rewrite Hrun.
  rewrite split_loop_no_marker; [by rewrite app_nil_r|done| |done].
  unfold data in Hsize. rewrite length_app in *.
  destruct junk; [done|]. simpl. lia.
Qed.

End SplitFileFacts.

(** ** [grib_tree]: nodes, members and level values *)

Lemma level_values_union gfilters items (seen : gset ref) :
  level_values gfilters items seen = level_values gfilters items ∅ ∪ seen.
Proof.
  unfold level_values. revert seen.
  induction items as [|[key entry] items IH]; intros seen; simpl.
  - by rewrite (left_id_L ∅ (∪)).
  - destruct (_ && _); [|apply IH].
    rewrite IH, (IH ({[entry]} ∪ ∅)).
    by rewrite (right_id_L ∅ (∪)), (assoc_L (∪)).
Qed.

Section GribTreeMore.

Variable ujson_loads : ref -> res (gmap string jval).
Variable MultiZarrToZarr :
  list fragment -> list string -> list string -> res (list (string * ref)).
Variable zgroup_meta : ref.
Variable zattrs_encode : gmap string jval -> ref.
Variable zattrs_decode : ref -> gmap string jval.
Variable bytes_decode : string -> option string.

Local Abbreviation step := (grib_tree_step ujson_loads zgroup_meta zattrs_encode zattrs_decode).
Local Abbreviation messages := (grib_tree_messages ujson_loads zgroup_meta zattrs_encode zattrs_decode).
Local Abbreviation place := (place_message ujson_loads zgroup_meta zattrs_encode zattrs_decode).
Local Abbreviation nest := (nest_groups zgroup_meta zattrs_encode zattrs_decode).
Local Abbreviation tree := (grib_tree ujson_loads MultiZarrToZarr zgroup_meta zattrs_encode zattrs_decode bytes_decode).
Local Abbreviation node := (message_node ujson_loads).

Lemma nest_groups_path vname gfilters store :
  snd (nest vname gfilters store) = node_path vname gfilters.
Proof.
  unfold nest_groups, node_path.
  revert vname store. induction gfilters as [|[key value] gfilters IH];
    intros vname store; simpl; [done|].
  case_decide; apply IH.
Qed.

(** What one step does to the state, read off the node of the message. *)
Lemma step_node st i group st' :
  step st i group = Ok st' →
  (node group = Ok None
   ∧ aggregations st' = aggregations st
   ∧ aggregation_dims st' = aggregation_dims st
   ∧ unknown_counter st' = (unknown_counter st + 1)%nat)
  ∨ (∃ path gfilters,
       node group = Ok (Some (path, gfilters))
       ∧ aggregations st' = PyDict.append_to path group (aggregations st)
       ∧ default ∅ (aggregation_dims st' !! path)
         = level_values gfilters (refs group)
             (default ∅ (aggregation_dims st !! path))
       ∧ (∀ path', path' ≠ path →
            aggregation_dims st' !! path' = aggregation_dims st !! path')
       ∧ unknown_counter st' = unknown_counter st).
Proof.
  unfold grib_tree_step, message_node.
  destruct (message_coordinates _ _) as [coordinates|]; simpl; [|done].
  destruct (find_data_var _ _) as [vname|]; [|done].
  case_decide as Hunknown.
  - intros [= <-]. left. done.
  - unfold place_message, message_filters.
    destruct (or_raise _ _) as [text|]; simpl; [|done].
    destruct (ujson_loads text) as [dattrs|]; simpl; [|done].
    pose proof (nest_groups_path vname (grib_filters dattrs)
                  (if bool_decide
                        (is_Some
                           (group_attrs zattrs_decode vname
                              (require_group zgroup_meta vname (zarr_store st))
                            !! "name"))
                   then require_group zgroup_meta vname (zarr_store st)
                   else set_group_attr zattrs_encode zattrs_decode vname "name"
                          (default JNull (dattrs !! "GRIB_name"))
                          (require_group zgroup_meta vname (zarr_store st))))
      as Hpath.
    destruct (nest_groups _ _ _ _ _ _) as [store path]. simpl in Hpath.
    subst path. intros [= <-]. right.
    exists (node_path vname (grib_filters dattrs)), (grib_filters dattrs).
    simpl. split; [done|]. split; [done|]. split; [|split; [|done]].
    + case_decide as Hempty.
      * rewrite Hempty. rewrite level_values_union in Hempty.
        by apply empty_union_L in Hempty as [_ ->].
      * by rewrite lookup_insert_eq.
    + intros path' Hne. case_decide; [done|]. by rewrite lookup_insert_ne.
Qed.



Lemma dict_get_append_to {V} path path' (x : V) d :
  default [] (PyDict.get path' (PyDict.append_to path x d))
  = default [] (PyDict.get path' d) ++ (if decide (path = path') then [x] else []).
Proof.
  unfold PyDict.append_to. rewrite dict_get_set.
  case_decide as Hp; [by subst|]. by rewrite app_nil_r.
Qed.

Lemma dict_keys_append_to {V} path (x : V) d :
  PyDict.keys (PyDict.append_to path x d)
  = if decide (path ∈ PyDict.keys d) then PyDict.keys d
    else PyDict.keys d ++ [path].
Proof.
  unfold PyDict.append_to. generalize (default [] (PyDict.get path d) ++ [x]).
  intros v. unfold PyDict.keys.
  induction d as [|[k0 v0] d IH]; simpl; [done|].
  destruct (decide (k0 = path)) as [->|Hne]; simpl.
  - rewrite decide_True by left. done.
  - rewrite IH. destruct (decide (path ∈ map fst d)) as [Hin|Hout].
    + rewrite decide_True by (by right). done.
    + rewrite decide_False; [done|]. intros [?|?]%elem_of_cons; congruence.
Qed.

(** The state after the loop, from the state before it and the nodes of
    the messages. *)
Lemma messages_nodes message_groups :
  ∀ st i st',
    messages st i message_groups = Ok st' →
    (∀ path,
       default [] (PyDict.get path (aggregations st'))
       = default [] (PyDict.get path (aggregations st))
         ++ members_of ujson_loads path message_groups)
    ∧ unknown_counter st'
      = (unknown_counter st
         + List.length (dropped_of ujson_loads message_groups))%nat
    ∧ Forall (fun group => ¬ raises (node group)) message_groups.
Proof.
  induction message_groups as [|group rest IH]; intros st i st'; simpl.
  - intros [= <-]. split; [|split].
    + intros path. by rewrite app_nil_r.
    + unfold dropped_of. simpl. lia.
    + constructor.
  - destruct (step st i group) as [st1|] eqn:Hstep; simpl; [|done].
    intros Hrest. destruct (IH _ _ _ Hrest) as (Hmembers & Hcount & Hok).
    unfold members_of, dropped_of, message_path in *.
    rewrite !filter_cons.
    destruct (step_node _ _ _ _ Hstep)
      as [(Hnode & Ha & _ & Hc)|(p & gf & Hnode & Ha & _ & _ & Hc)].
    + split; [|split].
      * intros path. rewrite Hmembers, Ha, filter_cons.
        case_decide as Hd; [|done]. by rewrite Hnode in Hd.
      * case_decide as Hd; [|destruct Hd; by rewrite Hnode].
        rewrite Hcount, Hc. cbn [List.length]. lia.
      * constructor; [rewrite Hnode; by intros []|done].
    + split; [|split].
      * intros path. rewrite Hmembers, Ha, dict_get_append_to, filter_cons.
        rewrite <- app_assoc. f_equal.
        case_decide as Hp; case_decide as Hd; rewrite Hnode in Hd;
          try done; congruence.
      * case_decide as Hd; [by rewrite Hnode in Hd|]. rewrite Hcount, Hc. lia.
      * constructor; [rewrite Hnode; by intros []|done].
Qed.

(** X5.  After the message loop of [grib_tree] the members of a node
    are the messages of the input that belong to its path, in the order of
    the input; the counter of dropped messages is the number of messages
    whose variable is named unknown; and every message is dropped or is a
    member of a node. *)
Theorem grib_tree_groups_in_order (message_groups : list fragment)
    (st : tree_state) :
  messages (initial_state zgroup_meta) 0 message_groups = Ok st →
  (∀ path,
     default [] (PyDict.get path (aggregations st))
     = members_of ujson_loads path message_groups)
  ∧ unknown_counter st = List.length (dropped_of ujson_loads message_groups)
  ∧ (∀ group, group ∈ message_groups →
       group ∈ dropped_of ujson_loads message_groups
       ∨ ∃ path, group ∈ members_of ujson_loads path message_groups).
Proof.
  intros Hrun. destruct (messages_nodes _ _ _ _ Hrun) as (Hmembers & Hcount & Hok).
  split; [|split].
  - intros path. by rewrite Hmembers.
  - by rewrite Hcount.
  - intros group Hin. rewrite Forall_forall in Hok. specialize (Hok group Hin).
    unfold dropped_of, members_of, message_path.
    destruct (node group) as [[[path gfilters]|]|e] eqn:Hnode.
    + right. exists path. apply list_elem_of_filter. by rewrite Hnode.
    + left. apply list_elem_of_filter. by rewrite Hnode.
    + by destruct Hok.
Qed.


Lemma elem_of_level_values gfilters items seen entry :
  entry ∈ level_values gfilters items seen
  ↔ entry ∈ seen
    ∨ ∃ key, (key, entry) ∈ items
        ∧ Some (PyStr.first (PyStr.split "/" key))
          = PyDict.get "typeOfLevel" gfilters
        ∧ PyStr.endswith "0" key = true.
Proof.
  unfold level_values. revert seen.
  induction items as [|[key e] items IH]; intros seen; simpl.
  - split; [by left|]. intros [?|(? & Hin & _)]; [done|].
    by apply elem_of_nil in Hin.
  - rewrite IH. clear IH.
    destruct (bool_decide _ && _) eqn:Hcond.
    + apply andb_true_iff in Hcond as [Hname Hend].
      apply bool_decide_eq_true in Hname.
      rewrite elem_of_union, elem_of_singleton. split.
      * intros [[->|?]|(k & Hin & ?)].
        -- right. exists key. split; [left|done].
        -- by left.
        -- right. exists k. split; [by right|done].
      * intros [?|(k & Hin & Hk)]; [by left; right|].
        apply elem_of_cons in Hin as [[= -> ->]|Hin]; [by left; left|].
        right. by exists k.
    + split.
      * intros [?|(k & Hin & ?)]; [by left|].
        right. exists k. split; [by right|done].
      * intros [?|(k & Hin & Hname & Hend)]; [by left|].
        apply elem_of_cons in Hin as [[= -> ->]|Hin].
        -- apply andb_false_iff in Hcond as [Hc|Hc].
           ++ apply bool_decide_eq_false in Hc. done.
           ++ congruence.
        -- right. by exists k.
Qed.

Lemma messages_level_values message_groups :
  ∀ st i st' path entry,
    messages st i message_groups = Ok st' →
    entry ∈ default ∅ (aggregation_dims st' !! path)
    ↔ entry ∈ default ∅ (aggregation_dims st !! path)
      ∨ ∃ group gfilters key,
          group ∈ message_groups
          ∧ node group = Ok (Some (path, gfilters))
          ∧ (key, entry) ∈ refs group
          ∧ Some (PyStr.first (PyStr.split "/" key))
            = PyDict.get "typeOfLevel" gfilters
          ∧ PyStr.endswith "0" key = true.
Proof.
  induction message_groups as [|group rest IH]; intros st i st' path entry;
    simpl.
  - intros [= <-]. split; [by left|].
    intros [?|(g & ? & ? & Hin & _)]; [done|]. by apply elem_of_nil in Hin.
  - destruct (step st i group) as [st1|] eqn:Hstep; simpl; [|done].
    intros Hrest. rewrite (IH _ _ _ path entry Hrest). clear IH Hrest.
    destruct (step_node _ _ _ _ Hstep)
      as [(Hnode & _ & Hd & _)|(p & gf & Hnode & _ & Hd & Hother & _)].
    + rewrite Hd. split.
      * intros [?|(g & gf & k & Hin & ?)]; [by left|].
        right. exists g, gf, k. split; [by right|done].
      * intros [?|(g & gf & k & Hin & Hg & ?)]; [by left|].
        apply elem_of_cons in Hin as [->|Hin]; [congruence|].
        right. by exists g, gf, k.
    + destruct (decide (p = path)) as [->|Hp].
      * rewrite Hd, elem_of_level_values. split.
        -- intros [[?|(k & ? & ?)]|(g & gf' & k & Hin & ?)]; [by left| |].
           ++ right. exists group, gf, k. split; [left|done].
           ++ right. exists g, gf', k. split; [by right|done].
        -- intros [?|(g & gf' & k & Hin & Hg & Hk)]; [by left; left|].
           apply elem_of_cons in Hin as [->|Hin].
           ++ left. right. exists k. rewrite Hnode in Hg.
              by injection Hg as <-.
           ++ right. by exists g, gf', k.
      * rewrite (Hother path); [|done]. split.
        -- intros [?|(g & gf' & k & Hin & ?)]; [by left|].
           right. exists g, gf', k. split; [by right|done].
        -- intros [?|(g & gf' & k & Hin & Hg & ?)]; [by left|].
           apply elem_of_cons in Hin as [->|Hin]; [congruence|].
           right. by exists g, gf', k.
Qed.

(** X6.  After the message loop of [grib_tree] an entry is a level
    value of a node exactly when a message of that node holds it under a key
    that begins with the type of level of the message and ends with 0. *)
Theorem grib_tree_level_values (message_groups : list fragment)
    (st : tree_state) :
  messages (initial_state zgroup_meta) 0 message_groups = Ok st →
  ∀ path entry,
    entry ∈ default ∅ (aggregation_dims st !! path)
    ↔ ∃ group gfilters key,
        group ∈ message_groups
        ∧ node group = Ok (Some (path, gfilters))
        ∧ (key, entry) ∈ refs group
        ∧ Some (PyStr.first (PyStr.split "/" key))
          = PyDict.get "typeOfLevel" gfilters
        ∧ PyStr.endswith "0" key = true.
Proof.
  intros Hrun path entry.
  rewrite (messages_level_values _ _ _ _ path entry Hrun).
  cbn [initial_state aggregation_dims]. rewrite lookup_empty. cbn [default].
  split; [intros [Hin|?]; [by apply elem_of_empty in Hin|done]|by right].
Qed.

(** Entries of the manifest are never bytes. *)
Lemma decode_ref_not_bytes val val' b :
  decode_ref bytes_decode val = Some val' → val' ≠ RBytes b.
Proof.
  destruct val as [s|b'|l]; simpl.
  - by intros [= <-].
  - destruct (bytes_decode b'); simpl; [|done]. by intros [= <-].
  - by intros [= <-].
Qed.

(** X7.  The manifest returned by [grib_tree] has version 1 and holds
    no bytes value. *)
Theorem grib_tree_manifest_is_text (message_groups : list fragment)
    (m : manifest) :
  tree message_groups = Ok m →
  m_version m = 1%Z
  ∧ ∀ key val, m_refs m !! key = Some val → ∀ b, val ≠ RBytes b.
Proof.
  unfold grib_tree.
  destruct (messages _ _ _) as [st|]; simpl; [|done].
  destruct (aggregate_nodes _ _ _) as [store|]; simpl; [|done].
  unfold decode_store. case_bool_decide; simpl; [|done].
  intros [= <-]. split; [done|]. cbn [m_refs].
  intros key val Hval b. rewrite lookup_omap in Hval.
  destruct (store !! key) as [v|]; simpl in Hval; [|done].
  by apply (decode_ref_not_bytes v).
Qed.


(** The store only grows. *)
Lemma require_group_keeps path (store : gmap string ref) key :
  is_Some (store !! key) →
  is_Some (require_group zgroup_meta path store !! key).
Proof.
  unfold require_group. intros Hkey.
  destruct (store !! item_path path ".zgroup"); [done|].
  destruct (decide (item_path path ".zgroup" = key)) as [->|Hne].
  - by rewrite lookup_insert_eq.
  - by rewrite lookup_insert_ne.
Qed.

Lemma require_group_has path (store : gmap string ref) :
  is_Some (require_group zgroup_meta path store !! item_path path ".zgroup").
Proof.
  unfold require_group.
  destruct (store !! item_path path ".zgroup") eqn:Hkey.
  - by rewrite Hkey.
  - by rewrite lookup_insert_eq.
Qed.

Lemma set_group_attr_keeps path name value (store : gmap string ref) key :
  is_Some (store !! key) →
  is_Some (set_group_attr zattrs_encode zattrs_decode path name value store
           !! key).
Proof.
  unfold set_group_attr. intros Hkey.
  destruct (decide (item_path path ".zattrs" = key)) as [->|Hne].
  - by rewrite lookup_insert_eq.
  - by rewrite lookup_insert_ne.
Qed.

Lemma set_group_attr_has path name value (store : gmap string ref) :
  is_Some (set_group_attr zattrs_encode zattrs_decode path name value store
           !! item_path path ".zattrs").
Proof. unfold set_group_attr. by rewrite lookup_insert_eq. Qed.

Lemma nest_groups_keeps gfilters :
  ∀ vname store key,
    is_Some (store !! key) →
    is_Some (fst (nest vname gfilters store) !! key).
Proof.
  unfold nest_groups.
  induction gfilters as [|[name value] gfilters IH]; intros vname store key;
    simpl; [done|].
  intros Hkey. case_decide; apply IH; [done|].
  by apply set_group_attr_keeps, require_group_keeps.
Qed.

Lemma nest_groups_has gfilters :
  ∀ vname store,
    is_Some (store !! item_path vname ".zgroup") →
    is_Some (fst (nest vname gfilters store)
             !! item_path (node_path vname gfilters) ".zgroup").
Proof.
  unfold nest_groups, node_path.
  induction gfilters as [|[name value] gfilters IH]; intros vname store;
    simpl; [done|].
  intros Hkey. case_decide; apply IH; [done|].
  apply set_group_attr_keeps, require_group_has.
Qed.

Lemma step_store st i group st' :
  step st i group = Ok st' →
  (∀ key, is_Some (zarr_store st !! key) → is_Some (zarr_store st' !! key))
  ∧ ∀ path gfilters,
      node group = Ok (Some (path, gfilters)) →
      is_Some (zarr_store st' !! item_path path ".zgroup")
      ∧ is_Some (zarr_store st' !! item_path path ".zattrs").
Proof.
  unfold grib_tree_step, message_node.
  destruct (message_coordinates _ _) as [coordinates|]; simpl; [|done].
  destruct (find_data_var _ _) as [vname|]; [|done].
  case_decide.
  - intros [= <-]. simpl. split; [done|]. by intros.
  - unfold place_message, message_filters.
    destruct (or_raise _ _) as [text|]; simpl; [|done].
    destruct (ujson_loads text) as [dattrs|]; simpl; [|done].
    set (store0 := if bool_decide _ then _ else _).
    assert (∀ key, is_Some (zarr_store st !! key) → is_Some (store0 !! key))
      as Hkeep0.
    { intros key Hkey. subst store0. case_bool_decide.
      - by apply require_group_keeps.
      - by apply set_group_attr_keeps, require_group_keeps. }
    assert (is_Some (store0 !! item_path vname ".zgroup")) as Hhas0.
    { subst store0. case_bool_decide.
      - apply require_group_has.
      - apply set_group_attr_keeps, require_group_has. }
    pose proof (nest_groups_path vname (grib_filters dattrs) store0) as Hpath.
    pose proof (nest_groups_keeps (grib_filters dattrs) vname store0) as Hkeep.
    pose proof (nest_groups_has (grib_filters dattrs) vname store0 Hhas0)
      as Hhas.
    destruct (nest_groups _ _ _ _ _ _) as [store path]. simpl in *.
    subst path. intros [= <-]. simpl. split.
    + intros key Hkey. by apply set_group_attr_keeps, Hkeep, Hkeep0.
    + intros path gfilters [= <- <-]. split.
      * by apply set_group_attr_keeps.
      * apply set_group_attr_has.
Qed.

Lemma messages_store message_groups :
  ∀ st i st',
    messages st i message_groups = Ok st' →
    (∀ key, is_Some (zarr_store st !! key) → is_Some (zarr_store st' !! key))
    ∧ ∀ group path gfilters,
        group ∈ message_groups →
        node group = Ok (Some (path, gfilters)) →
        is_Some (zarr_store st' !! item_path path ".zgroup")
        ∧ is_Some (zarr_store st' !! item_path path ".zattrs").
Proof.
  induction message_groups as [|group rest IH]; intros st i st'; simpl.
  - intros [= <-]. split; [done|]. intros ? ? ? Hin.
    by apply elem_of_nil in Hin.
  - destruct (step st i group) as [st1|] eqn:Hstep; simpl; [|done].
    intros Hrest. destruct (IH _ _ _ Hrest) as (Hkeep & Hnodes).
    destruct (step_store _ _ _ _ Hstep) as (Hkeep1 & Hnode1). split.
    + intros key Hkey. by apply Hkeep, Hkeep1.
    + intros g path gfilters Hin Hg.
      apply elem_of_cons in Hin as [->|Hin]; [|by eapply Hnodes].
      destruct (Hnode1 _ _ Hg). split; by apply Hkeep.
Qed.

Lemma store_group_refs_keeps path group_refs :
  ∀ (store : gmap string ref) key,
    is_Some (store !! key) →
    is_Some (store_group_refs path group_refs store !! key).
Proof.
  unfold store_group_refs.
  induction group_refs as [|[k v] group_refs IH]; intros store key; simpl;
    [done|].
  intros Hkey. apply IH. case_bool_decide; [done|].
  destruct (decide (path +:+ "/" +:+ k = key)) as [->|Hne].
  - by rewrite lookup_insert_eq.
  - by rewrite lookup_insert_ne.
Qed.

Lemma aggregate_nodes_keeps calls :
  ∀ (store store' : gmap string ref) key,
    aggregate_nodes MultiZarrToZarr calls store = Ok store' →
    is_Some (store !! key) → is_Some (store' !! key).
Proof.
  induction calls as [|call calls IH]; intros store store' key; simpl.
  - by intros [= <-].
  - destruct (MultiZarrToZarr _ _ _) as [group_refs|]; simpl; [|done].
    intros Hrest Hkey. eapply IH; [done|]. by apply store_group_refs_keeps.
Qed.

Lemma decode_store_keeps (store store' : gmap string ref) key :
  decode_store bytes_decode store = Ok store' →
  is_Some (store !! key) → is_Some (store' !! key).
Proof.
  unfold decode_store. case_bool_decide as Hall; [|done].
  intros [= <-] [val Hval]. rewrite lookup_omap, Hval. simpl.
  by apply (Hall key val).
Qed.

(** X8.  The manifest returned by [grib_tree] holds the group entry of
    the root and, for every message that was not dropped, the group and the
    attribute entries of the node of the message. *)
Theorem grib_tree_nodes_are_groups (message_groups : list fragment)
    (m : manifest) :
  tree message_groups = Ok m →
  is_Some (m_refs m !! ".zgroup")
  ∧ ∀ group, group ∈ message_groups →
      message_path ujson_loads group = Ok None
      ∨ ∃ path,
          message_path ujson_loads group = Ok (Some path)
          ∧ is_Some (m_refs m !! item_path path ".zgroup")
          ∧ is_Some (m_refs m !! item_path path ".zattrs").
Proof.
  unfold grib_tree.
  destruct (messages _ _ _) as [st|] eqn:Hrun; simpl; [|done].
  destruct (aggregate_nodes _ _ _) as [store|] eqn:Hagg; simpl; [|done].
  destruct (decode_store _ _) as [store'|] eqn:Hdec; simpl; [|done].
  intros [= <-]. cbn [m_refs].
  destruct (messages_store _ _ _ _ Hrun) as (Hkeep & Hnodes).
  destruct (messages_nodes _ _ _ _ Hrun) as (_ & _ & Hok).
  assert (∀ key, is_Some (zarr_store st !! key) → is_Some (store' !! key))
    as Hfinal.
  { intros key Hkey. eapply decode_store_keeps; [done|].
    by eapply aggregate_nodes_keeps. }
  split.
  - apply Hfinal, Hkeep. cbn [initial_state zarr_store]. unfold open_group.
    apply (require_group_has EmptyString).
  - intros group Hin. rewrite Forall_forall in Hok. specialize (Hok group Hin).
    unfold message_path.
    destruct (node group) as [[[path gfilters]|]|e] eqn:Hnode.
    + right. exists path. split; [done|].
      destruct (Hnodes _ _ _ Hin Hnode). split; by apply Hfinal.
    + by left.
    + by destruct Hok.
Qed.


(** Whether a step raises depends on the message alone. *)
Lemma step_raises st i group :
  raises (step st i group) ↔ raises (node group).
Proof.
  unfold grib_tree_step, message_node.
  destruct (message_coordinates _ _) as [coordinates|]; simpl; [|done].
  destruct (find_data_var _ _) as [vname|]; [|done].
  case_decide; [done|].
  unfold place_message, message_filters.
  destruct (or_raise _ _) as [text|]; simpl; [|done].
  destruct (ujson_loads text) as [dattrs|]; simpl; [|done].
  by destruct (nest_groups _ _ _ _ _ _).
Qed.

Lemma messages_raises message_groups :
  ∀ st i,
    raises (messages st i message_groups)
    ↔ Exists (fun group => raises (node group)) message_groups.
Proof.
  induction message_groups as [|group rest IH]; intros st i; simpl.
  - split; [done|]. by intros ?%Exists_nil.
  - rewrite Exists_cons, <- (step_raises st i group).
    destruct (step st i group) as [st1|]; simpl.
    + rewrite IH. split; [by right|]. by intros [[]|?].
    + split; [by left|done].
Qed.

Lemma messages_version_error before :
  ∀ st i group after,
    Forall (fun g => ¬ raises (node g)) before →
    version group ≠ 1%Z →
    messages st i (before ++ group :: after) = Raise AssertionError.
Proof.
  induction before as [|g before IH]; intros st i group after Hok Hversion;
    simpl.
  - unfold grib_tree_step, message_coordinates.
    destruct (version group =? 1)%Z eqn:Hv; [|done].
    by apply Z.eqb_eq in Hv.
  - apply Forall_cons in Hok as [Hg Hok].
    rewrite <- (step_raises st i g) in Hg.
    destruct (step st i g) as [st1|]; simpl; [|by destruct Hg].
    by apply IH.
Qed.

(** X9.  A message whose version is not 1 makes [grib_tree] raise, and
    the exception is the assertion error when the messages before it are
    processed normally. *)
Theorem grib_tree_version_check (message_groups : list fragment)
    (group : fragment) :
  group ∈ message_groups →
  version group ≠ 1%Z →
  raises (tree message_groups)
  ∧ ∀ before after,
      message_groups = before ++ group :: after →
      Forall (fun g => ¬ raises (node g)) before →
      tree message_groups = Raise AssertionError.
Proof.
  intros Hin Hversion. split.
  - unfold grib_tree. apply raises_bind.
    apply messages_raises, Exists_exists. exists group. split; [done|].
    unfold message_node, message_coordinates.
    destruct (version group =? 1)%Z eqn:Hv; [|done].
    by apply Z.eqb_eq in Hv.
  - intros before after -> Hok. unfold grib_tree.
    by rewrite messages_version_error.
Qed.

End GribTreeMore.

(** ** [parse_grib_idx] and [build_idx_grib_mapping]: rows and validation *)

Lemma splitn_not_nil sep n s : PyStr.splitn sep n s ≠ [].
Proof.
  revert n. induction s as [|c s IH]; intros [|n]; simpl; try done.
  case_decide; [done|]. by destruct (PyStr.splitn sep (S n) s).
Qed.

Lemma join_cons sep p q rest :
  PyStr.join sep (p :: q :: rest) = p +:+ sep +:+ PyStr.join sep (q :: rest).
Proof. reflexivity. Qed.

(** Joining the fields of a split gives the text back. *)
Lemma splitn_join sep n s :
  PyStr.join (String sep EmptyString) (PyStr.splitn sep n s) = s.
Proof.
  revert n. induction s as [|c s IH]; intros [|n]; try done.
  simpl PyStr.splitn. case_decide as Hc.
  - subst c. pose proof (splitn_not_nil sep n s) as Hne. specialize (IH n).
    destruct (PyStr.splitn sep n s) as [|q rest]; [done|].
    rewrite join_cons, IH. reflexivity.
  - pose proof (splitn_not_nil sep (S n) s) as Hne. specialize (IH (S n)).
    destruct (PyStr.splitn sep (S n) s) as [|q rest]; [done|].
    destruct rest as [|q' rest].
    + simpl in *. by rewrite IH.
    + rewrite join_cons in *. rewrite <- IH. reflexivity.
Qed.

(** A split with at most [n] cuts has at most [n + 1] fields, and only the
    last of [n + 1] fields may hold the separator. *)
Lemma splitn_fields sep n s :
  (List.length (PyStr.splitn sep n s) ≤ S n)%nat
  ∧ ∀ i field,
      PyStr.splitn sep n s !! i = Some field →
      (i < n)%nat → has_char sep field = false.
Proof.
  revert n. induction s as [|c s IH]; intros [|n]; simpl.
  - split; [lia|]. intros; lia.
  - split; [lia|]. intros [|i] field; [|done]. by intros [= <-].
  - split; [lia|]. intros; lia.
  - case_decide as Hc.
    + destruct (IH n) as [Hlen Hfields]. split; [simpl; lia|].
      intros [|i] field; simpl.
      * by intros [= <-].
      * intros Hi ?. apply (Hfields i); [done|lia].
    + destruct (IH (S n)) as [Hlen Hfields].
      pose proof (splitn_not_nil sep (S n) s) as Hne.
      destruct (PyStr.splitn sep (S n) s) as [|q rest]; [done|].
      split; [done|]. intros [|i] field; simpl.
      * intros [= <-] Hi. simpl. rewrite bool_decide_eq_false_2 by done.
        apply (Hfields 0%nat); [done|lia].
      * intros Hi ?. by apply (Hfields (S i)).
Qed.

Lemma for_each_lookup {A B} (body : A → res B) xs ys i x :
  for_each body xs = Ok ys → xs !! i = Some x →
  ∃ y, ys !! i = Some y ∧ body x = Ok y.
Proof.
  intros Hall%for_each_Forall2 Hx.
  destruct (Forall2_lookup_l _ _ _ _ _ Hall Hx) as (y & Hy & Hbody).
  by exists y.
Qed.

(** What the conversion of a cell returns. *)
Lemma astype_int_Ok cell z :
  astype_int cell = Ok z
  ↔ ∃ text, cell = Some text ∧ PyInt.parse text = Some z ∧ in_int64 z = true.
Proof.
  unfold astype_int. split.
  - destruct cell as [text|]; [|done].
    destruct (PyInt.parse text) as [z'|] eqn:Hparse; simpl; [|done].
    destruct (in_int64 z') eqn:Hrange; [|done]. intros [= <-]. by exists text.
  - intros (text & -> & -> & Hrange). simpl. by rewrite Hrange.
Qed.

(** The rows of the frame, by position, from the fields of their cell. *)
Lemma idx_frame_row_fields basename suffix size raw_data rows i cell row :
  idx_frame basename suffix size raw_data = Ok rows →
  raw_data !! i = Some cell → rows !! i = Some row →
  let fields := PyStr.splitn ":" 3 cell in
  astype_int (fields !! 0%nat) = Ok (row_idx row)
  ∧ astype_int (fields !! 1%nat) = Ok (row_offset row)
  ∧ row_date row = fields !! 2%nat
  ∧ row_attrs row = fields !! 3%nat
  ∧ row_idx_uri row = basename +:+ "." +:+ suffix
  ∧ row_grib_uri row = basename.
Proof.
  unfold idx_frame. case_match; [done|].
  destruct (for_each (λ row, astype_int (row !! 1%nat)) _) as [offsets|]
    eqn:Hoffsets; simpl; [|done].
  destruct (for_each (λ row, astype_int (row !! 0%nat)) _) as [idxs|] eqn:Hidxs;
    simpl; [|done].
  intros [= <-] Hcell Hrow.
  apply lookup_zip_with_Some in Hrow
    as ([fields idx] & [offset length] & -> & Hl & Hr).
  apply lookup_zip_Some in Hl as [Hfields Hidx].
  apply lookup_zip_Some in Hr as [Hoffset _].
  unfold split_fields in *. rewrite list_lookup_fmap, Hcell in Hfields.
  injection Hfields as <-.
  assert (map (PyStr.splitn ":" 3) raw_data !! i
          = Some (PyStr.splitn ":" 3 cell)) as Hf.
  { by rewrite list_lookup_fmap, Hcell. }
  destruct (for_each_lookup _ _ _ _ _ Hoffsets Hf) as (o & Ho & Hbo).
  destruct (for_each_lookup _ _ _ _ _ Hidxs Hf) as (x & Hx & Hbx).
  simpl. rewrite Hbo, Hbx. split; [congruence|]. split; [congruence|done].
Qed.

(** X10.  Every row of the frame of [parse_grib_idx] comes from the cell
    at its position in the column [read_csv] returned: the cell is the
    texts of the index and of the offset, the date and the descriptor
    joined with colons; the index and the offset are the integers these
    texts denote, and they fit 64 bits; the first three fields hold no
    colon, so the descriptor keeps the colons it has. *)
Theorem parse_grib_idx_cell_fields basename suffix size raw_data validate
    rows i cell row :
  parse_grib_idx basename suffix size raw_data validate = Ok rows →
  raw_data !! i = Some cell → rows !! i = Some row →
  ∃ idx_text offset_text,
    cell = PyStr.join ":" (idx_text :: offset_text :: present_cells row)
    ∧ PyInt.parse idx_text = Some (row_idx row)
    ∧ PyInt.parse offset_text = Some (row_offset row)
    ∧ in_int64 (row_idx row) = true
    ∧ in_int64 (row_offset row) = true
    ∧ has_char ":" idx_text = false
    ∧ has_char ":" offset_text = false
    ∧ (∀ date, row_date row = Some date → has_char ":" date = false)
    ∧ (row_date row = None → row_attrs row = None).
Proof.
  unfold parse_grib_idx. intros Hparse Hcell Hrow.
  destruct (idx_frame basename suffix size raw_data) as [frame|] eqn:Hframe;
    simpl in Hparse; [|done].
  case_match; [done|]. injection Hparse as <-.
  destruct (idx_frame_row_fields _ _ _ _ _ _ _ _ Hframe Hcell Hrow)
    as (Hidx & Hoffset & Hdate & Hattrs & _).
  pose proof (splitn_join ":" 3 cell) as Hjoin.
  destruct (splitn_fields ":" 3 cell) as [Hlen Hfields].
  unfold present_cells. rewrite Hdate, Hattrs.
  apply astype_int_Ok in Hidx as (idx_text & Hi & Hpi & Hri).
  apply astype_int_Ok in Hoffset as (offset_text & Ho & Hpo & Hro).
  destruct (PyStr.splitn ":" 3 cell) as [|idx_text' [|offset_text' fields]];
    [done..|].
  simpl in Hi, Ho. injection Hi as ->. injection Ho as ->.
  exists idx_text, offset_text.
  split; [|repeat (split; [done|])]; [|split; [|split; [|split]]].
  - rewrite <- Hjoin. do 2 f_equal.
    destruct fields as [|date [|attrs [|? ?]]]; simpl in *; try done. lia.
  - apply (Hfields 0%nat); [done|lia].
  - apply (Hfields 1%nat); [done|lia].
  - intros date Hd. apply (Hfields 2%nat); [done|lia].
  - by destruct fields.
Qed.

(** The lengths of a frame add up to what lies between the first offset
    and the end of the file. *)
Lemma forward_differences_sum (size : Z) (rows : list idx_row) :
  (∀ i row, rows !! i = Some row →
     row_length row
     = (default size (row_offset <$> rows !! S i) - row_offset row)%Z) →
  column_sum (map row_length rows)
  = match rows with
    | [] => 0%Z
    | first :: _ => (size - row_offset first)%Z
    end.
Proof.
  induction rows as [|row rows IH]; intros Hrows; [done|].
  simpl. rewrite IH.
  - rewrite (Hrows 0%nat row) by done. simpl.
    destruct rows as [|next rows]; simpl; lia.
  - intros i r Hi. apply (Hrows (S i) r Hi).
Qed.

(** A wrapped value is the exact one up to a multiple of 2^64. *)
Lemma wrap64_mod z : (wrap64 z mod 2 ^ 64 = z mod 2 ^ 64)%Z.
Proof.
  unfold wrap64.
  rewrite Zminus_mod, Z.mod_mod by done.
  rewrite <- Zminus_mod. f_equal. lia.
Qed.

(** The same sum for the differences of the 64-bit column, up to a
    multiple of 2^64. *)
Lemma wrapped_differences_sum (size : Z) (rows : list idx_row) :
  (∀ i row, rows !! i = Some row →
     row_length row
     = wrap64 (default size (row_offset <$> rows !! S i) - row_offset row)) →
  (column_sum (map row_length rows) mod 2 ^ 64
   = match rows with
     | [] => 0
     | first :: _ => size - row_offset first
     end mod 2 ^ 64)%Z.
Proof.
  assert (2 ^ 64 ≠ 0)%Z as Hmodulus by (vm_compute; discriminate).
  induction rows as [|row rows IH]; intros Hrows; [done|].
  unfold column_sum in *. cbn [map foldr].
  rewrite Z.add_mod by done.
  rewrite IH by (intros i r Hi; apply (Hrows (S i) r Hi)).
  rewrite (Hrows 0%nat row eq_refl), wrap64_mod.
  rewrite <- Z.add_mod by done.
  f_equal. destruct rows as [|next rows]; simpl; lia.
Qed.

(** X11.  For a file size that fits the 64-bit column, the lengths of the
    frame of [parse_grib_idx] add up to the size of the file less the
    offset of the first row, up to a multiple of 2^64; and exactly so when
    the size and the offsets are not negative. *)
Theorem parse_grib_idx_lengths_cover basename suffix size raw_data validate
    rows :
  in_int64 size = true →
  parse_grib_idx basename suffix size raw_data validate = Ok rows →
  let covered := match rows with
                 | [] => 0%Z
                 | first :: _ => (size - row_offset first)%Z
                 end in
  (column_sum (map row_length rows) mod 2 ^ 64 = covered mod 2 ^ 64)%Z
  ∧ ((0 ≤ size)%Z → Forall (fun row => 0 ≤ row_offset row)%Z rows →
     column_sum (map row_length rows) = covered).
Proof.
  unfold parse_grib_idx. intros Hsize Hparse.
  destruct (idx_frame basename suffix size raw_data) as [frame|] eqn:Hframe;
    simpl in Hparse; [|done].
  case_match; [done|]. injection Hparse as <-.
  destruct (idx_frame_rows _ _ _ _ _ Hframe) as [_ Hrows].
  cbv zeta. split.
  - apply wrapped_differences_sum. intros i row Hi.
    by destruct (Hrows i row Hi) as (_ & _ & ?).
  - intros Hnonneg Hoffsets. apply forward_differences_sum.
    intros i row Hi. destruct (Hrows i row Hi) as (_ & Hrange & ->).
    rewrite Forall_forall in Hoffsets.
    apply wrap64_in_range, in_int64_difference.
    + done.
    + destruct (frame !! S i) as [next|] eqn:Hnext; simpl; [|done].
      by destruct (Hrows (S i) next Hnext) as (_ & ? & _).
    + apply Hoffsets. apply list_elem_of_lookup. by exists i.
    + destruct (frame !! S i) as [next|] eqn:Hnext; simpl; [|done].
      apply Hoffsets. apply list_elem_of_lookup. by exists (S i).
Qed.

(** A loop ends normally exactly when its body does on every element. *)
Lemma for_each_Ok_iff {A B} (body : A → res B) xs :
  (∃ ys, for_each body xs = Ok ys) ↔ Forall (fun x => ¬ raises (body x)) xs.
Proof.
  induction xs as [|x xs IH]; simpl.
  - split; [constructor|by exists []].
  - rewrite Forall_cons, <- IH. destruct (body x) as [y|]; simpl.
    + destruct (for_each body xs) as [ys|]; simpl.
      * split; [|by eexists]. intros _. split; [tauto|by eexists].
      * split; [by intros [? ?]|]. by intros [_ [? ?]].
    + split; [by intros [? ?]|]. intros [Hx _]. by destruct Hx.
Qed.

(** The frame has four columns exactly when some cell has four fields. *)
Lemma expanded_columns_four raw_data :
  expanded_columns (split_fields raw_data) = 4%nat
  ↔ ∃ cell, cell ∈ raw_data
      ∧ List.length (PyStr.splitn ":" 3 cell) = 4%nat.
Proof.
  assert (expanded_columns (split_fields raw_data) ≤ 4)%nat as Hmax.
  { induction raw_data as [|cell raw_data IH]; simpl; [lia|].
    destruct (splitn_fields ":" 3 cell) as [Hlen _]. lia. }
  induction raw_data as [|cell raw_data IH]; simpl in *.
  - split; [lia|]. intros (? & Hin & _). by apply elem_of_nil in Hin.
  - destruct (splitn_fields ":" 3 cell) as [Hlen _].
    assert (expanded_columns (split_fields raw_data) ≤ 4)%nat as Hrest.
    { clear. induction raw_data as [|cell raw_data IH]; simpl; [lia|].
      destruct (splitn_fields ":" 3 cell) as [Hlen _]. lia. }
    specialize (IH Hrest). split.
    + intros Hfour.
      destruct (decide (List.length (PyStr.splitn ":" 3 cell) = 4%nat)).
      * exists cell. split; [left|done].
      * destruct IH as [IH _].
        destruct IH as (l & Hin & Hl); [lia|]. exists l. split; [by right|done].
    + intros (l & Hin & Hl). apply elem_of_cons in Hin as [->|Hin]; [lia|].
      destruct IH as [_ IH]. rewrite IH; [lia|]. by exists l.
Qed.

(** X12.  For a file size that fits the 64-bit column and without
    [validate], [parse_grib_idx] returns a frame exactly when some cell of
    the column has four fields and the first two fields of every cell are
    there and are texts of integers that fit 64 bits. *)
Theorem parse_grib_idx_parses_iff basename suffix size raw_data :
  in_int64 size = true →
  (∃ rows, parse_grib_idx basename suffix size raw_data false = Ok rows)
  ↔ (∃ cell, cell ∈ raw_data
       ∧ List.length (PyStr.splitn ":" 3 cell) = 4%nat)
    ∧ ∀ cell, cell ∈ raw_data →
        ∃ idx_text offset_text rest idx offset,
          PyStr.splitn ":" 3 cell = idx_text :: offset_text :: rest
          ∧ PyInt.parse idx_text = Some idx ∧ in_int64 idx = true
          ∧ PyInt.parse offset_text = Some offset ∧ in_int64 offset = true.
Proof.
  intros _. rewrite <- expanded_columns_four.
  assert (∀ cell,
            (¬ raises (astype_int (PyStr.splitn ":" 3 cell !! 1%nat))
             ∧ ¬ raises (astype_int (PyStr.splitn ":" 3 cell !! 0%nat)))
            ↔ ∃ idx_text offset_text rest idx offset,
                PyStr.splitn ":" 3 cell = idx_text :: offset_text :: rest
                ∧ PyInt.parse idx_text = Some idx ∧ in_int64 idx = true
                ∧ PyInt.parse offset_text = Some offset
                ∧ in_int64 offset = true) as Hcell.
  { intros cell. split.
    - intros [Ho Hi].
      apply not_raises_Ok in Ho as [offset Ho], Hi as [idx Hi].
      apply astype_int_Ok in Ho as (offset_text & Ho & Hpo & Hro).
      apply astype_int_Ok in Hi as (idx_text & Hi & Hpi & Hri).
      destruct (PyStr.splitn ":" 3 cell) as [|idx_text' [|offset_text' rest]];
        [done..|].
      simpl in Hi, Ho. injection Hi as ->. injection Ho as ->.
      by exists idx_text, offset_text, rest, idx, offset.
    - intros (idx_text & offset_text & rest & idx & offset & -> & Hpi & Hri
              & Hpo & Hro).
      simpl. unfold astype_int. rewrite Hpi, Hpo. simpl.
      rewrite Hri, Hro. tauto. }
  unfold parse_grib_idx, idx_frame. simpl.
  destruct (expanded_columns (split_fields raw_data) =? 4)%nat eqn:Hcols;
    simpl.
  - apply Nat.eqb_eq in Hcols. split.
    + intros [rows Hrows]. split; [done|].
      destruct (for_each (λ row, astype_int (row !! 1%nat)) _) as [offsets|]
        eqn:Hoffsets; simpl in Hrows; [|done].
      destruct (for_each (λ row, astype_int (row !! 0%nat)) _) as [idxs|]
        eqn:Hidxs; simpl in Hrows; [|done].
      intros cell Hin. apply Hcell.
      assert (PyStr.splitn ":" 3 cell ∈ split_fields raw_data) as Hf.
      { unfold split_fields. apply list_elem_of_fmap. by exists cell. }
      pose proof (proj1 (for_each_Ok_iff _ _) (ex_intro _ _ Hoffsets)) as H1.
      pose proof (proj1 (for_each_Ok_iff _ _) (ex_intro _ _ Hidxs)) as H2.
      rewrite Forall_forall in H1, H2. split; [by apply H1|by apply H2].
    + intros [_ Hcells].
      assert (Forall (λ row, ¬ raises (astype_int (row !! 1%nat))
                              ∧ ¬ raises (astype_int (row !! 0%nat)))
                (split_fields raw_data)) as Hall.
      { apply Forall_forall. intros fields Hf. unfold split_fields in Hf.
        apply list_elem_of_fmap in Hf as (cell & -> & Hin).
        apply Hcell. by apply Hcells. }
      apply Forall_and in Hall as [H1 H2].
      apply for_each_Ok_iff in H1 as [offsets ->].
      apply for_each_Ok_iff in H2 as [idxs ->]. simpl. by eexists.
  - apply Nat.eqb_neq in Hcols. split; [by intros [? ?]|]. by intros [? _].
Qed.

Section IdxMappingMore.

Context {scalar : Type} `{EqDecision scalar}.

Local Abbreviation grib_rows := (list (@grib_row scalar)).

Lemma filter_idx_unique (grib_file_index : grib_rows) k :
  NoDup (map g_idx grib_file_index) →
  (List.length (filter (fun g => g_idx g = k) grib_file_index) ≤ 1)%nat.
Proof.
  induction grib_file_index as [|g rest IH]; simpl; [lia|].
  intros [Hnotin Hrest]%NoDup_cons. specialize (IH Hrest).
  rewrite filter_cons. case_decide as Hk; [|done].
  destruct (filter (λ g, g_idx g = k) rest) as [|g' tail] eqn:Hf; [simpl; lia|].
  assert (g' ∈ filter (λ g, g_idx g = k) rest) as Hin by (rewrite Hf; left).
  apply list_elem_of_filter in Hin as [Hk' Hin]. destruct Hnotin.
  rewrite Hk, <- Hk'. apply list_elem_of_fmap. by exists g'.
Qed.

Lemma merge_left_cons (l : idx_row) rest (grib_file_index : grib_rows) :
  merge_left (l :: rest) grib_file_index
  = match filter (fun g => g_idx g = row_idx l) grib_file_index with
    | [] => [{| j_left := l; j_right := None |}]
    | matches => map (fun g => {| j_left := l; j_right := Some g |}) matches
    end ++ merge_left rest grib_file_index.
Proof. reflexivity. Qed.

Lemma merge_left_rows (idx_file_index : list idx_row)
    (grib_file_index : grib_rows) :
  NoDup (map g_idx grib_file_index) →
  map j_left (merge_left idx_file_index grib_file_index) = idx_file_index
  ∧ ∀ j, j ∈ merge_left idx_file_index grib_file_index →
      ∀ g, j_right j = Some g
           ↔ g ∈ grib_file_index ∧ g_idx g = row_idx (j_left j).
Proof.
  intros Hunique.
  induction idx_file_index as [|l rest [IHrows IHright]].
  - split; [done|]. by intros j ?%elem_of_nil.
  - pose proof (filter_idx_unique grib_file_index (row_idx l) Hunique) as Hlen.
    assert (∀ g, g ∈ filter (λ g, g_idx g = row_idx l) grib_file_index
                 ↔ g ∈ grib_file_index ∧ g_idx g = row_idx l) as Hfilter.
    { intros g. rewrite list_elem_of_filter. tauto. }
    rewrite merge_left_cons, map_app, IHrows.
    destruct (filter (λ g, g_idx g = row_idx l) grib_file_index)
      as [|g0 [|g1 tail]]; simpl in Hlen; [| |lia].
    + split; [done|].
      intros j [Hj|Hj]%elem_of_app; [|by apply IHright].
      apply list_elem_of_singleton in Hj as ->. cbn [j_left j_right].
      intros g. split; [done|]. intros Hg. apply Hfilter in Hg.
      by apply elem_of_nil in Hg.
    + split; [done|].
      intros j [Hj|Hj]%elem_of_app; [|by apply IHright].
      apply list_elem_of_singleton in Hj as ->. cbn [j_left j_right].
      intros g. rewrite <- Hfilter, elem_of_cons, elem_of_nil.
      split; [intros [= <-]; by left|]. intros [->|[]]. done.
Qed.

(** X13.  When no two message rows have the same index, the mapping of
    [build_idx_grib_mapping] has one row for every cell of the column
    [read_csv] returned for the idx file, in the order of the column, and a
    row carries the message row of its index and no other. *)
Theorem build_idx_grib_mapping_one_row_per_cell basename suffix size raw_data
    (grib_file_index : grib_rows) validate result warnings :
  NoDup (map g_idx grib_file_index) →
  build_idx_grib_mapping basename suffix size raw_data grib_file_index validate
  = Ok (result, warnings) →
  parse_grib_idx basename suffix size raw_data false = Ok (map j_left result)
  ∧ List.length result = List.length raw_data
  ∧ ∀ j, j ∈ result →
      ∀ g, j_right j = Some g
           ↔ g ∈ grib_file_index ∧ g_idx g = row_idx (j_left j).
Proof.
  intros Hunique. unfold build_idx_grib_mapping.
  destruct (parse_grib_idx basename suffix size raw_data false) as [rows|]
    eqn:Hparse; simpl; [|done].
  destruct (merge_left_rows rows grib_file_index Hunique) as [Hrows Hright].
  assert (List.length (merge_left rows grib_file_index)
          = List.length raw_data) as Hlen.
  { rewrite <- (length_map j_left), Hrows.
    unfold parse_grib_idx in Hparse.
    destruct (idx_frame basename suffix size raw_data) as [frame|] eqn:Hframe;
      simpl in Hparse; [|done].
    injection Hparse as <-. by apply (idx_frame_rows _ _ _ _ _ Hframe). }
  destruct validate.
  - destruct (validate_mapping _) as [w|]; simpl; [|done].
    intros [= <- <-]. by rewrite Hrows.
  - intros [= <- <-]. by rewrite Hrows.
Qed.


(** When a row counts as matching. *)
Lemma all_match_offset_true (j : @joined_row scalar) :
  all_match_offset j = true
  ↔ ∀ g, j_right j = Some g → g_inline_value g = None →
         ∀ o, g_offset g = Some o → o = row_offset (j_left j).
Proof.
  unfold all_match_offset, offset_grib, inline_value, offset_idx.
  destruct (j_right j) as [g|]; simpl; [|by split].
  destruct (g_inline_value g) as [v|] eqn:Hv; simpl.
  { rewrite orb_true_r. split; [|done]. intros _ ? [= <-]. congruence. }
  destruct (g_offset g) as [o|] eqn:Ho; simpl.
  - rewrite !orb_false_r, bool_decide_eq_true. split.
    + intros [= ->] ? [= <-] _ ? Ho'. congruence.
    + intros Hg. f_equal. by apply (Hg g).
  - split; [intros _ ? [= <-]; congruence|done].
Qed.

Lemma all_match_length_true (j : @joined_row scalar) :
  all_match_length j = true
  ↔ ∀ g, j_right j = Some g → g_inline_value g = None →
         ∀ n, g_length g = Some n → n = row_length (j_left j).
Proof.
  unfold all_match_length, length_grib, inline_value, length_idx.
  destruct (j_right j) as [g|]; simpl; [|by split].
  destruct (g_inline_value g) as [v|] eqn:Hv; simpl.
  { rewrite orb_true_r. split; [|done]. intros _ ? [= <-]. congruence. }
  destruct (g_length g) as [o|] eqn:Ho; simpl.
  - rewrite !orb_false_r, bool_decide_eq_true. split.
    + intros [= ->] ? [= <-] _ ? Ho'. congruence.
    + intros Hg. f_equal. by apply (Hg g).
  - split; [intros _ ? [= <-]; congruence|done].
Qed.

Lemma forallb_id_map {A} (f : A → bool) xs :
  forallb id (map f xs) = true ↔ ∀ x, x ∈ xs → f x = true.
Proof.
  induction xs as [|x xs IH]; simpl.
  - split; [|done]. by intros _ ? ?%elem_of_nil.
  - rewrite andb_true_iff, IH. unfold id. split.
    + intros [Hx Hxs] y [->|Hy]%elem_of_cons; [done|by apply Hxs].
    + intros Hall. split; [apply Hall; left|].
      intros y Hy. apply Hall. by right.
Qed.

Lemma validate_mapping_Ok_iff (result : list (@joined_row scalar)) :
  (∃ warnings, validate_mapping result = Ok warnings)
  ↔ forallb id (map all_match_offset result) = true
    ∧ forallb id (map all_match_length result) = true.
Proof.
  unfold validate_mapping.
  destruct (forallb id (map all_match_offset result)); simpl.
  - destruct (forallb id (map all_match_length result)); simpl.
    + split; [done|]. by eexists.
    + split; [|by intros [_ ?]]. intros [w Hw].
      destruct (vcs_item _ true); simpl in Hw; [|done].
      by destruct (vcs_item _ false).
  - split; [|by intros [? _]]. intros [w Hw].
    destruct (vcs_item _ true); simpl in Hw; [|done].
    by destruct (vcs_item _ false).
Qed.

(** X14.  With [validate], [build_idx_grib_mapping] returns the merged
    frame exactly when every row whose message is not stored inline has the
    offset and the length of the listing wherever the message has them; rows
    without a message and rows stored inline are not compared. *)
Theorem build_idx_grib_mapping_validates basename suffix size raw_data
    (grib_file_index : grib_rows) rows :
  parse_grib_idx basename suffix size raw_data false = Ok rows →
  (∃ warnings,
     build_idx_grib_mapping basename suffix size raw_data grib_file_index true
     = Ok (merge_left rows grib_file_index, warnings))
  ↔ ∀ j g,
      j ∈ merge_left rows grib_file_index →
      j_right j = Some g → g_inline_value g = None →
      (∀ o, g_offset g = Some o → o = row_offset (j_left j))
      ∧ (∀ n, g_length g = Some n → n = row_length (j_left j)).
Proof.
  intros Hparse. unfold build_idx_grib_mapping. rewrite Hparse. simpl.
  pose proof (validate_mapping_Ok_iff (merge_left rows grib_file_index))
    as Hvalid.
  rewrite !forallb_id_map in Hvalid.
  split.
  - intros [w Hw].
    destruct (validate_mapping _) as [w'|]; simpl in Hw; [|done].
    destruct Hvalid as [[Ho Hl] _]; [by eexists|].
    intros j g Hj Hg Hinline. split.
    + by apply (proj1 (all_match_offset_true j) (Ho j Hj) g).
    + by apply (proj1 (all_match_length_true j) (Hl j Hj) g).
  - intros Hrows. destruct Hvalid as [_ [w ->]]; [|by eexists].
    split; intros j Hj.
    + apply all_match_offset_true. intros g Hg Hi. by apply (Hrows j g).
    + apply all_match_length_true. intros g Hg Hi. by apply (Hrows j g).
Qed.

Lemma occurrences_total column :
  (occurrences true column + occurrences false column)%nat
  = List.length column.
Proof.
  unfold occurrences. induction column as [|[] column IH]; [done|..].
  - rewrite filter_cons_True, filter_cons_False by done. simpl. lia.
  - rewrite filter_cons_False, filter_cons_True by done. simpl. lia.
Qed.

(** X15.  When the validation raises the error that reports counts, the
    counts are the numbers of rows that match and that do not, both are
    positive and they add up to the number of rows; lengths are reported
    only when all offsets match. *)
Theorem build_idx_grib_mapping_error_counts basename suffix size raw_data
    (grib_file_index : grib_rows) rows matched mismatched :
  parse_grib_idx basename suffix size raw_data false = Ok rows →
  let result := merge_left rows grib_file_index in
  let run :=
    build_idx_grib_mapping basename suffix size raw_data grib_file_index true
  in
  (run = Raise (ValueError_offset_mapping matched mismatched) →
   matched = occurrences true (map all_match_offset result)
   ∧ mismatched = occurrences false (map all_match_offset result)
   ∧ (0 < matched)%nat ∧ (0 < mismatched)%nat
   ∧ (matched + mismatched)%nat = List.length result)
  ∧ (run = Raise (ValueError_length_mapping matched mismatched) →
     occurrences false (map all_match_offset result) = 0%nat
     ∧ matched = occurrences true (map all_match_length result)
     ∧ mismatched = occurrences false (map all_match_length result)
     ∧ (0 < matched)%nat ∧ (0 < mismatched)%nat
     ∧ (matched + mismatched)%nat = List.length result).
Proof.
  intros Hparse result run. subst run.
  unfold build_idx_grib_mapping. rewrite Hparse. simpl. fold result.
  pose proof (occurrences_total (map all_match_offset result)) as Hto.
  pose proof (occurrences_total (map all_match_length result)) as Htl.
  rewrite length_map in Hto, Htl.
  destruct (decide (occurrences false (map all_match_offset result) = 0%nat))
    as [Ho|Ho].
  - destruct (decide (occurrences false (map all_match_length result) = 0%nat))
      as [Hl|Hl].
    + destruct (validate_mapping_duplicates_warn result Ho Hl) as [w ->].
      by split.
    + rewrite (validate_mapping_lengths result Ho Hl).
      case_decide; simpl; [by split|]. split; [done|].
      intros [= <- <-]. repeat split; try done; lia.
  - rewrite (validate_mapping_offsets result Ho).
    case_decide; simpl; [by split|]. split; [|done].
    intros [= <- <-]. repeat split; try done; lia.
Qed.

End IdxMappingMore.

(** ** [extract_dataset_chunk_index]: counts, fields and keys *)

Lemma product_length sizes :
  List.length (product sizes) = extent_product sizes.
Proof.
  induction sizes as [|n sizes IH]; simpl; [done|].
  rewrite <- IH. generalize 0%nat. induction n as [|n IHn]; intros start;
    simpl; [done|].
  rewrite length_app, length_map, IHn. done.
Qed.

Lemma for_each_length {A B} (body : A → res B) xs ys :
  for_each body xs = Ok ys → List.length ys = List.length xs.
Proof.
  intros Hall%for_each_Forall2. symmetry. by eapply Forall2_length.
Qed.

Lemma outcomes_split {scalar} (outcomes : list (chunk_outcome scalar)) :
  (List.length (records_of outcomes) + List.length (not_found_of outcomes))%nat
  = List.length outcomes.
Proof.
  unfold records_of, not_found_of.
  induction outcomes as [|[key|r] outcomes IH]; [done|..]; cbn; rewrite ?length_cons; cbn in IH; lia.
Qed.

Section ChunkIndexMore.

Variable scalar : Type.
Variable zarray_chunks : ref -> res (list Z).

Local Abbreviation record := (gmap string (field scalar)).

Lemma index_data_var_length dset ref_store grib (attributes : record) dname
    dvar outcomes :
  index_data_var zarray_chunks dset ref_store grib attributes dname dvar
  = Ok outcomes →
  index_combinations scalar zarray_chunks dset ref_store dname dvar
  = Ok (List.length outcomes).
Proof.
  unfold index_data_var, index_combinations.
  destruct (or_raise _ _) as [text|]; simpl; [|done].
  destruct (zarray_chunks text) as [dchunk|]; simpl; [|done].
  destruct (index_dims_of dvar dchunk) as [index_dims|]; simpl; [|done].
  intros Hloop%for_each_length. by rewrite Hloop, product_length.
Qed.

(** X16.  When [extract_dataset_chunk_index] returns, the records and
    the chunks that were not found are as many as the index combinations of
    the data variables: for every variable the product of the extents of its
    index dimensions. *)
Theorem every_combination_is_record_or_not_found dset ref_store grib outcomes :
  extract_outcomes zarray_chunks dset ref_store grib = Ok outcomes →
  extract_dataset_chunk_index zarray_chunks dset ref_store grib
  = Ok (records_of outcomes)
  ∧ ∃ counts,
      for_each (fun '(dname, dvar) =>
                  index_combinations scalar zarray_chunks dset ref_store
                    dname dvar)
               (ds_data_vars dset) = Ok counts
      ∧ (List.length (records_of outcomes)
         + List.length (not_found_of outcomes))%nat
        = foldr Nat.add 0%nat counts.
Proof.
  unfold extract_dataset_chunk_index. intros Hrun. rewrite Hrun.
  split; [done|]. rewrite outcomes_split.
  unfold extract_outcomes in Hrun.
  destruct (for_each _ (ds_data_vars dset)) as [per_var|] eqn:Hvars;
    simpl in Hrun; [|done].
  injection Hrun as <-. revert per_var Hvars.
  induction (ds_data_vars dset) as [|[dname dvar] vars IH]; intros per_var;
    simpl.
  - intros [= <-]. by exists [].
  - destruct (index_data_var _ _ _ _ _ _ _) as [outcomes|] eqn:Hvar; simpl;
      [|done].
    destruct (for_each _ vars) as [rest|]; simpl; [|done].
    intros [= <-]. destruct (IH rest eq_refl) as (counts & -> & Hsum).
    rewrite (index_data_var_length _ _ _ _ _ _ _ Hvar). simpl.
    eexists. split; [done|]. simpl. rewrite length_app. lia.
Qed.


(** The coordinate values of a record come from the coordinates of the
    variable, under the names the loop gives them. *)
Lemma coord_vals_loop_keys grib dname dim_idx
    (coords : list (string * coord_var scalar)) :
  ∀ (acc coord_vals : record) k,
    coord_vals_loop grib dname dim_idx coords acc = Ok coord_vals →
    is_Some (coord_vals !! k) →
    is_Some (acc !! k)
    ∨ ∃ cname cvar, (cname, cvar) ∈ coords ∧ k = coord_name grib cname.
Proof.
  induction coords as [|[cname cvar] coords IH]; intros acc coord_vals k;
    simpl.
  - intros [= <-]. by left.
  - destruct (mapM _ (cv_dims cvar)) as [coord_index|].
    + destruct (cv_value cvar coord_index) as [value|]; [|done].
      intros Hloop Hk. destruct (IH _ _ _ Hloop Hk) as [Hacc|Hin].
      * apply lookup_insert_is_Some in Hacc as [<-|[_ Hacc]]; [|by left].
        right. exists cname, cvar. split; [left|done].
      * right. destruct Hin as (c & v & Hin & ->). exists c, v.
        split; [by right|done].
    + intros Hloop Hk. destruct (IH _ _ _ Hloop Hk) as [Hacc|Hin];
        [by left|].
      right. destruct Hin as (c & v & Hin & ->). exists c, v.
      split; [by right|done].
Qed.

Lemma coord_name_grib cname :
  coord_name true cname ∈ grib_coordinate_names
  ∨ coord_name true cname = "level".
Proof. unfold coord_name. case_bool_decide; [by left|by right]. Qed.

Lemma chunk_data_keys chunk_key chunk_ref (chunk_data : record) k :
  chunk_data_of chunk_key chunk_ref = Ok (Some chunk_data) →
  is_Some (chunk_data !! k) → k ∈ location_keys.
Proof.
  intros Hdata Hk. unfold location_keys.
  apply chunk_data_of_cases in Hdata
    as [(uri & offset & length & _ & ->)|[(s & _ & ->)|(b & _ & ->)]];
    unfold byte_range_data, inline_data in Hk;
    repeat (apply lookup_insert_is_Some in Hk as [<-|[_ Hk]];
            [set_solver|]);
    rewrite lookup_empty in Hk; by destruct Hk.
Qed.

(** Every record of the result, with the variable and the values it was
    built from. *)
Lemma extract_record_parts dset ref_store grib records (r : record) :
  extract_dataset_chunk_index zarray_chunks dset ref_store grib = Ok records →
  r ∈ records →
  ∃ dname dvar dim_idx coord_vals chunk_key chunk_data,
    (dname, dvar) ∈ ds_data_vars dset
    ∧ coord_vals_loop grib dname dim_idx (dv_coords dvar) ∅ = Ok coord_vals
    ∧ chunk_data_of chunk_key (ref_store !! chunk_key) = Ok (Some chunk_data)
    ∧ make_record dname (walk_attributes dset) coord_vals chunk_data = Ok r.
Proof.
  unfold extract_dataset_chunk_index, extract_outcomes.
  destruct (for_each _ (ds_data_vars dset)) as [per_var|] eqn:Hvars;
    simpl; [|done].
  intros [= <-] Hr.
  unfold records_of in Hr. apply list_elem_of_omap in Hr as (o & Ho & Hrec).
  destruct o as [|r']; [done|]. injection Hrec as ->.
  apply list_elem_of_In, in_concat in Ho as (outcomes & Hin & Ho).
  apply list_elem_of_In in Hin, Ho.
  destruct (for_each_elem _ _ _ _ Hvars Hin) as ([dname dvar] & Hvar_in & Hvar).
  unfold index_data_var in Hvar.
  destruct (or_raise _ _) as [text|]; simpl in Hvar; [|done].
  destruct (zarray_chunks text) as [dchunk|]; simpl in Hvar; [|done].
  destruct (index_dims_of dvar dchunk) as [index_dims|]; simpl in Hvar; [|done].
  destruct (for_each_elem _ _ _ _ Hvar Ho) as (idx & _ & Hchunk).
  unfold index_chunk in Hchunk.
  destruct (coord_vals_loop _ _ _ _ _) as [coord_vals|] eqn:Hcoords;
    simpl in Hchunk; [|done].
  set (chunk_key := chunk_key_of _ _ _ _ _) in Hchunk.
  destruct (chunk_data_of chunk_key _) as [[chunk_data|]|] eqn:Hdata;
    simpl in Hchunk; [|done|done].
  destruct (make_record _ _ _ _) as [r'|] eqn:Hmake; simpl in Hchunk; [|done].
  injection Hchunk as <-.
  exists dname, dvar, (zip (PyDict.keys index_dims) idx), coord_vals,
    chunk_key, chunk_data.
  done.
Qed.

(** X17.  Every record of [extract_dataset_chunk_index] names a data
    variable of the node, and each of its keys is the variable name key, a
    key of the walked attributes, a key of the chunk location, or the name
    given to a coordinate of the variable, which with [grib] is one of the
    five coordinate names of the module or the level. *)
Theorem record_fields_come_from dset ref_store grib records (r : record) :
  extract_dataset_chunk_index zarray_chunks dset ref_store grib = Ok records →
  r ∈ records →
  ∃ dname dvar,
    (dname, dvar) ∈ ds_data_vars dset
    ∧ r !! "varname" = Some (FStr dname)
    ∧ ∀ k, is_Some (r !! k) →
        k = "varname"
        ∨ is_Some (walk_attributes dset !! k)
        ∨ k ∈ location_keys
        ∨ (∃ cname cvar,
             (cname, cvar) ∈ dv_coords dvar ∧ k = coord_name grib cname
             ∧ (grib = true → k ∈ grib_coordinate_names ∨ k = "level")).
Proof.
  intros Hrun Hr.
  destruct (extract_record_parts _ _ _ _ _ Hrun Hr)
    as (dname & dvar & dim_idx & coord_vals & chunk_key & chunk_data
        & Hvar & Hcoords & Hdata & Hmake).
  exists dname, dvar. split; [done|].
  apply make_record_Ok in Hmake as [_ ->]. split.
  - apply lookup_union_Some_l, lookup_union_Some_l, lookup_union_Some_l.
    by rewrite lookup_singleton_eq.
  - intros k [v Hk].
    apply lookup_union_Some_raw in Hk as [Hk|[_ Hk]].
    + apply lookup_union_Some_raw in Hk as [Hk|[_ Hk]].
      * apply lookup_union_Some_raw in Hk as [Hk|[_ Hk]].
        -- left. apply lookup_singleton_Some in Hk as [<- _]. done.
        -- right. left. by exists v.
      * right. right. right.
        destruct (coord_vals_loop_keys _ _ _ _ _ _ k Hcoords) as [Hacc|Hin];
          [by exists v| |].
        -- rewrite lookup_empty in Hacc. by destruct Hacc.
        -- destruct Hin as (cname & cvar & Hin & ->).
           exists cname, cvar. split; [done|]. split; [done|].
           intros ->. apply coord_name_grib.
    + right. right. left.
      apply (chunk_data_keys _ _ _ _ Hdata). by exists v.
Qed.

(** X18.  A data variable whose array entry is missing from the store
    makes [extract_dataset_chunk_index] raise; for the first variable the
    exception is the key error of the path built for it. *)
Theorem missing_zarray_raises (dset : dataset scalar) ref_store grib dname
    (dvar : data_var scalar) :
  let zkey := build_path [ds_path dset; Some dname] (Some ".zarray") in
  (dname, dvar) ∈ ds_data_vars dset →
  ref_store !! zkey = None →
  raises (extract_dataset_chunk_index zarray_chunks dset ref_store grib)
  ∧ (∀ rest, ds_data_vars dset = (dname, dvar) :: rest →
       extract_dataset_chunk_index zarray_chunks dset ref_store grib
       = Raise (KeyError zkey)).
Proof.
  intros zkey Hin Hmissing.
  assert (index_data_var zarray_chunks dset ref_store grib
            (walk_attributes dset) dname dvar = Raise (KeyError zkey)) as Hvar.
  { unfold index_data_var. fold zkey. by rewrite Hmissing. }
  unfold extract_dataset_chunk_index, extract_outcomes. split.
  - apply raises_fmap, raises_fmap.
    apply (for_each_raises _ _ (dname, dvar)); [done|]. by rewrite Hvar.
  - intros rest ->. simpl. by rewrite Hvar.
Qed.

End ChunkIndexMore.

(** ** The keys [grib_tree] writes and the keys the index reads *)

Lemma lstrip_slash_path path :
  PyStr.lstrip "/" path = path →
  path ≠ EmptyString →
  ∀ rest, PyStr.lstrip "/" (String "/" (path +:+ rest)) = path +:+ rest.
Proof.
  intros Hstrip Hne rest. destruct path as [|c path]; [by destruct Hne|].
  change (String c path +:+ rest) with (String c (path +:+ rest)).
  cbn [PyStr.lstrip] in *. rewrite decide_True by done.
  case_decide as Hc; [|done].
  subst c. exfalso. by apply (lstrip_head "/"%char path path).
Qed.

Lemma store_group_refs_other path group_refs :
  ∀ (store : gmap string ref) key,
    key ∉ map fst group_refs →
    store_group_refs path group_refs store !! (path +:+ "/" +:+ key)
    = store !! (path +:+ "/" +:+ key).
Proof.
  unfold store_group_refs.
  induction group_refs as [|[k v] group_refs IH]; intros store key Hkey;
    simpl; [done|].
  apply not_elem_of_cons in Hkey as [Hne Hkey]. rewrite IH by done.
  case_bool_decide; [done|].
  apply lookup_insert_ne. intros Heq. apply Hne.
  apply (inj (String.app path)) in Heq. by injection Heq.
Qed.

Lemma store_group_refs_entry path group_refs :
  ∀ (store : gmap string ref) key value,
    NoDup (map fst group_refs) →
    (key, value) ∈ group_refs →
    key ∉ group_metadata →
    store_group_refs path group_refs store !! (path +:+ "/" +:+ key)
    = Some value.
Proof.
  induction group_refs as [|[k v] group_refs IH]; intros store key value;
    [by intros _ ?%elem_of_nil|].
  intros [Hnotin Hunique]%NoDup_cons [[= -> ->]|Hin]%elem_of_cons Hmeta.
  - change (store_group_refs path ((k, v) :: group_refs) store)
      with (store_group_refs path group_refs
              (if bool_decide (k ∈ group_metadata) then store
               else <[path +:+ "/" +:+ k := v]> store)).
    rewrite store_group_refs_other by done.
    rewrite bool_decide_eq_false_2 by done. by rewrite lookup_insert_eq.
  - change (store_group_refs path ((k, v) :: group_refs) store)
      with (store_group_refs path group_refs
              (if bool_decide (k ∈ group_metadata) then store
               else <[path +:+ "/" +:+ k := v]> store)).
    by apply IH.
Qed.

Lemma has_slash_app a b : has_char "/" (a +:+ "/" +:+ b) = true.
Proof.
  induction a as [|c a IH]; [done|].
  change (String c a +:+ "/" +:+ b) with (String c (a +:+ "/" +:+ b)).
  simpl. rewrite IH. by destruct (bool_decide _).
Qed.

(** X19.  The entries [grib_tree] stores for a node are found under the
    keys [extract_dataset_chunk_index] builds: for a path that is not empty
    and does not begin with a slash, the value stored for a variable and a
    suffix is the one looked up for the node at that path. *)
Theorem tree_entries_are_found_by_index path group_refs store dname suffix
    value :
  PyStr.lstrip "/" path = path →
  path ≠ EmptyString →
  NoDup (map fst group_refs) →
  (dname +:+ "/" +:+ suffix, value) ∈ group_refs →
  store_group_refs path group_refs store
    !! build_path [Some ("/" +:+ path); Some dname] (Some suffix)
  = Some value.
Proof.
  intros Hstrip Hne Hunique Hin.
  assert (build_path [Some ("/" +:+ path); Some dname] (Some suffix)
          = path +:+ "/" +:+ dname +:+ "/" +:+ suffix) as ->.
  { unfold build_path, not_none_vals. simpl.
    change (("/" +:+ path) +:+ "/" +:+ dname +:+ "/" +:+ suffix)
      with (String "/" (path +:+ "/" +:+ dname +:+ "/" +:+ suffix)).
    by apply lstrip_slash_path. }
  apply store_group_refs_entry; [done..|].
  pose proof (has_slash_app dname suffix) as Hslash.
  unfold group_metadata. intros [Heq|[Heq|[]%elem_of_nil]%elem_of_cons]%elem_of_cons;
    by rewrite Heq in Hslash.
Qed.

(** ** The frames of the messages of a file *)

Section MessageFramesFacts.

Variable scalar : Type.
Variable ujson_loads : ref -> res (gmap string jval).
Variable MultiZarrToZarr :
  list fragment -> list string -> list string -> res (list (string * ref)).
Variable zgroup_meta : ref.
Variable zattrs_encode : gmap string jval -> ref.
Variable zattrs_decode : ref -> gmap string jval.
Variable bytes_decode : string -> option string.
Variable zarray_chunks : ref -> res (list Z).
Variable open_datatree : manifest -> res (list (@tree_node scalar)).
Variable scan_grib : string -> res (list fragment).

Local Abbreviation record := (gmap string (field scalar)).
Local Abbreviation tree := (grib_tree ujson_loads MultiZarrToZarr zgroup_meta zattrs_encode zattrs_decode bytes_decode).
Local Abbreviation single := (_extract_single_group scalar ujson_loads MultiZarrToZarr zgroup_meta zattrs_encode zattrs_decode bytes_decode zarray_chunks open_datatree).
Local Abbreviation map_file := (_map_grib_file_by_group scalar ujson_loads MultiZarrToZarr zgroup_meta zattrs_encode zattrs_decode bytes_decode zarray_chunks open_datatree scan_grib).

(** The tree of one dropped message holds the root group and nothing
    else. *)
Lemma dropped_message_tree group text :
  message_path ujson_loads group = Ok None →
  decode_ref bytes_decode zgroup_meta = Some text →
  tree [group] = Ok {| m_refs := {[".zgroup" := text]}; m_version := 1 |}.
Proof.
  unfold message_path, message_node, grib_tree. simpl.
  unfold grib_tree_step.
  destruct (message_coordinates _ _) as [coordinates|]; simpl; [|done].
  destruct (find_data_var _ _) as [vname|]; [|done].
  case_decide as Hunknown.
  2:{ destruct (message_filters _ _ _); simpl; done. }
  intros _ Htext. simpl. unfold mzz_calls. simpl.
  unfold open_group, require_group. rewrite lookup_empty.
  change (item_path "" ".zgroup") with ".zgroup".
  unfold decode_store. rewrite insert_empty.
  rewrite bool_decide_eq_true_2.
  - simpl. rewrite omap_singleton, Htext. done.
  - apply map_Forall_singleton. by rewrite Htext.
Qed.

Lemma dropped_message_no_row group idx :
  message_path ujson_loads group = Ok None →
  is_Some (decode_ref bytes_decode zgroup_meta) →
  single group idx = Ok None.
Proof.
  intros Hdropped [text Htext]. unfold _extract_single_group.
  rewrite (dropped_message_tree _ _ Hdropped Htext). simpl.
  rewrite map_size_singleton. done.
Qed.

(** X20.  The tree of a single dropped message holds the group entry of
    the root and nothing else, and [_extract_single_group] gives no row for
    the message. *)
Theorem dropped_message_gives_no_row group idx text :
  message_path ujson_loads group = Ok None →
  decode_ref bytes_decode zgroup_meta = Some text →
  tree [group] = Ok {| m_refs := {[".zgroup" := text]}; m_version := 1 |}
  ∧ single group idx = Ok None.
Proof.
  intros Hdropped Htext. split.
  - by apply dropped_message_tree.
  - by apply dropped_message_no_row.
Qed.

Lemma single_group_row group idx rows :
  single group idx = Ok (Some rows) →
  ∃ r, rows = [<["idx" := FInt (Z.of_nat idx)]> r].
Proof.
  unfold _extract_single_group.
  destruct (tree [group]) as [store|]; simpl; [|done].
  case_bool_decide as Hsize; [done|].
  destruct (open_datatree store) as [dt|] eqn:Hdt; simpl; [|done].
  destruct (extract_datatree_chunk_index _ _ _ _ _) as [k_ind|] eqn:Hind;
    simpl; [|done].
  destruct k_ind as [|r [|r' k_ind]]; simpl; [done| |done].
  intros [= <-]. by exists r.
Qed.

(** The rows of the messages from position [start] on. *)
Lemma message_rows (mapper : fragment → res fragment) references :
  ∀ start items,
    for_each (fun '(i, group) =>
                mapped ← mapper group;
                single mapped i)
             (zip (seq start (List.length references)) references)
    = Ok items →
    ∃ positions,
      map (fun r : record => r !! "idx") (List.concat (omap id items))
      = map (fun i => Some (FInt (Z.of_nat i))) positions
      ∧ List.length (omap id items) = List.length positions
      ∧ StronglySorted lt positions
      ∧ Forall (fun i => start ≤ i < start + List.length references)%nat
               positions.
Proof.
  induction references as [|group references IH]; intros start items; simpl.
  - intros [= <-]. exists []. repeat split; constructor.
  - destruct (mapper group) as [mapped|]; simpl; [|done].
    destruct (single mapped start) as [item|] eqn:Hitem; simpl; [|done].
    destruct (for_each _ _) as [rest|] eqn:Hrest; simpl; [|done].
    intros [= <-].
    destruct (IH _ _ Hrest) as (positions & Hidx & Hlen & Hsorted & Hrange).
    destruct item as [rows|].
    + destruct (single_group_row _ _ _ Hitem) as [r ->].
      exists (start :: positions).
      change (omap id (Some [<["idx" := FInt (Z.of_nat start)]> r] :: rest))
        with ([<["idx" := FInt (Z.of_nat start)]> r] :: omap id rest).
      cbn [List.concat app map List.length]. rewrite Hidx, Hlen.
      rewrite lookup_insert_eq. split; [done|]. split; [done|]. split.
      * constructor; [done|]. eapply Forall_impl; [exact Hrange|].
        simpl. intros i ?. lia.
      * constructor; [lia|]. eapply Forall_impl; [exact Hrange|].
        simpl. intros i ?. lia.
    + exists positions. change (omap id (None :: rest)) with (omap id rest).
      split; [done|]. split; [done|]. split; [done|].
      eapply Forall_impl; [exact Hrange|]. simpl. intros i ?. lia.
Qed.

(** X21.  The rows of the frame of [_map_grib_file_by_group] carry the
    positions of their messages, counted from one: the index values increase
    strictly and lie between one and the number of messages, and the frame
    is not empty. *)
Theorem map_grib_file_rows_are_numbered fname mapper rows :
  map_file fname mapper = Ok (Frame rows) →
  ∃ references positions,
    scan_grib fname = Ok references
    ∧ positions ≠ []
    ∧ map (fun r : record => r !! "idx") rows
      = map (fun i => Some (FInt (Z.of_nat i))) positions
    ∧ StronglySorted lt positions
    ∧ Forall (fun i => 1 ≤ i ≤ List.length references)%nat positions.
Proof.
  unfold _map_grib_file_by_group.
  destruct (scan_grib fname) as [references|]; simpl; [|done].
  destruct (for_each _ _) as [items|] eqn:Hitems; simpl; [|done].
  destruct (message_rows _ _ _ _ Hitems)
    as (positions & Hidx & Hlen & Hsorted & Hrange).
  destruct (omap id items) as [|frame frames] eqn:Hframes; [done|].
  intros [= <-]. exists references, positions.
  split; [done|]. split; [by destruct positions|]. split; [done|].
  split; [done|]. eapply Forall_impl; [exact Hrange|]. simpl. intros i ?. lia.
Qed.

(** A file all of whose messages are dropped. *)
Lemma dropped_messages_items references :
  Forall (fun group => message_path ujson_loads group = Ok None) references →
  is_Some (decode_ref bytes_decode zgroup_meta) →
  ∀ start,
    ∃ items,
      for_each (fun '(i, group) => single group i)
               (zip (seq start (List.length references)) references)
      = Ok items
      ∧ omap id items = [].
Proof.
  intros Hdropped Hmeta.
  induction Hdropped as [|group references Hgroup _ IH]; intros start.
  - by exists [].
  - destruct (IH (S start)) as (items & Hitems & Hnone).
    exists (None :: items). split; [|done].
    cbn [List.length seq zip zip_with for_each].
    rewrite (dropped_message_no_row _ _ Hgroup Hmeta), Hitems. done.
Qed.

(** X22.  A file all of whose messages are dropped gives no frame: the
    concatenation is given no objects and raises. *)
Theorem map_grib_file_all_dropped fname references :
  scan_grib fname = Ok references →
  Forall (fun group => message_path ujson_loads group = Ok None) references →
  is_Some (decode_ref bytes_decode zgroup_meta) →
  map_file fname None = Ok ValueError_no_objects.
Proof.
  intros Hscan Hdropped Hmeta. unfold _map_grib_file_by_group.
  rewrite Hscan.
  destruct (dropped_messages_items _ Hdropped Hmeta 1%nat)
    as (items & Hitems & Hnone).
  cbn [mbind res_bind].
  rewrite Hitems. simpl. by rewrite Hnone.
Qed.

End MessageFramesFacts.

(** ** The theorems on the sample inputs *)

Lemma two_messages_well_formed :
  Forall SplitFile.well_formed MoreSamples.two_messages.
Proof.
  repeat constructor; vm_compute; lia.
Qed.

(** Two messages, one after the other. *)
Lemma split_file_gives_messages_witness :
  SplitFile._split_file 3 (concat MoreSamples.two_messages) 0
  = (SplitFile.parts_at 0 MoreSamples.two_messages, SplitFile.Exhausted).
Proof.
  apply split_file_gives_messages.
  - exact two_messages_well_formed.
  - simpl. lia.
Defined.

(** The second part of the two messages begins at byte 20. *)
Lemma split_file_parts_are_marked_witness :
  SplitFile.slice 20 (20 + 4) (concat MoreSamples.two_messages)
  = SplitFile.marker
  ∧ (20 + 4 ≤ List.length (concat MoreSamples.two_messages))%nat
  ∧ MoreSamples.grib_bytes ["e"; "f"]%char
    = SplitFile.slice 20 (20 + 18) (concat MoreSamples.two_messages)
  ∧ (List.length (MoreSamples.grib_bytes ["e"; "f"]%char) ≤ 18)%nat.
Proof.
  apply (split_file_parts_are_marked 3 (concat MoreSamples.two_messages) 0
           (fst (SplitFile._split_file 3 (concat MoreSamples.two_messages) 0))
           (snd (SplitFile._split_file 3 (concat MoreSamples.two_messages) 0))).
  - apply surjective_pairing.
  - assert (fst (SplitFile._split_file 3 (concat MoreSamples.two_messages) 0)
            = [(0%nat, 20%nat, MoreSamples.grib_bytes ["a"; "b"; "c"; "d"]%char);
               (20%nat, 18%nat, MoreSamples.grib_bytes ["e"; "f"]%char)]) as ->
      by (vm_compute; reflexivity).
    right. left.
Defined.

(** A byte after the two messages: the run gives them and does not end. *)
Lemma split_file_trailing_bytes_witness :
  SplitFile._split_file 1000 (concat MoreSamples.two_messages ++ ["x"%char]) 0
  = (SplitFile.parts_at 0 MoreSamples.two_messages, SplitFile.Running).
Proof.
  apply (split_file_trailing_bytes MoreSamples.two_messages ["x"%char] 1000).
  - exact two_messages_well_formed.
  - done.
  - simpl. lia.
  - intros i Hi Hmark. pose proof (f_equal List.length Hmark) as Hlen.
    unfold SplitFile.slice in Hlen.
    rewrite length_take, length_drop in Hlen.
    change (List.length SplitFile.marker) with 4%nat in Hlen.
    change (List.length (concat MoreSamples.two_messages ++ ["x"%char]))
      with 39%nat in Hlen, Hi.
    change (List.length (concat MoreSamples.two_messages)) with 38%nat in Hi.
    assert (i = 35%nat) as -> by lia.
    clear Hlen Hi. vm_compute in Hmark.
    done.
  - simpl. lia.
Defined.

(** The three sample messages: two in the node of [t], one dropped. *)
Lemma grib_tree_groups_in_order_witness :
  ∃ st,
    Samples.run_messages Samples.two_levels = Ok st
    ∧ default [] (PyDict.get "t/instant/isobaricInhPa" (aggregations st))
      = [Samples.message "t" "500" 0; Samples.message "t" "850" 200]
    ∧ unknown_counter st = 1%nat.
Proof.
  destruct (not_raises_Ok (Samples.run_messages Samples.two_levels))
    as [st Hst]; [vm_compute; exact (fun x => x)|].
  exists st. split; [exact Hst|].
  destruct (grib_tree_groups_in_order Samples.loads (RBytes "zgroup")
              Samples.zattrs_encode Samples.zattrs_decode Samples.two_levels
              st Hst) as (Hmembers & -> & _).
  rewrite Hmembers. split; vm_compute; reflexivity.
Defined.

(** The level value of the first sample message is one of its node. *)
Lemma grib_tree_level_values_witness :
  ∃ st,
    Samples.run_messages Samples.two_levels = Ok st
    ∧ RStr "500"
      ∈ default ∅ (aggregation_dims st !! "t/instant/isobaricInhPa").
Proof.
  destruct (not_raises_Ok (Samples.run_messages Samples.two_levels))
    as [st Hst]; [vm_compute; exact (fun x => x)|].
  exists st. split; [exact Hst|].
  apply (grib_tree_level_values Samples.loads (RBytes "zgroup")
           Samples.zattrs_encode Samples.zattrs_decode Samples.two_levels
           st Hst).
  exists (Samples.message "t" "500" 0),
    [("stepType", "instant"); ("typeOfLevel", "isobaricInhPa")],
    "isobaricInhPa/0".
  split; [left|]. split; [vm_compute; reflexivity|].
  split; [|split; reflexivity].
  unfold Samples.message. cbn [refs]. do 6 right. left.
Defined.

(** The tree of the sample messages has version 1 and a text at the root. *)
Lemma grib_tree_manifest_is_text_witness :
  ∃ m, MoreSamples.tree Samples.two_levels = Ok m ∧ m_version m = 1%Z.
Proof.
  destruct (not_raises_Ok (MoreSamples.tree Samples.two_levels))
    as [m Hm]; [vm_compute; exact (fun x => x)|].
  exists m. split; [exact Hm|].
  exact (proj1 (grib_tree_manifest_is_text Samples.loads Samples.mzz
                  (RBytes "zgroup") Samples.zattrs_encode
                  Samples.zattrs_decode (fun b => Some b) Samples.two_levels
                  m Hm)).
Defined.

(** The tree of the sample messages has its root group. *)
Lemma grib_tree_nodes_are_groups_witness :
  ∃ m, MoreSamples.tree Samples.two_levels = Ok m
       ∧ is_Some (m_refs m !! ".zgroup").
Proof.
  destruct (not_raises_Ok (MoreSamples.tree Samples.two_levels))
    as [m Hm]; [vm_compute; exact (fun x => x)|].
  exists m. split; [exact Hm|].
  exact (proj1 (grib_tree_nodes_are_groups Samples.loads Samples.mzz
                  (RBytes "zgroup") Samples.zattrs_encode
                  Samples.zattrs_decode (fun b => Some b) Samples.two_levels
                  m Hm)).
Defined.

(** A message of version 0 after a sample message. *)
Lemma grib_tree_version_check_witness :
  raises (MoreSamples.tree [Samples.message "t" "500" 0;
                            MoreSamples.old_message]).
Proof.
  refine (proj1 (grib_tree_version_check Samples.loads Samples.mzz
                   (RBytes "zgroup") Samples.zattrs_encode
                   Samples.zattrs_decode (fun b => Some b)
                   [Samples.message "t" "500" 0; MoreSamples.old_message]
                   MoreSamples.old_message _ _)).
  - right. left.
  - simpl. lia.
Defined.

(** The second cell of the sample column is the text of its row. *)
Lemma parse_grib_idx_cell_fields_witness :
  ∃ rows row,
    parse_grib_idx "f.grib2" "idx" 450 Samples.listing false = Ok rows
    ∧ rows !! 1%nat = Some row
    ∧ ∃ idx_text offset_text,
        "1:120:d2:B"
        = PyStr.join ":" (idx_text :: offset_text :: present_cells row)
        ∧ PyInt.parse idx_text = Some (row_idx row)
        ∧ PyInt.parse offset_text = Some (row_offset row).
Proof.
  destruct (not_raises_Ok
              (parse_grib_idx "f.grib2" "idx" 450 Samples.listing false))
    as [rows Hrows]; [vm_compute; exact (fun x => x)|].
  assert (¬ raises (or_raise (rows !! 1%nat) AssertionError)) as Hrow.
  { pose proof Hrows as Hrun. vm_compute in Hrun. injection Hrun as <-.
    exact (fun x => x). }
  destruct (rows !! 1%nat) as [row|] eqn:Hlookup; [|by destruct Hrow].
  exists rows, row. split; [exact Hrows|]. split; [exact Hlookup|].
  destruct (parse_grib_idx_cell_fields "f.grib2" "idx" 450 Samples.listing
              false rows 1%nat "1:120:d2:B" row Hrows eq_refl Hlookup)
    as (idx_text & offset_text & Hline & Hidx & Hoffset & _).
  exists idx_text, offset_text. split; [exact Hline|]. split; assumption.
Defined.

(** The lengths of the sample column add up to the size of the file. *)
Lemma parse_grib_idx_lengths_cover_witness :
  ∃ rows,
    parse_grib_idx "f.grib2" "idx" 450 Samples.listing false = Ok rows
    ∧ column_sum (map row_length rows) = 450%Z.
Proof.
  destruct (not_raises_Ok
              (parse_grib_idx "f.grib2" "idx" 450 Samples.listing false))
    as [rows Hrows]; [vm_compute; exact (fun x => x)|].
  exists rows. split; [exact Hrows|].
  pose proof Hrows as Hrun. vm_compute in Hrun. injection Hrun as Hrun.
  rewrite (proj2 (parse_grib_idx_lengths_cover "f.grib2" "idx" 450
                    Samples.listing false rows eq_refl Hrows)).
  - by subst rows.
  - lia.
  - subst rows. repeat constructor; simpl; lia.
Defined.

(** The cells of the sample column have four fields, and their first two
    fields are numbers. *)
Lemma parse_grib_idx_parses_iff_witness :
  (∃ cell, cell ∈ Samples.listing
     ∧ List.length (PyStr.splitn ":" 3 cell) = 4%nat)
  ∧ ∀ cell, cell ∈ Samples.listing →
      ∃ idx_text offset_text rest idx offset,
        PyStr.splitn ":" 3 cell = idx_text :: offset_text :: rest
        ∧ PyInt.parse idx_text = Some idx ∧ in_int64 idx = true
        ∧ PyInt.parse offset_text = Some offset ∧ in_int64 offset = true.
Proof.
  apply (proj1 (parse_grib_idx_parses_iff "f.grib2" "idx" 450 Samples.listing
                  eq_refl)).
  eexists. vm_compute. reflexivity.
Defined.

Lemma two_rows_unique : NoDup (map g_idx MoreSamples.two_rows).
Proof.
  apply NoDup_cons. split.
  - intros Hin. apply list_elem_of_singleton in Hin. discriminate.
  - apply NoDup_singleton.
Qed.

(** The mapping of the column of two cells has two rows. *)
Lemma build_idx_grib_mapping_one_row_per_cell_witness :
  ∃ result warnings,
    build_idx_grib_mapping "f.grib2" "idx" 450 MoreSamples.two_lines
      MoreSamples.two_rows true = Ok (result, warnings)
    ∧ List.length result = 2%nat.
Proof.
  destruct (not_raises_Ok
              (build_idx_grib_mapping "f.grib2" "idx" 450
                 MoreSamples.two_lines MoreSamples.two_rows true))
    as [[result warnings] Hrun]; [vm_compute; exact (fun x => x)|].
  exists result, warnings. split; [exact Hrun|].
  exact (proj1 (proj2 (build_idx_grib_mapping_one_row_per_cell
                         "f.grib2" "idx" 450 MoreSamples.two_lines
                         MoreSamples.two_rows true result warnings
                         two_rows_unique Hrun))).
Defined.

(** The rows computed for the two messages agree with the listing. *)
Lemma build_idx_grib_mapping_validates_witness :
  ∃ rows warnings,
    parse_grib_idx "f.grib2" "idx" 450 MoreSamples.two_lines false = Ok rows
    ∧ build_idx_grib_mapping "f.grib2" "idx" 450 MoreSamples.two_lines
        MoreSamples.two_rows true
      = Ok (merge_left rows MoreSamples.two_rows, warnings).
Proof.
  destruct (not_raises_Ok
              (parse_grib_idx "f.grib2" "idx" 450 MoreSamples.two_lines false))
    as [rows Hrows]; [vm_compute; exact (fun x => x)|].
  destruct (proj2 (build_idx_grib_mapping_validates "f.grib2" "idx" 450
                     MoreSamples.two_lines MoreSamples.two_rows rows Hrows))
    as [warnings Hrun].
  - pose proof Hrows as Hrun. vm_compute in Hrun. injection Hrun as <-.
    intros j g Hj Hright Hinline.
    apply elem_of_cons in Hj as [->|Hj];
      [|apply list_elem_of_singleton in Hj as ->];
      injection Hright as <-; split; intros ? [= <-]; reflexivity.
  - exists rows, warnings. split; [exact Hrows|exact Hrun].
Defined.

(** One of two messages at another offset: one row matched, one did not. *)
Lemma build_idx_grib_mapping_error_counts_witness :
  ∃ rows,
    parse_grib_idx "f.grib2" "idx" 450 MoreSamples.two_lines false = Ok rows
    ∧ build_idx_grib_mapping "f.grib2" "idx" 450 MoreSamples.two_lines
        [Samples.message_row 1 7 120; Samples.message_row 2 120 330] true
      = Raise (ValueError_offset_mapping 1 1)
    ∧ (1 + 1)%nat
      = List.length
          (merge_left rows
             [Samples.message_row 1 7 120; Samples.message_row 2 120 330]).
Proof.
  destruct (not_raises_Ok
              (parse_grib_idx "f.grib2" "idx" 450 MoreSamples.two_lines false))
    as [rows Hrows]; [vm_compute; exact (fun x => x)|].
  exists rows. split; [exact Hrows|].
  assert (build_idx_grib_mapping "f.grib2" "idx" 450 MoreSamples.two_lines
            [Samples.message_row 1 7 120; Samples.message_row 2 120 330] true
          = Raise (ValueError_offset_mapping 1 1)) as Hrun
    by (vm_compute; reflexivity).
  split; [exact Hrun|].
  exact (proj2 (proj2 (proj2 (proj2
           (proj1 (build_idx_grib_mapping_error_counts "f.grib2" "idx" 450
                     MoreSamples.two_lines
                     [Samples.message_row 1 7 120;
                      Samples.message_row 2 120 330]
                     rows 1%nat 1%nat Hrows) Hrun))))).
Defined.

(** The sample node with its second chunk missing: two combinations, one
    record and one chunk not found. *)
Lemma every_combination_is_record_or_not_found_witness :
  ∃ outcomes,
    extract_outcomes Samples.chunks_of Samples.level_node Samples.sparse_store
      true = Ok outcomes
    ∧ (List.length (records_of outcomes)
       + List.length (not_found_of outcomes))%nat = 2%nat.
Proof.
  destruct (not_raises_Ok
              (extract_outcomes Samples.chunks_of Samples.level_node
                 Samples.sparse_store true))
    as [outcomes Hrun]; [vm_compute; exact (fun x => x)|].
  exists outcomes. split; [exact Hrun|].
  destruct (proj2 (every_combination_is_record_or_not_found Z
                     Samples.chunks_of Samples.level_node Samples.sparse_store
                     true outcomes Hrun))
    as (counts & Hcounts & ->).
  vm_compute in Hcounts. injection Hcounts as <-. reflexivity.
Defined.

(** The records of the sample node are records of its variable [t]. *)
Lemma record_fields_come_from_witness :
  ∃ records,
    extract_dataset_chunk_index Samples.chunks_of Samples.level_node
      Samples.level_store true = Ok records
    ∧ ∀ r, r ∈ records → r !! "varname" = Some (FStr "t").
Proof.
  destruct (not_raises_Ok
              (extract_dataset_chunk_index Samples.chunks_of
                 Samples.level_node Samples.level_store true))
    as [records Hrun]; [vm_compute; exact (fun x => x)|].
  exists records. split; [exact Hrun|]. intros r Hr.
  destruct (record_fields_come_from Z Samples.chunks_of Samples.level_node
              Samples.level_store true records r Hrun Hr)
    as (dname & dvar & Hvar & Hname & _).
  apply list_elem_of_singleton in Hvar. injection Hvar as -> _.
  exact Hname.
Defined.

(** The sample node over an empty manifest. *)
Lemma missing_zarray_raises_witness :
  extract_dataset_chunk_index Samples.chunks_of Samples.level_node ∅ true
  = Raise (KeyError "t/instant/isobaricInhPa/t/.zarray").
Proof.
  refine (proj2 (missing_zarray_raises Z Samples.chunks_of Samples.level_node
                   ∅ true "t" Samples.t_var _ _) [] _).
  - left.
  - apply lookup_empty.
  - reflexivity.
Defined.

(** The chunk of [t] stored for the node of the sample messages is the
    one the index looks up. *)
Lemma tree_entries_are_found_by_index_witness :
  store_group_refs "t/instant/isobaricInhPa"
    [("t/.zarray", RStr "[1, 4]");
     ("t/0.0", RList [AStr "f.grib2"; AInt 0; AInt 100])] ∅
    !! build_path [Some "/t/instant/isobaricInhPa"; Some "t"] (Some "0.0")
  = Some (RList [AStr "f.grib2"; AInt 0; AInt 100]).
Proof.
  apply (tree_entries_are_found_by_index "t/instant/isobaricInhPa"
           [("t/.zarray", RStr "[1, 4]");
            ("t/0.0", RList [AStr "f.grib2"; AInt 0; AInt 100])]
           ∅ "t" "0.0").
  - reflexivity.
  - discriminate.
  - apply NoDup_cons. split.
    + intros Hin. apply list_elem_of_singleton in Hin. discriminate.
    + apply NoDup_singleton.
  - right. left.
Defined.

(** A sample message named "unknown" gives no row. *)
Lemma dropped_message_gives_no_row_witness :
  _extract_single_group Z Samples.loads MoreSamples.mzz_first (RBytes "zgroup")
    Samples.zattrs_encode Samples.zattrs_decode (fun b => Some b)
    MoreSamples.whole_chunks MoreSamples.open_tree
    (Samples.message "unknown" "700" 100) 2
  = Ok None.
Proof.
  refine (proj2 (dropped_message_gives_no_row Z Samples.loads
                   MoreSamples.mzz_first (RBytes "zgroup")
                   Samples.zattrs_encode Samples.zattrs_decode
                   (fun b => Some b) MoreSamples.whole_chunks
                   MoreSamples.open_tree
                   (Samples.message "unknown" "700" 100) 2 (RStr "zgroup")
                   _ _)).
  - vm_compute. reflexivity.
  - reflexivity.
Defined.

(** The file of the three sample messages: rows for the first and the
    third. *)
Lemma map_grib_file_rows_are_numbered_witness :
  ∃ rows,
    MoreSamples.map_file "f.grib2" = Ok (Frame rows)
    ∧ map (fun r : gmap string (field Z) => r !! "idx") rows
      = [Some (FInt 1); Some (FInt 3)]
    ∧ ∃ references positions,
        MoreSamples.scan "f.grib2" = Ok references
        ∧ positions ≠ []
        ∧ map (fun r : gmap string (field Z) => r !! "idx") rows
          = map (fun i => Some (FInt (Z.of_nat i))) positions
        ∧ StronglySorted lt positions
        ∧ Forall (fun i => 1 ≤ i ≤ List.length references)%nat positions.
Proof.
  assert (match MoreSamples.map_file "f.grib2" with
          | Ok (Frame rows) =>
              map (fun r : gmap string (field Z) => r !! "idx") rows
          | _ => []
          end = [Some (FInt 1); Some (FInt 3)]) as Hidx
    by (vm_compute; reflexivity).
  destruct (MoreSamples.map_file "f.grib2") as [[|rows]|e] eqn:Hrun;
    [discriminate| |discriminate].
  exists rows. split; [reflexivity|]. split; [exact Hidx|].
  exact (map_grib_file_rows_are_numbered Z Samples.loads
           MoreSamples.mzz_first (RBytes "zgroup") Samples.zattrs_encode
           Samples.zattrs_decode (fun b => Some b) MoreSamples.whole_chunks
           MoreSamples.open_tree MoreSamples.scan "f.grib2" None rows Hrun).
Defined.

(** The file of dropped messages: nothing to concatenate. *)
Lemma map_grib_file_all_dropped_witness :
  MoreSamples.map_file "unknown.grib2" = Ok ValueError_no_objects.
Proof.
  apply (map_grib_file_all_dropped Z Samples.loads MoreSamples.mzz_first
           (RBytes "zgroup") Samples.zattrs_encode Samples.zattrs_decode
           (fun b => Some b) MoreSamples.whole_chunks MoreSamples.open_tree
           MoreSamples.scan "unknown.grib2"
           [Samples.message "unknown" "500" 0;
            Samples.message "unknown" "700" 100]).
  - reflexivity.
  - repeat constructor; vm_compute; reflexivity.
  - by eexists.
Defined.
